(** * Context Organizer: the tree provider and the add-note command

    A shallow embedding of [src/core/treeDataProvider.ts],
    [src/commands/addNoteToFileCommand.ts] and [scripts/bump-version.js].

    - JSON documents are values of [json]; a JavaScript value that may be
      [undefined] is an [option json].  Objects are property lists in
      enumeration order, arrays are lists.
    - Exceptions are explicit: fallible steps return a [result].
    - The services of the runtime (the [path] module, [JSON.parse],
      [JSON.stringify]) form the class [Platform]; the functions of the
      extension are written once, over any platform.  [NodePosix] is the
      instance used for the concrete scenarios.
    - The file system, the notifications shown, the input boxes opened and
      the commands executed are fields of the state [World].

    Scope of the JavaScript fragment: a read with a name that no built-in
    prototype defines ([configs], [showFolders], [contexts], [notes],
    [version], the keys that [for]-[in] yields) is a read of an own
    property; the read [config.notes[relativePath]] of the constructor of
    [File] follows the prototype chain, the one of the add-note command,
    which fills in the input box, is a read of the own entry; strings are UTF-8 byte strings that are indexed and
    iterated by character, which agrees with JavaScript inside the Basic
    Multilingual Plane; numbers are integers; the two modules of the
    extension run in strict mode, as compiled TypeScript modules do, the
    script in sloppy mode. *)

From Stdlib Require Import String Ascii ZArith List DecimalString DecimalPos DecimalN Lia.
From stdpp Require Import base option list gmap strings.

Local Open Scope string_scope.
Local Open Scope list_scope.

(* ================================================================= *)
(** ** Strings *)

(** [s.split(sep)] for a one-character separator: never empty. *)
Fixpoint split (sep : ascii) (s : string) : list string :=
  match s with
  | EmptyString => [EmptyString]
  | String c s' =>
      if Ascii.eqb c sep then EmptyString :: split sep s'
      else match split sep s' with
           | [] => [String c EmptyString]
           | h :: t => String c h :: t
           end
  end.

(** [s.includes(c)] *)
Fixpoint contains (c : ascii) (s : string) : bool :=
  match s with
  | EmptyString => false
  | String c' s' => Ascii.eqb c' c || contains c s'
  end.

(** [parts[parts.length - 2]]: [undefined] when there are fewer than two. *)
Definition penultimate {A} (parts : list A) : option A :=
  match length parts with
  | S (S n) => parts !! n
  | _ => None
  end.

Definition is_continuation_byte (c : ascii) : bool :=
  let n := nat_of_ascii c in (128 <=? n)%nat && (n <? 192)%nat.

Definition starts_with_continuation (s : string) : bool :=
  match s with
  | EmptyString => false
  | String c _ => is_continuation_byte c
  end.

(** The characters of a string (a lead byte with its continuation bytes). *)
Fixpoint characters (s : string) : list string :=
  match s with
  | EmptyString => []
  | String c r =>
      match characters r with
      | h :: t =>
          if starts_with_continuation h then String c h :: t
          else String c EmptyString :: h :: t
      | [] => [String c EmptyString]
      end
  end.

Definition decimal (n : nat) : string := NilZero.string_of_uint (Nat.to_uint n).

Definition newline : string := String (ascii_of_nat 10) EmptyString.

(** [s.includes(needle)] *)
Fixpoint includes (needle s : string) : bool :=
  String.prefix needle s
  || match s with
     | EmptyString => false
     | String _ r => includes needle r
     end.

(** A string of ASCII characters: on these, [toLowerCase] and [trim] work
    byte by byte. *)
Fixpoint is_ascii (s : string) : bool :=
  match s with
  | EmptyString => true
  | String c r => (nat_of_ascii c <? 128)%nat && is_ascii r
  end.

Definition lower (c : ascii) : ascii :=
  let n := nat_of_ascii c in
  if (65 <=? n)%nat && (n <=? 90)%nat then ascii_of_nat (n + 32) else c.

(** [s.toLowerCase()] for an ASCII string. *)
Fixpoint toLowerCase (s : string) : string :=
  match s with
  | EmptyString => EmptyString
  | String c r => String (lower c) (toLowerCase r)
  end.

(** The ASCII characters that [trim] removes: tab, line feed, vertical tab,
    form feed, carriage return, space. *)
Definition is_space (c : ascii) : bool :=
  let n := nat_of_ascii c in
  ((9 <=? n)%nat && (n <=? 13)%nat) || (n =? 32)%nat.

Fixpoint trim_start (s : string) : string :=
  match s with
  | String c r => if is_space c then trim_start r else s
  | EmptyString => s
  end.

Fixpoint trim_end (s : string) : string :=
  match s with
  | EmptyString => EmptyString
  | String c r =>
      match trim_end r with
      | EmptyString => if is_space c then EmptyString else String c EmptyString
      | String _ _ as r' => String c r'
      end
  end.

(** [s.trim()] for an ASCII string. *)
Definition trim (s : string) : string := trim_end (trim_start s).

(* ================================================================= *)
(** ** JavaScript values and exceptions *)

#[warnings="-register-all"]
Inductive json : Type :=
| JNull
| JBool (b : bool)
| JNum (n : Z)
| JStr (s : string)
| JArr (elems : list json)
| JObj (props : list (string * json)).

(** What a step can throw.  [OutsideFragment] is not a JavaScript exception:
    it marks a step that JavaScript performs and this embedding does not
    represent: a property write on an array and, in the reader of
    [NodePosix], a numeral that is not an integer, an escape with [u], or
    a text deeper than the fuel of the reader. *)
Inductive js_error : Type :=
| SyntaxError (message : string)
| TypeError
| FsError
| OutsideFragment.

Inductive result (A : Type) : Type :=
| Ok (a : A)
| Throw (e : js_error).
Arguments Ok {A} a.
Arguments Throw {A} e.

Definition bind {A B} (m : result A) (k : A -> result B) : result B :=
  match m with
  | Ok a => k a
  | Throw e => Throw e
  end.

Notation "'do' x <- m ; k" := (bind m (fun x => k))
  (at level 10, x name, m at level 100, k at level 200).

(** JavaScript truthiness. *)
Definition truthy (v : option json) : bool :=
  match v with
  | None | Some JNull => false
  | Some (JBool b) => b
  | Some (JNum n) => negb (n =? 0)%Z
  | Some (JStr s) => negb (String.eqb s "")
  | Some (JArr _) | Some (JObj _) => true
  end.

(** A canonical array index: the decimal numeral of an integer below 2^32 - 1. *)
Definition array_index (k : string) : option N :=
  match NilZero.uint_of_string k with
  | Some u =>
      let n := N.of_uint u in
      if String.eqb (NilZero.string_of_uint (N.to_uint n)) k && (n <? 4294967295)%N
      then Some n else None
  | None => None
  end.

Definition index_keys (n : nat) : list string := map decimal (seq 0 n).

Definition nth_index {A} (l : list A) (i : N) : option A :=
  if (i <? N.of_nat (length l))%N then l !! N.to_nat i else None.

(** *** Property lists *)

Fixpoint props_get (k : string) (ps : list (string * json)) : option json :=
  match ps with
  | [] => None
  | (k', v) :: r => if String.eqb k' k then Some v else props_get k r
  end.

Definition has_key (k : string) (ps : list (string * json)) : bool :=
  existsb (fun p => String.eqb (fst p) k) ps.

Fixpoint props_replace (k : string) (v : json) (ps : list (string * json))
  : list (string * json) :=
  match ps with
  | [] => []
  | (k', v') :: r =>
      if String.eqb k' k then (k', v) :: r else (k', v') :: props_replace k v r
  end.

(** A new integer-like key goes among the leading integer-like keys, in
    ascending order. *)
Fixpoint props_insert_index (n : N) (k : string) (v : json)
    (ps : list (string * json)) : list (string * json) :=
  match ps with
  | [] => [(k, v)]
  | (k', v') :: r =>
      match array_index k' with
      | Some m =>
          if (m <? n)%N then (k', v') :: props_insert_index n k v r
          else (k, v) :: ps
      | None => (k, v) :: ps
      end
  end.

(** [obj[k] = v] on an ordinary object: an existing key keeps its place, a
    new one is added in own-property order. *)
Definition props_set (k : string) (v : json) (ps : list (string * json))
  : list (string * json) :=
  if has_key k ps then props_replace k v ps
  else match array_index k with
       | Some n => props_insert_index n k v ps
       | None => ps ++ [(k, v)]
       end.

(** [delete obj[k]] on an ordinary object. *)
Definition props_delete (k : string) (ps : list (string * json))
  : list (string * json) :=
  List.filter (fun p => negb (String.eqb (fst p) k)) ps.

(** *** Reading *)

(** The own property [k] of a value that is neither [null] nor [undefined];
    what a read [v[k]] gives when no prototype of [v] has a member [k]. *)
Definition get_prop (v : json) (k : string) : option json :=
  match v with
  | JObj ps => props_get k ps
  | JArr l =>
      if String.eqb k "length" then Some (JNum (Z.of_nat (length l)))
      else match array_index k with
           | Some i => nth_index l i
           | None => None
           end
  | JStr s =>
      if String.eqb k "length" then Some (JNum (Z.of_nat (length (characters s))))
      else match array_index k with
           | Some i => JStr <$> nth_index (characters s) i
           | None => None
           end
  | _ => None
  end.

(** [v.k] or [v[k]] for an own property: a [TypeError] on [null] and
    [undefined]. *)
Definition member (v : option json) (k : string) : result (option json) :=
  match v with
  | None | Some JNull => Throw TypeError
  | Some j => Ok (get_prop j k)
  end.

(** The keys visited by [for (k in v)] and listed by [Object.keys(v)]. *)
Definition own_keys (v : option json) : list string :=
  match v with
  | Some (JObj ps) => map fst ps
  | Some (JArr l) => index_keys (length l)
  | Some (JStr s) => index_keys (length (characters s))
  | _ => []
  end.

(** The values visited by [for (x of v)]. *)
Definition iterate (v : option json) : result (list json) :=
  match v with
  | Some (JArr l) => Ok l
  | Some (JStr s) => Ok (map JStr (characters s))
  | _ => Throw TypeError
  end.

(** An argument that has to be a string ([fullPath.split], the checks of the
    [path] module). *)
Definition as_string (v : option json) : result string :=
  match v with
  | Some (JStr s) => Ok s
  | _ => Throw TypeError
  end.

Definition join_with (sep : string) (l : list string) : string :=
  match l with
  | [] => ""
  | h :: t => fold_left (fun acc s => acc +:+ sep +:+ s) t h
  end.

(** String conversion, as in a template literal. *)
Fixpoint js_toString (v : json) : string :=
  match v with
  | JNull => "null"
  | JBool true => "true"
  | JBool false => "false"
  | JNum n => NilZero.string_of_int (Z.to_int n)
  | JStr s => s
  | JArr l =>
      join_with ","
        (map (fun e => match e with JNull => "" | _ => js_toString e end) l)
  | JObj _ => "[object Object]"
  end.

(** What a read gives that follows the prototype chain: a value of the
    document, or a member of a built-in prototype (a function, or the
    prototype itself for [__proto__]), of which its conversion to a string is
    kept.  Such a member is an object, hence truthy. *)
Inductive js_value : Type :=
| Data (j : json)
| Builtin (text : string).

Definition truthy_value (v : option js_value) : bool :=
  match v with
  | Some (Data j) => truthy (Some j)
  | Some (Builtin _) => true
  | None => false
  end.

(** String conversion, as in a template literal. *)
Definition value_text (v : js_value) : string :=
  match v with
  | Data j => js_toString j
  | Builtin text => text
  end.

(** *** Writing *)

(** [target[k] = v] in strict mode.  Without an own property [__proto__]
    the assignment to that name goes to the setter of [Object.prototype]:
    it stores nothing, and changes the prototype when [v] is an object or
    [null], which is not represented. *)
Definition set_prop (target : json) (k : string) (v : json) : result json :=
  match target with
  | JObj ps =>
      if String.eqb k "__proto__" && negb (has_key k ps) then
        match v with
        | JObj _ | JArr _ | JNull => Throw OutsideFragment
        | JBool _ | JNum _ | JStr _ => Ok target
        end
      else Ok (JObj (props_set k v ps))
  | JArr _ => Throw OutsideFragment
  | _ => Throw TypeError
  end.

(** [delete target[k]] in strict mode. *)
Definition delete_prop (target : json) (k : string) : result json :=
  match target with
  | JObj ps => Ok (JObj (props_delete k ps))
  | JArr l =>
      match get_prop target k with
      | None => Ok target
      | Some _ => if String.eqb k "length" then Throw TypeError else Throw OutsideFragment
      end
  | JStr _ =>
      match get_prop target k with
      | None => Ok target
      | Some _ => Throw TypeError
      end
  | JNull => Throw TypeError
  | JBool _ | JNum _ => Ok target
  end.

(* ================================================================= *)
(** ** The runtime: path module, JSON, file system, editor host *)

(** The functions of Node's [path] module and the global [JSON] that the
    sources call, and the built-in prototypes of the engine.
    [JSON_stringify v n] is [JSON.stringify(v, null, n)]; [inherited v k] is
    the member [k] that the value [v] inherits from the prototypes of its
    class, as its conversion to a string. *)
Class Platform : Type := {
  path_sep : ascii;
  path_join : list string -> string;
  path_basename : string -> string;
  path_extname : string -> string;
  path_relative : string -> string -> string;
  JSON_parse : string -> result json;
  JSON_stringify : json -> nat -> string;
  inherited : json -> string -> option string
}.

(** What exists at a path: a file that can be read and written, a file that
    can only be read, or something that is there but is no readable file
    (a directory). *)
Inductive FsEntry : Type :=
| Regular (content : string)
| ReadOnly (content : string)
| Unreadable.

Inductive Severity : Type := Information | Warning | Error.

Record InputBoxOptions : Type := {
  prompt : string;
  placeHolder : string;
  value : json;
  ignoreFocusOut : bool
}.

Record World : Type := {
  fs : gmap string FsEntry;
  (** [vscode.workspace.workspaceFolders?.[0]?.uri.fsPath] *)
  workspaceFolder : option string;
  (** messages shown with [vscode.window.show...Message], oldest first *)
  notifications : list (Severity * string);
  (** input boxes opened with [vscode.window.showInputBox] *)
  inputBoxes : list InputBoxOptions;
  (** commands run with [vscode.commands.executeCommand] *)
  commands : list string
}.

Definition existsSync (w : World) (p : string) : bool :=
  bool_decide (is_Some (fs w !! p)).

Definition readFileSync (w : World) (p : string) : result string :=
  match fs w !! p with
  | Some (Regular c) | Some (ReadOnly c) => Ok c
  | Some Unreadable | None => Throw FsError
  end.

Definition writeFileSync (w : World) (p : string) (data : string) : result World :=
  match fs w !! p with
  | Some (Regular _) | None =>
      Ok {| fs := <[p := Regular data]> (fs w);
            workspaceFolder := workspaceFolder w;
            notifications := notifications w;
            inputBoxes := inputBoxes w;
            commands := commands w |}
  | Some (ReadOnly _) | Some Unreadable => Throw FsError
  end.

Definition showMessage (sev : Severity) (msg : string) (w : World) : World :=
  {| fs := fs w;
     workspaceFolder := workspaceFolder w;
     notifications := notifications w ++ [(sev, msg)];
     inputBoxes := inputBoxes w;
     commands := commands w |}.

Definition showInputBox (o : InputBoxOptions) (w : World) : World :=
  {| fs := fs w;
     workspaceFolder := workspaceFolder w;
     notifications := notifications w;
     inputBoxes := inputBoxes w ++ [o];
     commands := commands w |}.

Definition executeCommand (c : string) (w : World) : World :=
  {| fs := fs w;
     workspaceFolder := workspaceFolder w;
     notifications := notifications w;
     inputBoxes := inputBoxes w;
     commands := commands w ++ [c] |}.

(** [vscode.workspace.workspaceFolders?.[0]?.uri.fsPath || ''] *)
Definition workspaceFolder_or_empty (w : World) : string :=
  match workspaceFolder w with
  | Some p => p
  | None => ""
  end.

(* ================================================================= *)
(** ** Tree items *)

(** The three subclasses of [Container]; every one of them has [children].
    The [label] of a [File] is [path.basename(filePath)], its [id] is
    [filePath + contextName]; [tooltip] and [description] may stay unset.
    The fields that are the same for all items of a class (icon, context
    value, collapsible state, the command that opens a file) are left to
    the constructor. *)
#[warnings="-register-all"]
Inductive TreeItem : Type :=
| Section (label : string) (children : list TreeItem)
| Folder (label : string) (children : list TreeItem)
| File (filePath label id : string) (tooltip description : option string)
       (children : list TreeItem).

Definition label (it : TreeItem) : string :=
  match it with
  | Section l _ | Folder l _ | File _ l _ _ _ _ => l
  end.

Definition children (it : TreeItem) : list TreeItem :=
  match it with
  | Section _ c | Folder _ c | File _ _ _ _ _ c => c
  end.

Definition with_children (it : TreeItem) (c : list TreeItem) : TreeItem :=
  match it with
  | Section l _ => Section l c
  | Folder l _ => Folder l c
  | File p l i t d _ => File p l i t d c
  end.

(** [fileItem.filePath]: only a [File] has the field. *)
Definition filePath_of (it : TreeItem) : option json :=
  match it with
  | File p _ _ _ _ _ => Some (JStr p)
  | _ => None
  end.

Definition is_Section (it : TreeItem) : bool :=
  match it with Section _ _ => true | _ => false end.

Definition is_File (it : TreeItem) : bool :=
  match it with File _ _ _ _ _ _ => true | _ => false end.

Definition is_Folder (it : TreeItem) : bool :=
  match it with Folder _ _ => true | _ => false end.

Definition description_of (it : TreeItem) : option string :=
  match it with File _ _ _ _ d _ => d | _ => None end.

Definition tooltip_of (it : TreeItem) : option string :=
  match it with File _ _ _ t _ _ => t | _ => None end.

Definition id_of (it : TreeItem) : option string :=
  match it with File _ _ i _ _ _ => Some i | _ => None end.

Definition note_glyph : string := "📝".

(* ================================================================= *)
(** ** treeDataProvider.ts *)

Section Provider.
Context {platform : Platform}.

Definition contexts_json (dir : string) : string :=
  path_join [dir; ".vscode"; "contexts.json"].

(** [JSON.parse(fs.readFileSync(configPath, 'utf-8'))] *)
Definition read_config (w : World) (configPath : string) : result json :=
  do text <- readFileSync w configPath;
  JSON_parse text.

(** [config.configs.showFolders] *)
Definition showFolders_of (config : json) : result (option json) :=
  do configs <- member (Some config) "configs";
  member configs "showFolders".

(** [v[k]] along the prototype chain: the own property, or else the
    inherited member. *)
Definition lookup (v : json) (k : string) : option js_value :=
  match get_prop v k with
  | Some j => Some (Data j)
  | None => Builtin <$> inherited v k
  end.

(** [config.notes && config.notes[relativePath]], for a [config] whose
    [configs] member was read before. *)
Definition note_of (config : json) (relativePath : string) : option js_value :=
  let notes := get_prop config "notes" in
  if truthy notes then
    match notes with
    | Some n => lookup n relativePath
    | None => None
    end
  else Data <$> notes.

(** The fields the constructor of [File] sets from the configuration. *)
Definition File_fields (config : json) (showFolders : option json)
    (workspaceRoot filePath contextName : string) : TreeItem :=
  let relativePath := path_relative workspaceRoot filePath in
  let note := note_of config relativePath in
  let tooltip :=
    if truthy_value note then
      match note with
      | Some n =>
          Some (path_basename filePath +:+ newline +:+ newline +:+ note_glyph
                +:+ " Note: " +:+ value_text n)
      | None => None
      end
    else None in
  let description :=
    if negb (truthy showFolders) then penultimate (split path_sep filePath)
    else if truthy_value note then Some note_glyph
    else None in
  File filePath (path_basename filePath) (filePath +:+ contextName)
       tooltip description [].

(** [new File(filePath, contextName)] *)
Definition new_File (w : World) (filePath contextName : string) : result TreeItem :=
  let configPath := contexts_json (workspaceFolder_or_empty w) in
  do config <- read_config w configPath;
  do showFolders <- showFolders_of config;
  Ok (File_fields config showFolders (workspaceFolder_or_empty w) filePath contextName).

Definition has_label (part : string) (level : list TreeItem) : bool :=
  existsb (fun it => String.eqb (label it) part) level.

(** A turn of the loop of [addToTree] for a part that is not the last:
    [currentLevel] becomes the children of the first item of [level] whose
    label is [part], whatever its class, or of a folder pushed for [part];
    [rest_of_loop] is the loop from the next part on. *)
Fixpoint enter (rest_of_loop : list TreeItem -> result (list TreeItem))
    (part : string) (level : list TreeItem) : result (list TreeItem) :=
  match level with
  | [] =>
      do sub <- rest_of_loop [];
      Ok [Folder part sub]
  | it :: level' =>
      if String.eqb (label it) part then
        do sub <- rest_of_loop (children it);
        Ok (with_children it sub :: level')
      else
        do tl <- enter rest_of_loop part level';
        Ok (it :: tl)
  end.

(** The loop of [addToTree] in folder mode, on the array [level]: the last
    part pushes the file unless an item of that label is there, an earlier
    part enters an item or a new folder.  [file] is [new File(...)], which
    is only evaluated where the file is pushed. *)
Fixpoint place (file : result TreeItem) (parts : list string)
    (level : list TreeItem) : result (list TreeItem) :=
  match parts with
  | [] => Ok level
  | part :: rest =>
      match rest with
      | [] =>
          if has_label part level then Ok level
          else do f <- file; Ok (level ++ [f])
      | _ :: _ => enter (place file rest) part level
      end
  end.

(** [addToTree(parent, fullPath, contextName)]; the result is the array
    [parent] after the call. *)
Definition addToTree (w : World) (workspaceRoot : string)
    (parent : list TreeItem) (fullPath : option json) (contextName : string)
  : result (list TreeItem) :=
  do fullPath <- as_string fullPath;
  let parts := split path_sep fullPath in
  let configPath := contexts_json workspaceRoot in
  do config <- read_config w configPath;
  do showFolders <- showFolders_of config;
  let file := new_File w (path_join (workspaceRoot :: parts)) contextName in
  if truthy showFolders then place file parts parent
  else do f <- file; Ok (parent ++ [f]).

(** [showFolders || path.extname(filePath)] *)
Definition shown (showFolders : option json) (filePath : json) : result bool :=
  if truthy showFolders then Ok true
  else do s <- as_string (Some filePath);
       Ok (negb (String.eqb (path_extname s) "")).

(** The inner loop of [handleLoadConfig] over the paths of one context. *)
Fixpoint add_paths (w : World) (workspaceRoot : string) (showFolders : option json)
    (contextName : string) (paths : list json) (sectionItems : list TreeItem)
  : result (list TreeItem) :=
  match paths with
  | [] => Ok sectionItems
  | filePath :: more =>
      do keep <- shown showFolders filePath;
      do sectionItems' <-
        (if keep then addToTree w workspaceRoot sectionItems (Some filePath) contextName
         else Ok sectionItems);
      add_paths w workspaceRoot showFolders contextName more sectionItems'
  end.

(** The outer loop of [handleLoadConfig]: [items] is [this._items], which
    keeps the sections pushed before an exception. *)
Fixpoint add_sections (w : World) (workspaceRoot : string) (showFolders : option json)
    (contexts : option json) (names : list string) (items : list TreeItem)
  : list TreeItem * option js_error :=
  match names with
  | [] => (items, None)
  | sectionName :: more =>
      let section :=
        do paths <- bind (member contexts sectionName) iterate;
        add_paths w workspaceRoot showFolders sectionName paths [] in
      match section with
      | Ok sectionItems =>
          add_sections w workspaceRoot showFolders contexts more
            (items ++ [Section sectionName sectionItems])
      | Throw e => (items, Some e)
      end
  end.

(** [handleLoadConfig(configPath)] *)
Definition handleLoadConfig (w : World) (workspaceRoot configPath : string)
    (items : list TreeItem) : list TreeItem * option js_error :=
  match read_config w configPath with
  | Throw e => (items, Some e)
  | Ok config =>
      match showFolders_of config with
      | Throw e => (items, Some e)
      | Ok showFolders =>
          let contexts := get_prop config "contexts" in
          add_sections w workspaceRoot showFolders contexts (own_keys contexts) items
      end
  end.

Record TreeDataProvider : Type := {
  workspaceRoot : string;
  _items : list TreeItem
}.

Definition generic_error (configPath : string) : string :=
  "Error while reading file " +:+ configPath +:+ ", check your file".

Definition detailed_error (e : js_error) (configPath : string) : string :=
  match e with
  | SyntaxError m => "Error while reading file configPath, details : " +:+ m
  | _ => generic_error configPath
  end.

Definition not_found_warning : string :=
  "File contexts.json was not found in the .vscode folder, so it has been created for you.".

(** [loadConfig()] *)
Definition loadConfig (this : TreeDataProvider) (w : World) : TreeDataProvider * World :=
  let configPath := contexts_json (workspaceRoot this) in
  if existsSync w configPath then
    match handleLoadConfig w (workspaceRoot this) configPath [] with
    | (items, None) =>
        ({| workspaceRoot := workspaceRoot this; _items := items |}, w)
    | (items, Some e) =>
        ({| workspaceRoot := workspaceRoot this; _items := items |},
         showMessage Error (detailed_error e configPath)
           (showMessage Error (generic_error configPath) w))
    end
  else
    ({| workspaceRoot := workspaceRoot this; _items := [] |},
     showMessage Warning not_found_warning w).

(** [new TreeDataProvider(workspaceRoot)] *)
Definition new_TreeDataProvider (root : string) (w : World) : TreeDataProvider * World :=
  loadConfig {| workspaceRoot := root; _items := [] |} w.

(** [getChildren(element)] *)
Definition getChildren (this : TreeDataProvider) (element : option TreeItem)
  : list TreeItem :=
  match element with
  | Some it => children it
  | None => _items this
  end.

(** [getTreeItem(element)] *)
Definition getTreeItem (this : TreeDataProvider) (element : TreeItem) : TreeItem :=
  element.

(** [refresh()]; the third component lists what was fired on
    [_onDidChangeTreeData], [None] for [undefined]. *)
Definition refresh (this : TreeDataProvider) (w : World)
  : TreeDataProvider * World * list (option TreeItem) :=
  let '(this', w') := loadConfig this w in
  (this', w', [None]).

End Provider.

(* ================================================================= *)
(** ** addNoteToFileCommand.ts *)

(** How the promise of an [async] function settles. *)
Inductive Completion : Type :=
| Resolved
| Rejected (e : js_error).

Section AddNote.
Context {platform : Platform}.

(** [if (!config.notes) { config.notes = {}; }] *)
Definition init_notes (config : json) : result json :=
  do notes <- member (Some config) "notes";
  if truthy notes then Ok config else set_prop config "notes" (JObj []).

(** [config.notes[relativePath] || ''], read as the own entry of the path:
    what a path without a note that names an inherited member fills in is
    not told apart from the empty string. *)
Definition existing_note (config : json) (relativePath : string) : result json :=
  do notes <- member (Some config) "notes";
  do n <- member notes relativePath;
  Ok (match n with
      | Some j => if truthy n then j else JStr ""
      | None => JStr ""
      end).

(** The object [config.notes] is mutated in place; [config] sees the change
    at the place the key already has. *)
Definition store_notes (config notes : json) : json :=
  match config with
  | JObj ps => JObj (props_replace "notes" notes ps)
  | _ => config
  end.

(** The branches on [note === ''] after the input box. *)
Definition apply_note (config : json) (relativePath note : string) : result json :=
  do notes <- member (Some config) "notes";
  match notes with
  | None => Throw TypeError
  | Some notes =>
      if String.eqb note "" then
        do notes' <- delete_prop notes relativePath;
        let config' := store_notes config notes' in
        if (length (own_keys (Some notes')) =? 0)%nat
        then delete_prop config' "notes"
        else Ok config'
      else
        do notes' <- set_prop notes relativePath (JStr note);
        Ok (store_notes config notes')
  end.

Definition refresh_command : string := "context-organizer.refresh".

(** [addNoteToFileCommand(fileItem)].  [answer] is what the input box
    resolves to if it is opened: [None] when the user dismisses it. *)
Definition addNoteToFileCommand (w : World) (fileItem : TreeItem)
    (answer : option string) : World * Completion :=
  match workspaceFolder w with
  | None | Some EmptyString =>
      (showMessage Error "No workspace folder is open" w, Resolved)
  | Some workspaceRoot =>
      let configPath := contexts_json workspaceRoot in
      if negb (existsSync w configPath) then
        (showMessage Error "contexts.json file not found" w, Resolved)
      else
        match as_string (filePath_of fileItem) with
        | Throw e => (w, Rejected e)
        | Ok absolutePath =>
            let relativePath := path_relative workspaceRoot absolutePath in
            match read_config w configPath with
            | Throw _ => (showMessage Error "Error reading contexts.json" w, Resolved)
            | Ok config =>
                match (do config1 <- init_notes config;
                       do existingNote <- existing_note config1 relativePath;
                       Ok (config1, existingNote)) with
                | Throw e => (w, Rejected e)
                | Ok (config1, existingNote) =>
                    let w1 :=
                      showInputBox
                        {| prompt := "Add note for " +:+ path_basename relativePath;
                           placeHolder := "Enter your note here...";
                           value := existingNote;
                           ignoreFocusOut := true |} w in
                    match answer with
                    | None => (w1, Resolved)
                    | Some note =>
                        match apply_note config1 relativePath note with
                        | Throw e => (w1, Rejected e)
                        | Ok config2 =>
                            match writeFileSync w1 configPath (JSON_stringify config2 2) with
                            | Ok w2 =>
                                (executeCommand refresh_command
                                   (showMessage Information
                                      (if String.eqb note "" then "Note removed"
                                       else "Note saved") w2),
                                 Resolved)
                            | Throw _ =>
                                (showMessage Error "Error saving note to contexts.json" w1,
                                 Resolved)
                            end
                        end
                    end
                end
            end
        end
  end.

End AddNote.

(* ================================================================= *)
(** ** scripts/bump-version.js *)

(** The script is a CommonJS module without a strict-mode directive; what
    one of its functions throws is caught nowhere, except in
    [getLastCommitMessage].  Numbers are represented up to
    [Number.MAX_SAFE_INTEGER] and the commit message where it is ASCII;
    beyond, a step is marked with [OutsideFragment]. *)

(** What the script throws: an exception of the runtime, or
    [new Error(message)]. *)
Inductive script_error : Type :=
| Runtime (e : js_error)
| PlainError (message : string).

Inductive attempt (A : Type) : Type :=
| Done (a : A)
| Failed (e : script_error).
Arguments Done {A} a.
Arguments Failed {A} e.

Definition runtime {A} (r : result A) : attempt A :=
  match r with
  | Ok a => Done a
  | Throw e => Failed (Runtime e)
  end.

Definition and_then {A B} (m : attempt A) (k : A -> attempt B) : attempt B :=
  match m with
  | Done a => k a
  | Failed e => Failed e
  end.

(** The object [parseVersion] returns. *)
Record Version : Type := {
  major : N;
  minor : N;
  patch : N
}.

(** [Number.MAX_SAFE_INTEGER]: up to it [parseInt], [+ 1] and the conversion
    to a string are exact. *)
Definition max_safe_integer : N := 9007199254740991.

(** [parseInt(s, 10)] for a string that matches [\d+], which is any string
    of one or more ASCII digits. *)
Definition digits (s : string) : option N :=
  N.of_uint <$> NilZero.uint_of_string s.

(** The string of a number that is a natural number, as in a template
    literal. *)
Definition number_text (n : N) : string := NilZero.string_of_uint (N.to_uint n).

(** A value in a template literal. *)
Definition template (v : option json) : string :=
  match v with
  | Some j => js_toString j
  | None => "undefined"
  end.

(** [target[k] = v] in sloppy mode: as in strict mode on an object,
    without effect on a primitive. *)
Definition set_prop_sloppy (target : json) (k : string) (v : json) : result json :=
  match target with
  | JObj _ | JArr _ => set_prop target k v
  | JNull => Throw TypeError
  | JBool _ | JNum _ | JStr _ => Ok target
  end.

(** What [execSync('git log -1 --pretty=%B', ...)] does: it returns the
    output of the command, or throws an error with a message. *)
Inductive Git : Type :=
| GitOutput (out : string)
| GitError (message : string).

(** How the process ends: [main] returns, [process.exit(code)] is called,
    or an exception is thrown out of [main]. *)
Inductive Ending : Type :=
| Returned
| Exited (code : Z)
| Crashed (e : script_error).

(** A run of the script: the world it leaves, what it prints with
    [console.log] and with [console.error], call by call, and its ending. *)
Record Trace : Type := {
  after : World;
  stdout : list string;
  stderr : list string;
  ending : Ending
}.

Definition double_quote : string := String (ascii_of_nat 34) EmptyString.

Section BumpVersion.
Context {platform : Platform}.

(** [getLastCommitMessage()]: the trimmed output, or the line printed with
    [console.error] before [process.exit(1)]. *)
Definition getLastCommitMessage (git : Git) : result string + string :=
  match git with
  | GitOutput out => inl (if is_ascii out then Ok (trim out) else Throw OutsideFragment)
  | GitError message => inr ("Error getting last commit message: " +:+ message)
  end.

(** [path.join(__dirname, '..', 'package.json')] *)
Definition package_json (dirname : string) : string :=
  path_join [dirname; ".."; "package.json"].

(** [getCurrentVersion()] *)
Definition getCurrentVersion (dirname : string) (w : World) : result (option json) :=
  do packageJson <- read_config w (package_json dirname);
  member (Some packageJson) "version".

Definition invalid_version (version : string) : script_error :=
  PlainError ("Invalid version format: " +:+ version).

(** [parseVersion(version)].  The pattern [^(\d+)\.(\d+)\.(\d+)$] matches
    the strings made of three groups of one or more digits with a dot
    between them: no digit is a dot, so these are the strings that [.]
    splits into three such groups. *)
Definition parseVersion (version : option json) : attempt Version :=
  and_then (runtime (as_string version)) (fun v =>
    match split "."%char v with
    | [a; b; c] =>
        match digits a, digits b, digits c with
        | Some x, Some y, Some z =>
            if (x <=? max_safe_integer)%N && (y <=? max_safe_integer)%N
               && (z <=? max_safe_integer)%N
            then Done {| major := x; minor := y; patch := z |}
            else Failed (Runtime OutsideFragment)
        | _, _, _ => Failed (invalid_version v)
        end
    | _ => Failed (invalid_version v)
    end).

(** The commit types of the pattern
    [^(feat|fix|chore|docs|style|refactor|perf|test)!:]. *)
Definition commit_types : list string :=
  ["feat"; "fix"; "chore"; "docs"; "style"; "refactor"; "perf"; "test"].

(** [determineVersionBump(commitMessage)] *)
Definition determineVersionBump (commitMessage : string) : result string :=
  if negb (is_ascii commitMessage) then Throw OutsideFragment
  else
    match split (ascii_of_nat 10) commitMessage with
    | [] => Throw TypeError
    | line :: _ =>
        let firstLine := toLowerCase line in
        let fullMessage := toLowerCase commitMessage in
        if includes "breaking change" fullMessage
           || includes "!:" firstLine
           || existsb (fun t => String.prefix (t +:+ "!:") firstLine) commit_types
        then Ok "major"
        else if String.prefix "feat:" firstLine || String.prefix "feat(" firstLine
        then Ok "minor"
        else if String.prefix "fix:" firstLine || String.prefix "fix(" firstLine
        then Ok "patch"
        else Ok "patch"
    end.

(** [bumpVersion(version, bumpType)] *)
Definition bumpVersion (version : option json) (bumpType : string) : attempt string :=
  and_then (parseVersion version) (fun parsed =>
    if String.eqb bumpType "major" then
      Done (number_text (major parsed + 1) +:+ ".0.0")
    else if String.eqb bumpType "minor" then
      Done (number_text (major parsed) +:+ "." +:+ number_text (minor parsed + 1)
            +:+ ".0")
    else if String.eqb bumpType "patch" then
      Done (number_text (major parsed) +:+ "." +:+ number_text (minor parsed)
            +:+ "." +:+ number_text (patch parsed + 1))
    else Failed (PlainError ("Unknown bump type: " +:+ bumpType))).

(** [updatePackageJson(newVersion)] *)
Definition updatePackageJson (dirname newVersion : string) (w : World) : result World :=
  do packageJson <- read_config w (package_json dirname);
  do packageJson' <- set_prop_sloppy packageJson "version" (JStr newVersion);
  writeFileSync w (package_json dirname) (JSON_stringify packageJson' 2 +:+ newline).

Definition bump_types : list string := ["major"; "minor"; "patch"].

(** [args.includes(flag)] *)
Definition has_flag (flag : string) (args : list string) : bool :=
  existsb (String.eqb flag) args.

(** The part of [main] from the computation of the new version on; [out]
    is what was printed before. *)
Definition apply_bump (dirname : string) (args : list string) (w : World)
    (currentVersion : option json) (bumpType : string) (out : list string) : Trace :=
  match bumpVersion currentVersion bumpType with
  | Failed e => {| after := w; stdout := out; stderr := []; ending := Crashed e |}
  | Done newVersion =>
      let out := out ++ ["New version: " +:+ newVersion] in
      if negb (has_flag "--yes" args) && negb (has_flag "-y" args) then
        {| after := w;
           stdout :=
             out ++ [newline +:+ "To apply this version bump, run:";
                     "  node scripts/bump-version.js " +:+ bumpType +:+ " --yes";
                     newline +:+ "Or add this to package.json scripts and run:";
                     "  npm run bump-version"];
           stderr := [];
           ending := Returned |}
      else
        match updatePackageJson dirname newVersion w with
        | Throw e =>
            {| after := w; stdout := out; stderr := []; ending := Crashed (Runtime e) |}
        | Ok w' =>
            {| after := w';
               stdout :=
                 out ++ [newline +:+ "✓ Version bumped to " +:+ newVersion
                         +:+ " in package.json";
                         newline +:+ "Next steps:";
                         "  1. Review the changes";
                         "  2. Commit: git add package.json && git commit -m "
                         +:+ double_quote +:+ "chore: bump version to " +:+ newVersion
                         +:+ double_quote;
                         "  3. Tag: git tag v" +:+ newVersion;
                         "  4. Push: git push && git push --tags"];
               stderr := [];
               ending := Returned |}
        end
  end.

(** [main()], for the arguments [args] after the name of the script and the
    directory [dirname] of the script. *)
Definition main (dirname : string) (args : list string) (git : Git) (w : World) : Trace :=
  let forceType := args !! 0%nat in
  match getCurrentVersion dirname w with
  | Throw e => {| after := w; stdout := []; stderr := []; ending := Crashed (Runtime e) |}
  | Ok currentVersion =>
      let out := ["Current version: " +:+ template currentVersion] in
      let forced :=
        match forceType with
        | Some t => if negb (String.eqb t "") && existsb (String.eqb t) bump_types
                    then Some t else None
        | None => None
        end in
      match forced with
      | Some bumpType =>
          apply_bump dirname args w currentVersion bumpType
            (out ++ ["Force bumping " +:+ bumpType +:+ " version"])
      | None =>
          match getLastCommitMessage git with
          | inr line => {| after := w; stdout := out; stderr := [line]; ending := Exited 1 |}
          | inl (Throw e) =>
              {| after := w; stdout := out; stderr := []; ending := Crashed (Runtime e) |}
          | inl (Ok commitMessage) =>
              let line := template (JStr <$> split (ascii_of_nat 10) commitMessage !! 0%nat) in
              let out := out ++ ["Last commit: " +:+ line] in
              match determineVersionBump commitMessage with
              | Throw e =>
                  {| after := w; stdout := out; stderr := []; ending := Crashed (Runtime e) |}
              | Ok bumpType =>
                  apply_bump dirname args w currentVersion bumpType
                    (out ++ ["Suggested bump type: " +:+ bumpType])
              end
          end
      end
  end.

End BumpVersion.

(* ================================================================= *)
(** ** A platform: Node on a POSIX system *)

Module Posix.

Definition slash : ascii := "/"%char.

Definition nonempty (s : string) : bool := negb (String.eqb s "").

(** The segment stack of [normalizeString]: empty and [.] segments vanish, a
    [..] removes the segment before it, or stays when nothing is left and
    the path is relative. *)
Fixpoint normalize_segments (allowAboveRoot : bool) (segs stack : list string)
  : list string :=
  match segs with
  | [] => rev stack
  | s :: more =>
      if String.eqb s "" || String.eqb s "." then
        normalize_segments allowAboveRoot more stack
      else if String.eqb s ".." then
        match stack with
        | top :: below =>
            if String.eqb top ".." then normalize_segments allowAboveRoot more (s :: stack)
            else normalize_segments allowAboveRoot more below
        | [] =>
            if allowAboveRoot then normalize_segments allowAboveRoot more [s]
            else normalize_segments allowAboveRoot more []
        end
      else normalize_segments allowAboveRoot more (s :: stack)
  end.

Definition is_absolute (p : string) : bool :=
  match p with
  | String c _ => Ascii.eqb c slash
  | EmptyString => false
  end.

Fixpoint ends_with_slash (p : string) : bool :=
  match p with
  | EmptyString => false
  | String c EmptyString => Ascii.eqb c slash
  | String _ r => ends_with_slash r
  end.

(** [path.posix.normalize] *)
Definition normalize (p : string) : string :=
  if String.eqb p "" then "."
  else
    let body := join_with "/" (normalize_segments (negb (is_absolute p)) (split slash p) []) in
    if String.eqb body "" then
      if is_absolute p then "/" else if ends_with_slash p then "./" else "."
    else
      let body := if ends_with_slash p then body +:+ "/" else body in
      if is_absolute p then "/" +:+ body else body.

(** [path.posix.join] *)
Definition join (args : list string) : string :=
  let joined := join_with "/" (List.filter nonempty args) in
  if String.eqb joined "" then "." else normalize joined.

(** [path.posix.basename]: the last segment that is not empty. *)
Definition basename (p : string) : string :=
  match rev (List.filter nonempty (split slash p)) with
  | last :: _ => last
  | [] => ""
  end.

(** The suffix of [s] that starts at its last dot. *)
Fixpoint from_last_dot (s : string) : option string :=
  match s with
  | EmptyString => None
  | String c r =>
      match from_last_dot r with
      | Some t => Some t
      | None => if Ascii.eqb c "."%char then Some s else None
      end
  end.

(** [path.posix.extname]: empty without a dot, for a name whose only dot
    comes first, and for [..]. *)
Definition extname (p : string) : string :=
  let base := basename p in
  match from_last_dot base with
  | None => ""
  | Some ext =>
      if String.eqb ext base || String.eqb base ".." then "" else ext
  end.

(** [path.posix.resolve] of one path, as segments below the root. *)
Definition resolve (cwd p : string) : list string :=
  let full := if is_absolute p then p else cwd +:+ "/" +:+ p in
  normalize_segments false (split slash full) [].

Fixpoint drop_common (a b : list string) : list string * list string :=
  match a, b with
  | x :: a', y :: b' => if String.eqb x y then drop_common a' b' else (a, b)
  | _, _ => (a, b)
  end.

(** [path.posix.relative] *)
Definition relative (cwd from to : string) : string :=
  if String.eqb from to then ""
  else
    let '(up, down) := drop_common (resolve cwd from) (resolve cwd to) in
    join_with "/" (map (fun _ => "..") up ++ down).

End Posix.

Module Json.

Definition quote_char : ascii := ascii_of_nat 34.
Definition backslash : ascii := ascii_of_nat 92.

Definition hex_digit (n : nat) : ascii :=
  ascii_of_nat (if (n <? 10)%nat then 48 + n else 87 + n).

(** [QuoteJSONString], one byte at a time. *)
Fixpoint escape (s : string) : string :=
  match s with
  | EmptyString => EmptyString
  | String c r =>
      let n := nat_of_ascii c in
      let rest := escape r in
      if Ascii.eqb c quote_char then String backslash (String quote_char rest)
      else if Ascii.eqb c backslash then String backslash (String backslash rest)
      else if (n =? 8)%nat then String backslash (String "b" rest)
      else if (n =? 9)%nat then String backslash (String "t" rest)
      else if (n =? 10)%nat then String backslash (String "n" rest)
      else if (n =? 12)%nat then String backslash (String "f" rest)
      else if (n =? 13)%nat then String backslash (String "r" rest)
      else if (n <? 32)%nat then
        String backslash
          (String "u" (String "0" (String "0"
             (String (hex_digit (n / 16)) (String (hex_digit (n mod 16)) rest)))))
      else String c rest
  end.

Definition quote (s : string) : string :=
  String quote_char (escape s +:+ String quote_char EmptyString).

Fixpoint spaces (n : nat) : string :=
  match n with
  | O => EmptyString
  | S n' => String " " (spaces n')
  end.

(** [SerializeJSONProperty] with the gap [gap] at the indentation [indent]. *)
Fixpoint serialize (gap indent : string) (v : json) : string :=
  let inner := indent +:+ gap in
  let wrap (opening closing : string) (items : list string) : string :=
    match items with
    | [] => opening +:+ closing
    | _ :: _ =>
        if String.eqb gap "" then opening +:+ join_with "," items +:+ closing
        else opening +:+ newline +:+ inner
             +:+ join_with ("," +:+ newline +:+ inner) items
             +:+ newline +:+ indent +:+ closing
    end in
  match v with
  | JNull => "null"
  | JBool true => "true"
  | JBool false => "false"
  | JNum n => NilZero.string_of_int (Z.to_int n)
  | JStr s => quote s
  | JArr l => wrap "[" "]" (map (serialize gap inner) l)
  | JObj ps =>
      wrap "{" "}"
        (map (fun p =>
                quote (fst p) +:+ (if String.eqb gap "" then ":" else ": ")
                +:+ serialize gap inner (snd p)) ps)
  end.

(** [JSON.stringify(v, null, space)] *)
Definition stringify (v : json) (space : nat) : string :=
  serialize (spaces (Nat.min space 10)) "" v.

Definition is_ws (c : ascii) : bool :=
  let n := nat_of_ascii c in
  (n =? 32)%nat || (n =? 9)%nat || (n =? 10)%nat || (n =? 13)%nat.

Fixpoint skip_ws (s : string) : string :=
  match s with
  | String c r => if is_ws c then skip_ws r else s
  | EmptyString => s
  end.

Definition unexpected : js_error := SyntaxError "Unexpected token in JSON".
Definition unexpected_end : js_error := SyntaxError "Unexpected end of JSON input".

Definition digit_value (c : ascii) : option Z :=
  let n := nat_of_ascii c in
  if (48 <=? n)%nat && (n <=? 57)%nat then Some (Z.of_nat (n - 48)) else None.

Fixpoint read_digits (acc : Z) (s : string) : Z * string :=
  match s with
  | String c r =>
      match digit_value c with
      | Some d => read_digits (10 * acc + d) r
      | None => (acc, s)
      end
  | EmptyString => (acc, s)
  end.

(** The numeral after an optional sign.  A fraction or an exponent leaves
    the integers. *)
Definition read_number (negative : bool) (s : string) : result (json * string) :=
  match s with
  | String c r =>
      match digit_value c with
      | Some d =>
          let '(n, rest) := if (d =? 0)%Z then (0%Z, r) else read_digits d r in
          match rest with
          | String c' _ =>
              if Ascii.eqb c' "."%char || Ascii.eqb c' "e"%char || Ascii.eqb c' "E"%char
              then Throw OutsideFragment
              else Ok (JNum (if negative then - n else n), rest)
          | EmptyString => Ok (JNum (if negative then - n else n), rest)
          end
      | None => Throw unexpected
      end
  | EmptyString => Throw unexpected_end
  end.

(** The characters of a string literal after its opening quote.  Escapes
    with [u] leave the fragment. *)
Fixpoint read_string (s : string) : result (string * string) :=
  match s with
  | EmptyString => Throw unexpected_end
  | String c r =>
      if Ascii.eqb c quote_char then Ok (EmptyString, r)
      else if (nat_of_ascii c <? 32)%nat then Throw unexpected
      else if Ascii.eqb c backslash then
        match r with
        | EmptyString => Throw unexpected_end
        | String e r' =>
            let continue (x : ascii) :=
              do p <- read_string r'; Ok (String x (fst p), snd p) in
            if Ascii.eqb e quote_char then continue quote_char
            else if Ascii.eqb e backslash then continue backslash
            else if Ascii.eqb e "/"%char then continue "/"%char
            else if Ascii.eqb e "b"%char then continue (ascii_of_nat 8)
            else if Ascii.eqb e "t"%char then continue (ascii_of_nat 9)
            else if Ascii.eqb e "n"%char then continue (ascii_of_nat 10)
            else if Ascii.eqb e "f"%char then continue (ascii_of_nat 12)
            else if Ascii.eqb e "r"%char then continue (ascii_of_nat 13)
            else if Ascii.eqb e "u"%char then Throw OutsideFragment
            else Throw unexpected
        end
      else do p <- read_string r; Ok (String c (fst p), snd p)
  end.

Fixpoint expect (word : string) (s : string) : option string :=
  match word, s with
  | EmptyString, _ => Some s
  | String a word', String b s' => if Ascii.eqb a b then expect word' s' else None
  | String _ _, EmptyString => None
  end.

(** The elements of an array after the first, up to the closing bracket. *)
Fixpoint read_elements (value : string -> result (json * string)) (fuel : nat)
    (s : string) : result (list json * string) :=
  match fuel with
  | O => Throw OutsideFragment
  | S fuel' =>
      match skip_ws s with
      | EmptyString => Throw unexpected_end
      | String c r =>
          if Ascii.eqb c "]"%char then Ok ([], r)
          else if Ascii.eqb c ","%char then
            do v <- value r;
            do more <- read_elements value fuel' (snd v);
            Ok (fst v :: fst more, snd more)
          else Throw unexpected
      end
  end.

(** One member [key : value] of an object. *)
Definition read_member (value : string -> result (json * string)) (s : string)
  : result ((string * json) * string) :=
  match skip_ws s with
  | EmptyString => Throw unexpected_end
  | String c r =>
      if Ascii.eqb c quote_char then
        do k <- read_string r;
        match skip_ws (snd k) with
        | EmptyString => Throw unexpected_end
        | String c' r' =>
            if Ascii.eqb c' ":"%char then
              do v <- value r';
              Ok ((fst k, fst v), snd v)
            else Throw unexpected
        end
      else Throw unexpected
  end.

(** The members of an object after the first, up to the closing brace. *)
Fixpoint read_members (value : string -> result (json * string)) (fuel : nat)
    (s : string) : result (list (string * json) * string) :=
  match fuel with
  | O => Throw OutsideFragment
  | S fuel' =>
      match skip_ws s with
      | EmptyString => Throw unexpected_end
      | String c r =>
          if Ascii.eqb c "}"%char then Ok ([], r)
          else if Ascii.eqb c ","%char then
            do m <- read_member value r;
            do more <- read_members value fuel' (snd m);
            Ok (fst m :: fst more, snd more)
          else Throw unexpected
      end
  end.

(** Properties are created in the order of the text: a repeated key keeps
    its first place and takes the last value. *)
Definition object_of (members : list (string * json)) : json :=
  JObj (fold_left (fun ps m => props_set (fst m) (snd m) ps) members []).

Fixpoint read_value (fuel : nat) (s : string) : result (json * string) :=
  match fuel with
  | O => Throw OutsideFragment
  | S fuel' =>
      match skip_ws s with
      | EmptyString => Throw unexpected_end
      | String c r =>
          if Ascii.eqb c "n"%char then
            match expect "ull" r with Some r' => Ok (JNull, r') | None => Throw unexpected end
          else if Ascii.eqb c "t"%char then
            match expect "rue" r with Some r' => Ok (JBool true, r') | None => Throw unexpected end
          else if Ascii.eqb c "f"%char then
            match expect "alse" r with Some r' => Ok (JBool false, r') | None => Throw unexpected end
          else if Ascii.eqb c quote_char then
            do p <- read_string r; Ok (JStr (fst p), snd p)
          else if Ascii.eqb c "-"%char then read_number true r
          else if Ascii.eqb c "["%char then
            match skip_ws r with
            | String c' r' =>
                if Ascii.eqb c' "]"%char then Ok (JArr [], r')
                else
                  do v <- read_value fuel' r;
                  do more <- read_elements (read_value fuel') fuel' (snd v);
                  Ok (JArr (fst v :: fst more), snd more)
            | EmptyString => Throw unexpected_end
            end
          else if Ascii.eqb c "{"%char then
            match skip_ws r with
            | String c' r' =>
                if Ascii.eqb c' "}"%char then Ok (JObj [], r')
                else
                  do m <- read_member (read_value fuel') r;
                  do more <- read_members (read_value fuel') fuel' (snd m);
                  Ok (object_of (fst m :: fst more), snd more)
            | EmptyString => Throw unexpected_end
            end
          else read_number false (String c r)
      end
  end.

(** [JSON.parse(text)] on the fragment: integers for numbers, no [u]
    escapes. *)
Definition parse (text : string) : result json :=
  do v <- read_value (S (String.length text)) text;
  match skip_ws (snd v) with
  | EmptyString => Ok (fst v)
  | String _ _ => Throw unexpected
  end.

End Json.

Module Prototypes.

(** The text of a built-in function, as V8 prints it. *)
Definition native (name : string) : string :=
  "function " +:+ name +:+ "() { [native code] }".

Definition methods (names : list string) : list (string * string) :=
  map (fun name => (name, native name)) names.

(** The members of a prototype that are reached by a name: its constructor,
    what the getter of [__proto__] gives for a value of the class, converted
    to a string, and its methods. *)
Definition members (constructor proto : string) (names : list string)
  : list (string * string) :=
  ("constructor", native constructor) :: ("__proto__", proto) :: methods names.

Definition of_Object : list (string * string) :=
  members "Object" "[object Object]"
    ["__defineGetter__"; "__defineSetter__"; "hasOwnProperty"; "__lookupGetter__";
     "__lookupSetter__"; "isPrototypeOf"; "propertyIsEnumerable"; "toString";
     "valueOf"; "toLocaleString"].

Definition of_Array : list (string * string) :=
  members "Array" ""
    ["at"; "concat"; "copyWithin"; "fill"; "find"; "findIndex"; "findLast";
     "findLastIndex"; "lastIndexOf"; "pop"; "push"; "reverse"; "shift"; "unshift";
     "slice"; "sort"; "splice"; "includes"; "indexOf"; "join"; "keys"; "entries";
     "values"; "forEach"; "filter"; "flat"; "flatMap"; "map"; "every"; "some";
     "reduce"; "reduceRight"; "toLocaleString"; "toString"; "toReversed";
     "toSorted"; "toSpliced"; "with"].

Definition of_String : list (string * string) :=
  members "String" ""
    ["anchor"; "at"; "big"; "blink"; "bold"; "charAt"; "charCodeAt"; "codePointAt";
     "concat"; "endsWith"; "fontcolor"; "fontsize"; "fixed"; "includes"; "indexOf";
     "isWellFormed"; "italics"; "lastIndexOf"; "link"; "localeCompare"; "match";
     "matchAll"; "normalize"; "padEnd"; "padStart"; "repeat"; "replace";
     "replaceAll"; "search"; "slice"; "small"; "split"; "strike"; "sub"; "substr";
     "substring"; "sup"; "startsWith"; "toString"; "toWellFormed"; "trim";
     "trimStart"; "trimEnd"; "toLocaleLowerCase"; "toLocaleUpperCase";
     "toLowerCase"; "toUpperCase"; "valueOf"]
  ++ [("trimLeft", native "trimStart"); ("trimRight", native "trimEnd")].

Definition of_Number : list (string * string) :=
  members "Number" "0"
    ["toExponential"; "toFixed"; "toPrecision"; "toString"; "valueOf";
     "toLocaleString"].

Definition of_Boolean : list (string * string) :=
  members "Boolean" "false" ["toString"; "valueOf"].

Fixpoint assoc (k : string) (l : list (string * string)) : option string :=
  match l with
  | [] => None
  | (k', text) :: r => if String.eqb k' k then Some text else assoc k r
  end.

(** The chain of a value: the prototype of its class, then
    [Object.prototype]. *)
Definition inherited (v : json) (k : string) : option string :=
  match v with
  | JNull => None
  | JObj _ => assoc k of_Object
  | JArr _ => assoc k (of_Array ++ of_Object)
  | JStr _ => assoc k (of_String ++ of_Object)
  | JNum _ => assoc k (of_Number ++ of_Object)
  | JBool _ => assoc k (of_Boolean ++ of_Object)
  end.

End Prototypes.

(** Node 20 with the POSIX [path] module and the working directory [/]. *)
#[export] Instance NodePosix : Platform := {|
  path_sep := Posix.slash;
  path_join := Posix.join;
  path_basename := Posix.basename;
  path_extname := Posix.extname;
  path_relative := Posix.relative "/";
  JSON_parse := Json.parse;
  JSON_stringify := Json.stringify;
  inherited := Prototypes.inherited
|}.

(* ================================================================= *)
(** ** Scenarios *)

(** A workspace at [root] whose configuration file holds [doc], written the
    way the extension writes it. *)
Definition workspace (root : string) (doc : json) : World :=
  {| fs := {[ contexts_json root := Regular (JSON_stringify doc 2) ]};
     workspaceFolder := Some root;
     notifications := [];
     inputBoxes := [];
     commands := [] |}.

(** A workspace at [root] without a configuration file. *)
Definition bare_workspace (root : string) : World :=
  {| fs := ∅;
     workspaceFolder := Some root;
     notifications := [];
     inputBoxes := [];
     commands := [] |}.

Definition document (contexts : list (string * json)) (notes : option json)
    (showFolders : bool) : json :=
  JObj ([("contexts", JObj contexts)]
        ++ match notes with Some n => [("notes", n)] | None => [] end
        ++ [("configs", JObj [("showFolders", JBool showFolders)])]).

(** One context with a path that has no extension, in flat mode. *)
Definition makefile_doc : json :=
  document [("A", JArr [JStr "src/a.ts"; JStr "Makefile"; JStr "src/b.ts"])] None false.

Definition provider_at (root : string) : TreeDataProvider :=
  {| workspaceRoot := root; _items := [] |}.

(** A second context whose value is a number instead of a list. *)
Definition broken_doc : json :=
  document [("A", JArr [JStr "a.ts"]); ("B", JNum 5)] None false.

(** A document without the [configs] object. *)
Definition headless_doc : json :=
  JObj [("contexts", JObj [("A", JArr [JStr "a.ts"])])].

(** A workspace whose configuration file holds the text [text]. *)
Definition workspace_text (root text : string) : World :=
  {| fs := {[ contexts_json root := Regular text ]};
     workspaceFolder := Some root;
     notifications := [];
     inputBoxes := [];
     commands := [] |}.

(** Two files with notes, in folder mode. *)
Definition noted_doc : json :=
  document [("A", JArr [JStr "x/y.ts"; JStr "x/z.ts"; JStr "b.ts"])]
    (Some (JObj [("x/y.ts", JStr "todo"); ("b.ts", JStr "keep")])) true.

(** A file item as the tree shows it for the path [p] below [/ws]. *)
Definition item_at (p : string) : TreeItem :=
  File ("/ws/" +:+ p) (path_basename p) ("/ws/" +:+ p +:+ "A") None None [].

(** [noted_doc] with the note [later] on [x/z.ts]. *)
Definition noted_doc_later : json :=
  document [("A", JArr [JStr "x/y.ts"; JStr "x/z.ts"; JStr "b.ts"])]
    (Some (JObj [("x/y.ts", JStr "todo"); ("b.ts", JStr "keep");
                 ("x/z.ts", JStr "later")])) true.

Definition props_of (v : json) : list (string * json) :=
  match v with
  | JObj ps => ps
  | _ => []
  end.

(** The scenario of the specification: two files of one folder. *)
Definition shared_folder_doc : json :=
  document [("A", JArr [JStr "x/y.ts"; JStr "x/z.ts"])] None true.

(** A stored path that is a proper prefix of the next one. *)
Definition prefix_doc : json :=
  document [("A", JArr [JStr "a"; JStr "a/b.ts"])] None true.

(** A stored path that is a proper prefix of the next two. *)
Definition prefix_of_two_doc : json :=
  document [("A", JArr [JStr "a"; JStr "a/b.ts"; JStr "a/c.ts"])] None true.




(** The manifest of a package at version 1.2.3. *)
Definition package_doc : json :=
  JObj [("name", JStr "context-organizer"); ("version", JStr "1.2.3");
        ("main", JStr "./out/extension.js")].

(** A checkout at [/repo] whose [package.json] holds [doc]; the script is
    in [/repo/scripts]. *)
Definition checkout (doc : json) : World :=
  {| fs := {[ "/repo/package.json" := Regular (JSON_stringify doc 2) ]};
     workspaceFolder := None;
     notifications := [];
     inputBoxes := [];
     commands := [] |}.

(** A workspace whose configuration file holds [doc] and cannot be
    written. *)
Definition readonly_workspace (root : string) (doc : json) : World :=
  {| fs := {[ contexts_json root := ReadOnly (JSON_stringify doc 2) ]};
     workspaceFolder := Some root;
     notifications := [];
     inputBoxes := [];
     commands := [] |}.

(** [noted_doc] in flat mode. *)
Definition noted_flat_doc : json :=
  document [("A", JArr [JStr "x/y.ts"; JStr "x/z.ts"; JStr "b.ts"])]
    (Some (JObj [("x/y.ts", JStr "todo"); ("b.ts", JStr "keep")])) false.

(* ================================================================= *)
(** ** Vocabulary of the statements *)

(** A [contexts] object as the data model has it: names with lists of
    paths. *)
Definition typed_contexts (ctxs : list (string * list string)) : list (string * json) :=
  map (fun c => (fst c, JArr (map JStr (snd c)))) ctxs.

(** The order of versions: by major, then minor, then patch number. *)
Definition version_lt (a b : Version) : Prop :=
  (major a < major b)%N
  \/ (major a = major b /\ (minor a < minor b)%N)
  \/ (major a = major b /\ minor a = minor b /\ (patch a < patch b)%N).

Section Vocabulary.
Context {platform : Platform}.

(** [path.extname(p)] is truthy. *)
Definition has_extension (p : string) : bool :=
  negb (String.eqb (path_extname p) "").

(** The absolute path [addToTree] builds for a stored path. *)
Definition absolute (root p : string) : string :=
  path_join (root :: split path_sep p).

(** The node [addToTree] creates for the stored path [p] of [contextName]. *)
Definition file_node (config : json) (showFolders : option json)
    (root contextName p : string) : TreeItem :=
  File_fields config showFolders root (absolute root p) contextName.

(** The paths of every context that have an extension. *)
Definition with_extension (ctxs : list (string * list string))
  : list (string * list string) :=
  map (fun c => (fst c, List.filter has_extension (snd c))) ctxs.

(** The root list has one [Section] per context, in order, and a section
    has one [File] per path of its context, in order, and nothing else. *)
Definition one_file_per_entry (root : string) (ctxs : list (string * list string))
    (items : list TreeItem) : Prop :=
  Forall2
    (fun c s =>
       s = Section (fst c) (children s)
       /\ Forall2
            (fun p f =>
               is_File f = true
               /\ filePath_of f = Some (JStr (absolute root p))
               /\ children f = [])
            (snd c) (children s))
    ctxs items.

(** The world after the two error messages of the [catch] in [loadConfig]. *)
Definition after_load_error (e : js_error) (configPath : string) (w : World) : World :=
  showMessage Error (detailed_error e configPath)
    (showMessage Error (generic_error configPath) w).

(** [config.contexts] of the document on disk, if it can be read. *)
Definition contexts_on_disk (w : World) (configPath : string) : option json :=
  match read_config w configPath with
  | Ok config => get_prop config "contexts"
  | Throw _ => None
  end.

(** The entry of [k] in [config.notes], an own property, when there is a
    [notes] member. *)
Definition note_entry (config : json) (k : string) : option json :=
  match get_prop config "notes" with
  | Some notes => get_prop notes k
  | None => None
  end.


(** What the command does to the document between reading and writing. *)
Definition updated_config (config : json) (relativePath note : string) : result json :=
  do config1 <- init_notes config;
  apply_note config1 relativePath note.

(** The world after a successful run of the command that wrote [config2]. *)
Definition after_note (root : string) (existingNote : json) (relativePath note : string)
    (config2 : json) (w : World) : World :=
  {| fs := <[contexts_json root := Regular (JSON_stringify config2 2)]> (fs w);
     workspaceFolder := workspaceFolder w;
     notifications :=
       notifications w
       ++ [(Information, if String.eqb note "" then "Note removed" else "Note saved")];
     inputBoxes :=
       inputBoxes w
       ++ [{| prompt := "Add note for " +:+ path_basename relativePath;
              placeHolder := "Enter your note here...";
              value := existingNote;
              ignoreFocusOut := true |}];
     commands := commands w ++ [refresh_command] |}.

(** [Q] holds of every item of the forest [l], at any depth. *)
Inductive every_item (Q : TreeItem -> Prop) : list TreeItem -> Prop :=
| every_item_nil : every_item Q []
| every_item_cons (it : TreeItem) (l : list TreeItem) :
    Q it -> every_item Q (children it) -> every_item Q l -> every_item Q (it :: l).

(** The labels of the folders among the siblings [l]. *)
Definition folder_labels (l : list TreeItem) : list string :=
  map label (List.filter is_Folder l).

(** No two folders with the same label under the same parent, at any depth
    of the forest [l]. *)
Inductive distinct_folders : list TreeItem -> Prop :=
| distinct_folders_level (l : list TreeItem) :
    NoDup (folder_labels l) ->
    (forall it, In it l -> distinct_folders (children it)) ->
    distinct_folders l.

(** [item.label === d] *)
Definition by_label (d : string) (it : TreeItem) : bool := String.eqb (label it) d.

(** The level reached from [level] by the segments [dirs], taking at each
    one the first item with that label, as [addToTree] does. *)
Fixpoint locate (dirs : list string) (level : list TreeItem) : option (list TreeItem) :=
  match dirs with
  | [] => Some level
  | d :: dirs' =>
      match List.find (by_label d) level with
      | Some it => locate dirs' (children it)
      | None => None
      end
  end.

(** The description the constructor of [File] computes for the absolute
    path [fp], in a workspace folder [folder] whose document is [config]. *)
Definition described (config : json) (showFolders : option json) (folder : string)
    (it : TreeItem) : Prop :=
  forall fp, filePath_of it = Some (JStr fp) ->
    description_of it
    = (if negb (truthy showFolders) then penultimate (split path_sep fp)
       else if truthy_value (note_of config (path_relative folder fp))
       then Some note_glyph
       else None).

(** The item stands for the last segment [leaf] of a stored path whose
    absolute path is [fp]: it has that label, or it is the file. *)
Definition stands_for (leaf fp : string) (it : TreeItem) : Prop :=
  label it = leaf \/ filePath_of it = Some (JStr fp).

(** Below the level [shared], the segments [rest] lead to a level that
    holds an item for the last segment of the stored path [p]. *)
Definition placed_below (root p : string) (rest : list string)
    (shared : list TreeItem) : Prop :=
  exists lvl,
    locate rest shared = Some lvl
    /\ Exists (stands_for (List.last (split path_sep p) "") (absolute root p)) lvl.

(** The stored path [p] has its place in the forest [level]: the segments
    before the last lead to a level that holds an item for the last one. *)
Definition represented (root p : string) (level : list TreeItem) : Prop :=
  placed_below root p (removelast (split path_sep p)) level.

(** Two stored paths go through the same items for the leading segments
    they have in common: whenever [pre] starts the folders of both, one
    level is reached by [pre], and both paths are placed below it. *)
Definition share_folders (root p q : string) (level : list TreeItem) : Prop :=
  forall pre restp restq,
    removelast (split path_sep p) = pre ++ restp ->
    removelast (split path_sep q) = pre ++ restq ->
    exists shared,
      locate pre level = Some shared
      /\ placed_below root p restp shared
      /\ placed_below root q restq shared.

(** The file items of the forest have no children. *)
Definition leaf_files (level : list TreeItem) : Prop :=
  every_item (fun it => is_File it = true -> children it = []) level.

(** The segments [dirs] lead from [level] through folders: at each segment
    the first item with that label is a [Folder]. *)
Fixpoint through_folders (dirs : list string) (level : list TreeItem) : Prop :=
  match dirs with
  | [] => True
  | d :: dirs' =>
      match List.find (by_label d) level with
      | Some it => is_Folder it = true /\ through_folders dirs' (children it)
      | None => False
      end
  end.


(** The tooltip of a file at [fp] with the note [note]. *)
Definition hover_text (fp note : string) : string :=
  path_basename fp +:+ newline +:+ newline +:+ note_glyph +:+ " Note: " +:+ note.

(** The tooltip the constructor of [File] sets for the absolute path [fp],
    in a workspace folder [folder] whose document is [config]. *)
Definition hovered (config : json) (folder : string) (it : TreeItem) : Prop :=
  forall fp, filePath_of it = Some (JStr fp) ->
    tooltip_of it
    = (let note := note_of config (path_relative folder fp) in
       if truthy_value note
       then option_map (fun n => hover_text fp (value_text n)) note
       else None).

(** The input box of the command for the relative path [rel], with
    [existingNote] filled in. *)
Definition note_box (rel : string) (existingNote : json) : InputBoxOptions :=
  {| prompt := "Add note for " +:+ path_basename rel;
     placeHolder := "Enter your note here...";
     value := existingNote;
     ignoreFocusOut := true |}.

(** An item labelled [leaf] is at the level the segments [dirs] lead to. *)
Definition present (dirs : list string) (leaf : string) (level : list TreeItem) : Prop :=
  exists lvl, locate dirs level = Some lvl /\ has_label leaf lvl = true.

End Vocabulary.


(* ================================================================= *)
(** ** Basic facts *)

Section Facts.
Context {platform : Platform}.

Lemma read_config_exists (w : World) (p : string) (config : json) :
  read_config w p = Ok config -> existsSync w p = true.
Proof.
  unfold read_config, readFileSync, existsSync, bind.
  destruct (fs w !! p) as [e|] eqn:E; [|discriminate].
  intros _. apply bool_decide_eq_true. eauto.
Qed.

Lemma absent_not_exists (w : World) (p : string) :
  fs w !! p = None -> existsSync w p = false.
Proof.
  intros E. unfold existsSync. apply bool_decide_eq_false.
  rewrite E. intros [x Hx]. discriminate.
Qed.

End Facts.

(* ================================================================= *)
(** ** Loading when the configuration file is absent *)

Section Absent.
Context {platform : Platform}.

(** C7.  When no file exists at [<root>/.vscode/contexts.json], [loadConfig]
    leaves an empty root list and shows one warning; the world is otherwise
    the same, in particular the file system is untouched and the file is not
    created. *)
Theorem loadConfig_absent (this : TreeDataProvider) (w : World) :
  fs w !! contexts_json (workspaceRoot this) = None ->
  let '(this', w') := loadConfig this w in
  _items this' = []
  /\ notifications w' = notifications w ++ [(Warning, not_found_warning)]
  /\ fs w' = fs w
  /\ fs w' !! contexts_json (workspaceRoot this) = None
  /\ commands w' = commands w
  /\ inputBoxes w' = inputBoxes w.
Proof.
  intros Habs. unfold loadConfig.
  rewrite (absent_not_exists _ _ Habs). simpl. auto 10.
Qed.

End Absent.

Lemma loadConfig_absent_witness :
  fs (bare_workspace "/ws") !! contexts_json "/ws" = None
  /\ _items (fst (loadConfig {| workspaceRoot := "/ws"; _items := [] |}
                              (bare_workspace "/ws"))) = [].
Proof.
  split; [reflexivity|].
  pose proof (loadConfig_absent {| workspaceRoot := "/ws"; _items := [] |}
                (bare_workspace "/ws") eq_refl) as H.
  destruct (loadConfig _ _) as [t w']. exact (proj1 H).
Defined.

(* ================================================================= *)
(** ** The add-note command *)

Section Cancel.
Context {platform : Platform}.

(** C5.  When the input box is dismissed ([answer = None]) the command
    writes nothing and runs no command: the file system after the call is
    the file system before it, whatever the world and the item.  If the
    input box was opened at all, nothing else changed either: no message
    was shown and the promise resolves. *)
Theorem cancel_changes_nothing (w : World) (fileItem : TreeItem) :
  let '(w', c) := addNoteToFileCommand w fileItem None in
  fs w' = fs w
  /\ commands w' = commands w
  /\ workspaceFolder w' = workspaceFolder w
  /\ (inputBoxes w' = inputBoxes w
      \/ (exists o, inputBoxes w' = inputBoxes w ++ [o])
         /\ notifications w' = notifications w /\ c = Resolved).
Proof.
  unfold addNoteToFileCommand.
  destruct (workspaceFolder w) as [[|a root]|] eqn:Hroot; simpl; auto.
  destruct (existsSync w _); simpl; auto.
  destruct (as_string (filePath_of fileItem)) as [absolutePath|e]; simpl; auto.
  destruct (read_config w _) as [config|e]; simpl; auto.
  destruct (init_notes config) as [config1|e]; simpl; auto.
  destruct (existing_note config1 _) as [existingNote|e]; simpl; auto.
  repeat split; auto. right. eauto.
Qed.

End Cancel.

(* ================================================================= *)
(** ** Loading a well-formed document *)

Section Load.
Context {platform : Platform}.

Lemma new_File_ok (w : World) (root : string) (config : json) (sf : option json)
    (filePath contextName : string) :
  workspaceFolder w = Some root ->
  read_config w (contexts_json root) = Ok config ->
  showFolders_of config = Ok sf ->
  new_File w filePath contextName
  = Ok (File_fields config sf root filePath contextName).
Proof.
  intros Hws Hcfg Hsf. unfold new_File, workspaceFolder_or_empty.
  rewrite Hws, Hcfg. simpl. rewrite Hsf. reflexivity.
Qed.

Lemma addToTree_flat (w : World) (root : string) (config : json) (sf : option json)
    (parent : list TreeItem) (p contextName : string) :
  workspaceFolder w = Some root ->
  read_config w (contexts_json root) = Ok config ->
  showFolders_of config = Ok sf ->
  truthy sf = false ->
  addToTree w root parent (Some (JStr p)) contextName
  = Ok (parent ++ [file_node config sf root contextName p]).
Proof.
  intros Hws Hcfg Hsf Hflat. unfold addToTree. simpl.
  rewrite Hcfg. simpl. rewrite Hsf. simpl. rewrite Hflat.
  rewrite (new_File_ok _ _ _ _ _ _ Hws Hcfg Hsf). reflexivity.
Qed.

Lemma add_paths_flat (w : World) (root : string) (config : json) (sf : option json)
    (contextName : string) (ps : list string) (acc : list TreeItem) :
  workspaceFolder w = Some root ->
  read_config w (contexts_json root) = Ok config ->
  showFolders_of config = Ok sf ->
  truthy sf = false ->
  add_paths w root sf contextName (map JStr ps) acc
  = Ok (acc ++ map (file_node config sf root contextName)
                   (List.filter has_extension ps)).
Proof.
  intros Hws Hcfg Hsf Hflat. revert acc.
  induction ps as [|p ps IH]; intros acc; simpl.
  - now rewrite app_nil_r.
  - unfold shown. rewrite Hflat. simpl. fold (has_extension p).
    destruct (has_extension p); simpl.
    + rewrite (addToTree_flat _ _ _ _ _ _ _ Hws Hcfg Hsf Hflat). simpl.
      rewrite IH, <- app_assoc. reflexivity.
    + apply IH.
Qed.

Lemma props_get_In (k : string) (v : json) (ps : list (string * json)) :
  NoDup (map fst ps) -> In (k, v) ps -> props_get k ps = Some v.
Proof.
  induction ps as [|[k' v'] ps IH]; simpl; intros Hnd Hin; [contradiction|].
  apply NoDup_cons in Hnd as [Hk' Hnd].
  destruct Hin as [Heq|Hin].
  - injection Heq as -> ->. now rewrite String.eqb_refl.
  - destruct (String.eqb_spec k' k) as [->|Hne]; [|auto].
    exfalso. apply Hk'. apply list_elem_of_In.
    change k with (fst (k, v)). now apply in_map.
Qed.

Lemma typed_contexts_keys (ctxs : list (string * list string)) :
  map fst (typed_contexts ctxs) = map fst ctxs.
Proof. unfold typed_contexts. rewrite map_map. reflexivity. Qed.

(** The outer loop, when every remaining section can be built. *)
Lemma add_sections_built (w : World) (root : string) (sf : option json)
    (contexts : list (string * json))
    (build : string * list string -> list TreeItem)
    (todo : list (string * list string)) (items : list TreeItem) :
  (forall c, In c todo ->
     props_get (fst c) contexts = Some (JArr (map JStr (snd c)))
     /\ add_paths w root sf (fst c) (map JStr (snd c)) [] = Ok (build c)) ->
  add_sections w root sf (Some (JObj contexts)) (map fst todo) items
  = (items ++ map (fun c => Section (fst c) (build c)) todo, None).
Proof.
  revert items. induction todo as [|c todo IH]; intros items Hall; simpl.
  - now rewrite app_nil_r.
  - destruct (Hall c (or_introl eq_refl)) as [Hget Hadd].
    rewrite Hget. simpl. rewrite Hadd.
    rewrite IH by (intros c' Hc'; apply Hall; now right).
    now rewrite <- app_assoc.
Qed.

Lemma typed_contexts_get (ctxs : list (string * list string)) (c : string * list string) :
  NoDup (map fst ctxs) -> In c ctxs ->
  props_get (fst c) (typed_contexts ctxs) = Some (JArr (map JStr (snd c))).
Proof.
  intros Hnd Hin. apply props_get_In.
  - now rewrite typed_contexts_keys.
  - unfold typed_contexts.
    apply (in_map (fun c => (fst c, JArr (map JStr (snd c))))) in Hin. exact Hin.
Qed.

(** Loading, when every section can be built. *)
Lemma loadConfig_built (this : TreeDataProvider) (w : World) (config : json)
    (sf : option json) (ctxs : list (string * list string))
    (build : string * list string -> list TreeItem) :
  read_config w (contexts_json (workspaceRoot this)) = Ok config ->
  showFolders_of config = Ok sf ->
  get_prop config "contexts" = Some (JObj (typed_contexts ctxs)) ->
  NoDup (map fst ctxs) ->
  (forall c, In c ctxs ->
     add_paths w (workspaceRoot this) sf (fst c) (map JStr (snd c)) [] = Ok (build c)) ->
  loadConfig this w
  = ({| workspaceRoot := workspaceRoot this;
        _items := map (fun c => Section (fst c) (build c)) ctxs |}, w).
Proof.
  intros Hcfg Hsf Hctx Hnd Hbuild. unfold loadConfig.
  rewrite (read_config_exists _ _ _ Hcfg).
  unfold handleLoadConfig. rewrite Hcfg, Hsf, Hctx.
  unfold own_keys. rewrite typed_contexts_keys.
  rewrite (add_sections_built w _ sf _ build).
  - reflexivity.
  - intros c Hc. split; [now apply typed_contexts_get | now apply Hbuild].
Qed.

(** C1, as the code has it.  With [showFolders] false (or anything falsy),
    a document whose contexts are lists of paths loads without error into
    one [Section] per context, in the order of the document.  A section
    holds one [File] per path that has an extension, in the order of the
    list, and no [Folder]; a path without extension gets no node. *)
Theorem flat_tree (this : TreeDataProvider) (w : World) (config : json)
    (sf : option json) (ctxs : list (string * list string)) :
  workspaceFolder w = Some (workspaceRoot this) ->
  read_config w (contexts_json (workspaceRoot this)) = Ok config ->
  showFolders_of config = Ok sf ->
  truthy sf = false ->
  get_prop config "contexts" = Some (JObj (typed_contexts ctxs)) ->
  NoDup (map fst ctxs) ->
  loadConfig this w
  = ({| workspaceRoot := workspaceRoot this;
        _items :=
          map (fun c =>
                 Section (fst c)
                   (map (file_node config sf (workspaceRoot this) (fst c))
                        (List.filter has_extension (snd c))))
              ctxs |}, w)
  /\ one_file_per_entry (workspaceRoot this) (with_extension ctxs)
       (_items (fst (loadConfig this w))).
Proof.
  intros Hws Hcfg Hsf Hflat Hctx Hnd.
  assert (Hload : loadConfig this w
    = ({| workspaceRoot := workspaceRoot this;
          _items :=
            map (fun c =>
                   Section (fst c)
                     (map (file_node config sf (workspaceRoot this) (fst c))
                          (List.filter has_extension (snd c))))
                ctxs |}, w)).
  { apply (loadConfig_built this w config sf ctxs
             (fun c => map (file_node config sf (workspaceRoot this) (fst c))
                           (List.filter has_extension (snd c))));
      auto.
    intros c _. rewrite (add_paths_flat _ _ _ _ _ _ _ Hws Hcfg Hsf Hflat).
    reflexivity. }
  split; [exact Hload|].
  rewrite Hload. simpl. unfold one_file_per_entry, with_extension.
  clear. induction ctxs as [|c ctxs IH]; simpl; constructor; auto.
  simpl. split; [reflexivity|].
  induction (List.filter has_extension (snd c)) as [|p ps IHp]; simpl;
    constructor; auto.
Qed.

End Load.

Lemma flat_tree_witness :
  workspaceFolder (workspace "/ws" makefile_doc) = Some "/ws"
  /\ read_config (workspace "/ws" makefile_doc) (contexts_json "/ws") = Ok makefile_doc
  /\ showFolders_of makefile_doc = Ok (Some (JBool false))
  /\ get_prop makefile_doc "contexts"
     = Some (JObj (typed_contexts [("A", ["src/a.ts"; "Makefile"; "src/b.ts"])]))
  /\ one_file_per_entry "/ws" [("A", ["src/a.ts"; "src/b.ts"])]
       (_items (fst (loadConfig (provider_at "/ws") (workspace "/ws" makefile_doc)))).
Proof.
  assert (H1 : read_config (workspace "/ws" makefile_doc) (contexts_json "/ws")
               = Ok makefile_doc) by (vm_compute; reflexivity).
  repeat split; try reflexivity; try exact H1.
  refine (proj2 (flat_tree (provider_at "/ws") (workspace "/ws" makefile_doc)
                   makefile_doc (Some (JBool false))
                   [("A", ["src/a.ts"; "Makefile"; "src/b.ts"])]
                   eq_refl H1 eq_refl eq_refl eq_refl _)).
  apply (bool_decide_unpack _). vm_compute. exact I.
Defined.

(** C1 as stated fails: the path [Makefile] of context [A] has no node, so
    the section does not hold one [File] per path of the list. *)
Lemma extensionless_paths_skipped :
  showFolders_of makefile_doc = Ok (Some (JBool false))
  /\ _items (fst (loadConfig (provider_at "/ws") (workspace "/ws" makefile_doc)))
     = [Section "A"
          [File "/ws/src/a.ts" "a.ts" "/ws/src/a.tsA" None (Some "src") [];
           File "/ws/src/b.ts" "b.ts" "/ws/src/b.tsA" None (Some "src") []]]
  /\ ~ one_file_per_entry "/ws" [("A", ["src/a.ts"; "Makefile"; "src/b.ts"])]
         (_items (fst (loadConfig (provider_at "/ws") (workspace "/ws" makefile_doc)))).
Proof.
  assert (E : _items (fst (loadConfig (provider_at "/ws") (workspace "/ws" makefile_doc)))
     = [Section "A"
          [File "/ws/src/a.ts" "a.ts" "/ws/src/a.tsA" None (Some "src") [];
           File "/ws/src/b.ts" "b.ts" "/ws/src/b.tsA" None (Some "src") []]])
    by (vm_compute; reflexivity).
  split; [reflexivity|]. split; [exact E|].
  rewrite E. unfold one_file_per_entry. intros H.
  apply Forall2_cons_1 in H as [[_ H] _]. simpl in H.
  apply Forall2_length in H. simpl in H. discriminate.
Qed.

(* ================================================================= *)
(** ** Loading a malformed document *)

Section LoadError.
Context {platform : Platform}.

Lemma add_sections_grows (w : World) (root : string) (sf contexts : option json)
    (names : list string) (items items' : list TreeItem) (r : option js_error) :
  add_sections w root sf contexts names items = (items', r) ->
  exists done,
    items' = items ++ done
    /\ map label done `prefix_of` names
    /\ Forall (fun s => s = Section (label s) (children s)) done.
Proof.
  revert items. induction names as [|n names IH]; simpl; intros items H.
  - injection H as <- <-. exists []. rewrite app_nil_r. split; [reflexivity|].
    split; [apply prefix_nil | constructor].
  - destruct (do paths <- _; _) as [sectionItems|e] in H.
    + apply IH in H as (done & -> & Hpre & Hsec).
      exists (Section n sectionItems :: done).
      rewrite <- app_assoc. split; [reflexivity|]. split.
      * simpl. now apply prefix_cons.
      * constructor; [reflexivity | exact Hsec].
    + injection H as <- <-. exists []. rewrite app_nil_r. split; [reflexivity|].
      split; [apply prefix_nil | constructor].
Qed.

(** C3, as the code has it.  When the configuration file exists, an error
    raised while the tree is built never leaves [loadConfig]: the call
    returns, two error messages are shown (the second one carries the
    parser's message for a syntax error) and the file system is as before.
    The root list is empty when the content cannot be read or is not JSON,
    and when the document is [null] or has no [configs] object.  For an
    error raised later, the labels of the root list are a prefix of the
    context names of the document. *)
Theorem load_error_caught (this : TreeDataProvider) (w : World) :
  let root := workspaceRoot this in
  let configPath := contexts_json root in
  existsSync w configPath = true ->
  (forall e, read_config w configPath = Throw e ->
     loadConfig this w
     = ({| workspaceRoot := root; _items := [] |}, after_load_error e configPath w))
  /\ (forall config, read_config w configPath = Ok config ->
        config = JNull \/ get_prop config "configs" = None
        \/ get_prop config "configs" = Some JNull ->
        loadConfig this w
        = ({| workspaceRoot := root; _items := [] |},
           after_load_error TypeError configPath w))
  /\ (forall items e, handleLoadConfig w root configPath [] = (items, Some e) ->
        loadConfig this w
        = ({| workspaceRoot := root; _items := items |},
           after_load_error e configPath w)
        /\ fs (snd (loadConfig this w)) = fs w
        /\ map label items `prefix_of` own_keys (contexts_on_disk w configPath)).
Proof.
  intros root configPath Hex. subst root configPath.
  split; [|split].
  - intros e He. unfold loadConfig, handleLoadConfig. rewrite Hex, He. reflexivity.
  - intros config Hcfg Hshape. unfold loadConfig, handleLoadConfig. rewrite Hex, Hcfg.
    assert (Hsf : showFolders_of config = Throw TypeError).
    { unfold showFolders_of.
      destruct Hshape as [-> | [H | H]]; [reflexivity | |].
      - destruct config; try discriminate; simpl in *; rewrite ?H; reflexivity.
      - destruct config; try discriminate; simpl in *; rewrite ?H; reflexivity. }
    rewrite Hsf. reflexivity.
  - intros items e Hh. unfold loadConfig. rewrite Hex, Hh.
    split; [reflexivity|]. split; [reflexivity|].
    unfold handleLoadConfig, contexts_on_disk in *.
    destruct (read_config w _) as [config|e0].
    + destruct (showFolders_of config) as [sf|e1].
      * apply add_sections_grows in Hh as (done & -> & Hpre & _). exact Hpre.
      * injection Hh as <- <-. apply prefix_nil.
    + injection Hh as <- <-. apply prefix_nil.
Qed.

End LoadError.

Lemma load_error_caught_witness :
  existsSync (workspace_text "/ws" "{ not json") (contexts_json "/ws") = true
  /\ read_config (workspace_text "/ws" "{ not json") (contexts_json "/ws")
     = Throw (SyntaxError "Unexpected token in JSON")
  /\ loadConfig (provider_at "/ws") (workspace_text "/ws" "{ not json")
     = ({| workspaceRoot := "/ws"; _items := [] |},
        after_load_error (SyntaxError "Unexpected token in JSON") (contexts_json "/ws")
          (workspace_text "/ws" "{ not json"))
  /\ read_config (workspace "/ws" headless_doc) (contexts_json "/ws") = Ok headless_doc
  /\ get_prop headless_doc "configs" = None
  /\ loadConfig (provider_at "/ws") (workspace "/ws" headless_doc)
     = ({| workspaceRoot := "/ws"; _items := [] |},
        after_load_error TypeError (contexts_json "/ws") (workspace "/ws" headless_doc)).
Proof.
  assert (H1 : read_config (workspace_text "/ws" "{ not json") (contexts_json "/ws")
               = Throw (SyntaxError "Unexpected token in JSON"))
    by (vm_compute; reflexivity).
  assert (H2 : read_config (workspace "/ws" headless_doc) (contexts_json "/ws")
               = Ok headless_doc) by (vm_compute; reflexivity).
  split; [reflexivity|]. split; [exact H1|]. split.
  - exact (proj1 (load_error_caught (provider_at "/ws")
                    (workspace_text "/ws" "{ not json") eq_refl) _ H1).
  - split; [exact H2|]. split; [reflexivity|].
    exact (proj1 (proj2 (load_error_caught (provider_at "/ws")
                           (workspace "/ws" headless_doc) eq_refl))
             _ H2 (or_intror (or_introl eq_refl))).
Defined.

(** C3 as stated fails: the document is malformed in its second context,
    the error is caught and reported, and the root list still holds the
    section of the first context. *)
Lemma load_error_keeps_earlier_sections :
  let loaded := loadConfig (provider_at "/ws") (workspace "/ws" broken_doc) in
  read_config (workspace "/ws" broken_doc) (contexts_json "/ws") = Ok broken_doc
  /\ notifications (snd loaded)
     = [(Error, "Error while reading file /ws/.vscode/contexts.json, check your file");
        (Error, "Error while reading file /ws/.vscode/contexts.json, check your file")]
  /\ _items (fst loaded)
     = [Section "A" [File "/ws/a.ts" "a.ts" "/ws/a.tsA" None (Some "ws") []]]
  /\ _items (fst loaded) <> [].
Proof.
  assert (E : _items (fst (loadConfig (provider_at "/ws") (workspace "/ws" broken_doc)))
     = [Section "A" [File "/ws/a.ts" "a.ts" "/ws/a.tsA" None (Some "ws") []]])
    by (vm_compute; reflexivity).
  simpl. split; [vm_compute; reflexivity|]. split; [vm_compute; reflexivity|].
  split; [exact E|]. rewrite E. discriminate.
Qed.

(* ================================================================= *)
(** ** Property lists *)

Section Props.

Lemma has_key_get (k : string) (ps : list (string * json)) :
  has_key k ps = true <-> props_get k ps <> None.
Proof.
  induction ps as [|[k' v'] ps IH]; simpl.
  - split; [discriminate | congruence].
  - destruct (String.eqb k' k); simpl; [split; [discriminate | reflexivity] | exact IH].
Qed.

Lemma has_key_false (k : string) (ps : list (string * json)) :
  has_key k ps = false <-> props_get k ps = None.
Proof.
  induction ps as [|[k' v'] ps IH]; simpl.
  - split; reflexivity.
  - destruct (String.eqb k' k); simpl; [split; discriminate | exact IH].
Qed.

Lemma get_replace_same (k : string) (v : json) (ps : list (string * json)) :
  has_key k ps = true -> props_get k (props_replace k v ps) = Some v.
Proof.
  induction ps as [|[k' v'] ps IH]; simpl; [discriminate|].
  destruct (String.eqb k' k) eqn:E; simpl; rewrite E; auto.
Qed.

Lemma get_replace_other (k k' : string) (v : json) (ps : list (string * json)) :
  k <> k' -> props_get k' (props_replace k v ps) = props_get k' ps.
Proof.
  intros Hne. induction ps as [|[k0 v0] ps IH]; simpl; [reflexivity|].
  destruct (String.eqb_spec k0 k) as [->|Hk]; simpl.
  - apply String.eqb_neq in Hne. now rewrite Hne.
  - now rewrite IH.
Qed.

Lemma replace_id (k : string) (v : json) (ps : list (string * json)) :
  props_get k ps = Some v -> props_replace k v ps = ps.
Proof.
  induction ps as [|[k' v'] ps IH]; simpl; [reflexivity|].
  destruct (String.eqb k' k); intros H.
  - now injection H as ->.
  - now rewrite IH.
Qed.

Lemma get_insert_index_same (n : N) (k : string) (v : json) (ps : list (string * json)) :
  has_key k ps = false -> props_get k (props_insert_index n k v ps) = Some v.
Proof.
  induction ps as [|[k' v'] ps IH]; simpl; intros H.
  - now rewrite String.eqb_refl.
  - apply orb_false_elim in H as [Hk Hps].
    destruct (array_index k') as [m|]; [destruct (m <? n)%N|]; simpl;
      rewrite ?Hk, ?String.eqb_refl; auto.
Qed.

Lemma get_insert_index_other (n : N) (k k' : string) (v : json)
    (ps : list (string * json)) :
  k <> k' -> props_get k' (props_insert_index n k v ps) = props_get k' ps.
Proof.
  intros Hne. apply String.eqb_neq in Hne.
  induction ps as [|[k0 v0] ps IH]; simpl.
  - now rewrite Hne.
  - destruct (array_index k0) as [m|]; [destruct (m <? n)%N|]; simpl;
      rewrite ?Hne, ?IH; reflexivity.
Qed.

Lemma get_app (k : string) (ps qs : list (string * json)) :
  props_get k (ps ++ qs)
  = match props_get k ps with Some v => Some v | None => props_get k qs end.
Proof.
  induction ps as [|[k' v'] ps IH]; simpl; [reflexivity|].
  destruct (String.eqb k' k); auto.
Qed.

Lemma get_set_same (k : string) (v : json) (ps : list (string * json)) :
  props_get k (props_set k v ps) = Some v.
Proof.
  unfold props_set. destruct (has_key k ps) eqn:E.
  - now apply get_replace_same.
  - destruct (array_index k) as [n|].
    + now apply get_insert_index_same.
    + rewrite get_app. apply has_key_false in E. rewrite E. simpl.
      now rewrite String.eqb_refl.
Qed.

Lemma get_set_other (k k' : string) (v : json) (ps : list (string * json)) :
  k <> k' -> props_get k' (props_set k v ps) = props_get k' ps.
Proof.
  intros Hne. unfold props_set. destruct (has_key k ps).
  - now apply get_replace_other.
  - destruct (array_index k) as [n|].
    + now apply get_insert_index_other.
    + rewrite get_app. destruct (props_get k' ps); [reflexivity|].
      simpl. apply String.eqb_neq in Hne. now rewrite Hne.
Qed.

Lemma set_id (k : string) (v : json) (ps : list (string * json)) :
  props_get k ps = Some v -> props_set k v ps = ps.
Proof.
  intros H. unfold props_set.
  assert (E : has_key k ps = true) by (apply has_key_get; congruence).
  rewrite E. now apply replace_id.
Qed.

Lemma get_delete_same (k : string) (ps : list (string * json)) :
  props_get k (props_delete k ps) = None.
Proof.
  unfold props_delete. induction ps as [|[k' v'] ps IH]; simpl; [reflexivity|].
  destruct (String.eqb k' k) eqn:E; simpl; [exact IH|]. now rewrite E.
Qed.

Lemma get_delete_other (k k' : string) (ps : list (string * json)) :
  k <> k' -> props_get k' (props_delete k ps) = props_get k' ps.
Proof.
  intros Hne. unfold props_delete.
  induction ps as [|[k0 v0] ps IH]; simpl; [reflexivity|].
  destruct (String.eqb_spec k0 k) as [->|Hk]; simpl.
  - apply String.eqb_neq in Hne. now rewrite Hne.
  - now rewrite IH.
Qed.

Lemma delete_id (k : string) (ps : list (string * json)) :
  props_get k ps = None -> props_delete k ps = ps.
Proof.
  unfold props_delete. induction ps as [|[k' v'] ps IH]; simpl; [reflexivity|].
  destruct (String.eqb k' k); simpl; [discriminate|].
  intros H. now rewrite IH.
Qed.

Lemma delete_app_new (k : string) (v : json) (ps : list (string * json)) :
  props_get k ps = None -> props_delete k (ps ++ [(k, v)]) = ps.
Proof.
  intros H. unfold props_delete. rewrite List.filter_app. simpl.
  rewrite String.eqb_refl. simpl. rewrite app_nil_r. now apply delete_id.
Qed.

End Props.

(* ================================================================= *)
(** ** The update of the document by the add-note command *)

Section Update.
Context {platform : Platform}.


(** An assignment stores the value as an own property, or stores nothing:
    the name is [__proto__] and there is no own property of that name. *)
Lemma set_prop_cases (target target' : json) (k : string) (v : json) :
  set_prop target k v = Ok target' ->
  exists ps,
    target = JObj ps
    /\ ((target' = JObj (props_set k v ps)
         /\ (k <> "__proto__" \/ has_key k ps = true))
        \/ (target' = target /\ k = "__proto__" /\ has_key k ps = false)).
Proof.
  unfold set_prop. destruct target as [| | | | |ps]; try discriminate.
  intros H. exists ps. split; [reflexivity|].
  destruct (String.eqb_spec k "__proto__") as [->|Hk]; cbn [andb] in H.
  - destruct (has_key "__proto__" ps) eqn:Hkey; cbn [negb] in H.
    + injection H as <-. left. auto.
    + right. destruct v; try discriminate; injection H as <-; auto.
  - injection H as <-. left. auto.
Qed.

Lemma set_prop_get (target target' : json) (k : string) (v : json) :
  set_prop target k v = Ok target' ->
  (get_prop target' k = Some v
   \/ (k = "__proto__" /\ target' = target /\ get_prop target k = None))
  /\ (forall k', k <> k' -> get_prop target' k' = get_prop target k').
Proof.
  intros H. apply set_prop_cases in H as (ps & -> & [[-> _] | (-> & -> & Hkey)]).
  - cbn [get_prop]. split.
    + left. apply get_set_same.
    + intros k' Hne. now apply get_set_other.
  - split; [|reflexivity]. right. cbn [get_prop].
    split; [reflexivity|]. split; [reflexivity|]. now apply has_key_false.
Qed.

Lemma set_prop_plain (ps : list (string * json)) (k : string) (v : json) :
  k <> "__proto__" -> set_prop (JObj ps) k v = Ok (JObj (props_set k v ps)).
Proof.
  intros Hk. unfold set_prop. apply String.eqb_neq in Hk. now rewrite Hk.
Qed.

(** The command only gets past [config.notes = {}] on an object. *)
Lemma init_notes_object (config config1 : json) :
  init_notes config = Ok config1 ->
  exists ps ps1 notes1,
    config = JObj ps /\ config1 = JObj ps1
    /\ props_get "notes" ps1 = Some notes1
    /\ truthy (Some notes1) = true
    /\ ((truthy (props_get "notes" ps) = true /\ ps1 = ps)
        \/ (truthy (props_get "notes" ps) = false
            /\ ps1 = props_set "notes" (JObj []) ps /\ notes1 = JObj [])).
Proof.
  unfold init_notes. destruct config as [| | | | |ps]; try (vm_compute; discriminate).
  cbn [member bind get_prop].
  destruct (truthy (props_get "notes" ps)) eqn:T.
  - intros H. injection H as <-.
    destruct (props_get "notes" ps) as [notes1|] eqn:G; [|discriminate].
    exists ps, ps, notes1. repeat split; auto.
    left. rewrite G. auto.
  - rewrite set_prop_plain by discriminate. intros H. injection H as <-.
    exists ps, (props_set "notes" (JObj []) ps), (JObj []).
    rewrite get_set_same. repeat split; auto.
Qed.

Lemma store_notes_get (ps : list (string * json)) (notes notes' : json) :
  props_get "notes" ps = Some notes ->
  props_get "notes" (props_replace "notes" notes' ps) = Some notes'.
Proof.
  intros H. apply get_replace_same. apply has_key_get. congruence.
Qed.




End Update.

(* ================================================================= *)
(** ** Runs of the add-note command *)

Section Runs.
Context {platform : Platform}.

Lemma existsSync_regular (w : World) (p old : string) :
  fs w !! p = Some (Regular old) -> existsSync w p = true.
Proof.
  intros H. unfold existsSync. apply bool_decide_eq_true. rewrite H. eauto.
Qed.

Lemma existing_note_ok (ps1 : list (string * json)) (notes1 : json) (rel : string) :
  props_get "notes" ps1 = Some notes1 ->
  truthy (Some notes1) = true ->
  exists existingNote, existing_note (JObj ps1) rel = Ok existingNote.
Proof.
  intros Hget Htruthy. unfold existing_note. cbn [member bind get_prop].
  rewrite Hget. destruct notes1; try discriminate; cbn [member bind]; eauto.
Qed.

(** A run that gets to the end: the file is there and can be written, the
    item is a file, the document can be read and updated. *)
Lemma addNote_runs (w : World) (fileItem : TreeItem) (root p old note : string)
    (config config2 : json) :
  workspaceFolder w = Some root ->
  root <> "" ->
  fs w !! contexts_json root = Some (Regular old) ->
  filePath_of fileItem = Some (JStr p) ->
  read_config w (contexts_json root) = Ok config ->
  updated_config config (path_relative root p) note = Ok config2 ->
  exists existingNote,
    addNoteToFileCommand w fileItem (Some note)
    = (after_note root existingNote (path_relative root p) note config2 w, Resolved).
Proof.
  intros Hws Hroot Hfile Hitem Hcfg Hup.
  unfold addNoteToFileCommand. rewrite Hws.
  destruct root as [|a root]; [contradiction|].
  rewrite (existsSync_regular _ _ _ Hfile). cbn [negb].
  rewrite Hitem. cbn [as_string]. rewrite Hcfg.
  unfold updated_config in Hup.
  destruct (init_notes config) as [config1|e] eqn:Hinit; [|discriminate].
  cbn [bind] in Hup |- *.
  destruct (init_notes_object _ _ Hinit)
    as (ps & ps1 & notes1 & -> & -> & Hget1 & Htruthy & _).
  destruct (existing_note_ok ps1 notes1 (path_relative (String a root) p) Hget1 Htruthy)
    as [existingNote Hex].
  rewrite Hex. cbn [bind]. rewrite Hup.
  exists existingNote. unfold writeFileSync, showInputBox. cbn [fs].
  rewrite Hfile. reflexivity.
Qed.



End Runs.



(* ================================================================= *)
(** ** The same note twice, and an empty note where there was none *)

Section Repeat.
Context {platform : Platform}.

Lemma delete_replace (k : string) (v : json) (ps : list (string * json)) :
  props_delete k (props_replace k v ps) = props_delete k ps.
Proof.
  unfold props_delete. induction ps as [|[k' v'] ps IH]; simpl; [reflexivity|].
  destruct (String.eqb k' k) eqn:E; simpl; rewrite E; simpl; [reflexivity|].
  now rewrite IH.
Qed.

Lemma delete_insert_index (n : N) (k : string) (v : json) (ps : list (string * json)) :
  props_delete k (props_insert_index n k v ps) = props_delete k ps.
Proof.
  unfold props_delete. induction ps as [|[k' v'] ps IH]; simpl.
  - now rewrite String.eqb_refl.
  - destruct (array_index k') as [m|]; [destruct (m <? n)%N|]; simpl;
      rewrite ?String.eqb_refl; simpl; rewrite ?IH; reflexivity.
Qed.

Lemma delete_set (k : string) (v : json) (ps : list (string * json)) :
  props_delete k (props_set k v ps) = props_delete k ps.
Proof.
  unfold props_set. destruct (has_key k ps).
  - apply delete_replace.
  - destruct (array_index k) as [n|].
    + apply delete_insert_index.
    + unfold props_delete. rewrite List.filter_app. simpl.
      rewrite String.eqb_refl. simpl. now rewrite app_nil_r.
Qed.

(** The document written for a note that is not empty has the note. *)
Lemma updated_config_has_note (config config2 : json) (rel note : string) :
  note <> "" ->
  rel <> "__proto__" ->
  updated_config config rel note = Ok config2 ->
  exists ps2 nps2,
    config2 = JObj ps2
    /\ props_get "notes" ps2 = Some (JObj nps2)
    /\ props_get rel nps2 = Some (JStr note).
Proof.
  intros Hnote Hrel. unfold updated_config.
  destruct (init_notes config) as [config1|e] eqn:Hinit; cbn [bind]; [|discriminate].
  apply init_notes_object in Hinit
    as (ps & ps1 & notes1 & -> & -> & Hget1 & _ & _).
  unfold apply_note. cbn [member bind get_prop]. rewrite Hget1.
  apply String.eqb_neq in Hnote. rewrite Hnote.
  destruct notes1; try discriminate.
  rewrite (set_prop_plain _ _ _ Hrel). cbn [bind store_notes].
  intros H. injection H as <-.
  exists (props_replace "notes" (JObj (props_set rel (JStr note) props)) ps1),
         (props_set rel (JStr note) props).
  split; [reflexivity|]. split.
  - now apply (store_notes_get _ _ _ Hget1).
  - apply get_set_same.
Qed.

(** Adding a note that is there changes nothing. *)
Lemma update_noop (ps2 nps2 : list (string * json)) (rel note : string) :
  note <> "" ->
  props_get "notes" ps2 = Some (JObj nps2) ->
  props_get rel nps2 = Some (JStr note) ->
  updated_config (JObj ps2) rel note = Ok (JObj ps2).
Proof.
  intros Hnote Hnotes Hrel. unfold updated_config, init_notes.
  cbn [member bind get_prop]. rewrite Hnotes. cbn [truthy bind].
  unfold apply_note. cbn [member bind get_prop]. rewrite Hnotes.
  apply String.eqb_neq in Hnote. rewrite Hnote.
  assert (Hkey : has_key rel nps2 = true) by (apply has_key_get; congruence).
  unfold set_prop. rewrite Hkey, andb_false_r. cbn [bind store_notes].
  rewrite (set_id _ _ _ Hrel), (replace_id _ _ _ Hnotes). reflexivity.
Qed.

(** An assignment that is repeated changes nothing. *)
Lemma set_prop_again (target target' : json) (k : string) (v : json) :
  set_prop target k v = Ok target' -> set_prop target' k v = Ok target'.
Proof.
  intros H. pose proof H as H'.
  apply set_prop_cases in H' as (ps & -> & [[-> _] | (-> & _ & _)]); [|exact H].
  assert (Hget : props_get k (props_set k v ps) = Some v) by apply get_set_same.
  assert (Hkey : has_key k (props_set k v ps) = true)
    by (apply has_key_get; congruence).
  unfold set_prop. rewrite Hkey, andb_false_r. now rewrite (set_id _ _ _ Hget).
Qed.

(** The update of the document for a note that is not empty, repeated on
    its result, changes nothing. *)
Lemma update_again (config config2 : json) (rel note : string) :
  note <> "" ->
  updated_config config rel note = Ok config2 ->
  updated_config config2 rel note = Ok config2.
Proof.
  intros Hnote. unfold updated_config.
  destruct (init_notes config) as [config1|e] eqn:Hinit; cbn [bind]; [|discriminate].
  apply init_notes_object in Hinit
    as (ps & ps1 & notes1 & -> & -> & Hget1 & _ & _).
  unfold apply_note at 1. cbn [member bind get_prop]. rewrite Hget1.
  apply String.eqb_neq in Hnote. rewrite Hnote.
  destruct (set_prop notes1 rel (JStr note)) as [notes'|e] eqn:Hset; cbn [bind];
    [|discriminate].
  intros H. injection H as <-. cbn [store_notes].
  assert (Hget2 : props_get "notes" (props_replace "notes" notes' ps1) = Some notes')
    by now apply (store_notes_get _ _ _ Hget1).
  assert (Htruthy : truthy (Some notes') = true).
  { apply set_prop_cases in Hset as (nps & -> & [[-> _] | (-> & _ & _)]); reflexivity. }
  unfold init_notes. cbn [member bind get_prop]. rewrite Hget2, Htruthy. cbn [bind].
  unfold apply_note. cbn [member bind get_prop]. rewrite Hget2, Hnote.
  rewrite (set_prop_again _ _ _ _ Hset). cbn [bind store_notes].
  now rewrite (replace_id _ _ _ Hget2).
Qed.

(** The run for a note that is there: both runs get to the end. *)
Lemma repeated_note_runs (w : World) (fileItem : TreeItem) (root p old note : string)
    (config config2 : json) :
  workspaceFolder w = Some root ->
  root <> "" ->
  fs w !! contexts_json root = Some (Regular old) ->
  filePath_of fileItem = Some (JStr p) ->
  read_config w (contexts_json root) = Ok config ->
  note <> "" ->
  updated_config config (path_relative root p) note = Ok config2 ->
  JSON_parse (JSON_stringify config2 2) = Ok config2 ->
  exists w1 w2,
    addNoteToFileCommand w fileItem (Some note) = (w1, Resolved)
    /\ addNoteToFileCommand w1 fileItem (Some note) = (w2, Resolved)
    /\ fs w1 !! contexts_json root = Some (Regular (JSON_stringify config2 2))
    /\ fs w2 = fs w1
    /\ commands w2 = commands w ++ [refresh_command; refresh_command].
Proof.
  intros Hws Hroot Hfile Hitem Hcfg Hnote Hup Hback.
  destruct (addNote_runs w fileItem root p old note config config2
              Hws Hroot Hfile Hitem Hcfg Hup) as [e1 Hrun1].
  set (w1 := after_note root e1 (path_relative root p) note config2 w) in *.
  assert (Hfile1 : fs w1 !! contexts_json root
                   = Some (Regular (JSON_stringify config2 2))).
  { unfold w1, after_note. cbn [fs]. apply lookup_insert_eq. }
  assert (Hcfg1 : read_config w1 (contexts_json root) = Ok config2).
  { unfold read_config, readFileSync. rewrite Hfile1. cbn [bind]. exact Hback. }
  assert (Hup1 : updated_config config2 (path_relative root p) note = Ok config2)
    by now apply (update_again _ _ _ _ Hnote Hup).
  destruct (addNote_runs w1 fileItem root p _ note config2 config2
              Hws Hroot Hfile1 Hitem Hcfg1 Hup1) as [e2 Hrun2].
  exists w1, (after_note root e2 (path_relative root p) note config2 w1).
  split; [exact Hrun1|]. split; [exact Hrun2|]. split; [exact Hfile1|]. split.
  - unfold w1, after_note. cbn [fs]. apply insert_insert_eq.
  - unfold w1, after_note. cbn [commands]. now rewrite <- app_assoc.
Qed.

(** What a run does to the file system depends on the file system and the
    workspace folder only. *)
Lemma addNote_same_files (w w' : World) (fileItem : TreeItem) (answer : option string) :
  fs w = fs w' ->
  workspaceFolder w = workspaceFolder w' ->
  fs (fst (addNoteToFileCommand w fileItem answer))
  = fs (fst (addNoteToFileCommand w' fileItem answer))
  /\ snd (addNoteToFileCommand w fileItem answer)
     = snd (addNoteToFileCommand w' fileItem answer).
Proof.
  intros Hfs Hws.
  unfold addNoteToFileCommand, existsSync, read_config, readFileSync.
  rewrite <- Hws, <- Hfs.
  destruct (workspaceFolder w) as [[|a root]|]; cbn [fst snd fs showMessage]; auto.
  destruct (bool_decide _); cbn [negb fst snd fs showMessage]; auto.
  destruct (as_string (filePath_of fileItem)) as [p|e]; cbn [fst snd]; auto.
  destruct (fs w !! _) as [[c|c|]|] eqn:Hfile; cbn [bind fst snd fs showMessage]; auto.
  - destruct (JSON_parse c) as [config|e]; cbn [fst snd fs showMessage]; auto.
    destruct (init_notes config) as [config1|e]; cbn [bind fst snd]; auto.
    destruct (existing_note config1 _) as [existingNote|e]; cbn [bind fst snd]; auto.
    destruct answer as [note|]; cbn [fst snd fs showInputBox]; auto.
    destruct (apply_note config1 _ note) as [config2|e];
      cbn [fst snd fs showInputBox]; auto.
    unfold writeFileSync, showInputBox. cbn [fs]. rewrite <- Hfs, Hfile.
    cbn [fst snd fs showMessage executeCommand]. auto.
  - destruct (JSON_parse c) as [config|e]; cbn [fst snd fs showMessage]; auto.
    destruct (init_notes config) as [config1|e]; cbn [bind fst snd]; auto.
    destruct (existing_note config1 _) as [existingNote|e]; cbn [bind fst snd]; auto.
    destruct answer as [note|]; cbn [fst snd fs showInputBox]; auto.
    destruct (apply_note config1 _ note) as [config2|e];
      cbn [fst snd fs showInputBox]; auto.
    unfold writeFileSync, showInputBox. cbn [fs]. rewrite <- Hfs, Hfile.
    cbn [fst snd fs showMessage]. auto.
Qed.

(** A run either gets to the end, or leaves the file system as it is. *)
Lemma addNote_cases (w : World) (fileItem : TreeItem) (note : string) :
  (exists root p old config config2,
      workspaceFolder w = Some root /\ root <> ""
      /\ fs w !! contexts_json root = Some (Regular old)
      /\ filePath_of fileItem = Some (JStr p)
      /\ read_config w (contexts_json root) = Ok config
      /\ updated_config config (path_relative root p) note = Ok config2)
  \/ (fs (fst (addNoteToFileCommand w fileItem (Some note))) = fs w
      /\ workspaceFolder (fst (addNoteToFileCommand w fileItem (Some note)))
         = workspaceFolder w).
Proof.
  unfold addNoteToFileCommand, existsSync.
  destruct (workspaceFolder w) as [[|a root]|] eqn:Hws;
    cbn [fst fs workspaceFolder showMessage]; auto.
  destruct (fs w !! contexts_json (String a root)) as [entry|] eqn:Hfile.
  2:{ rewrite bool_decide_eq_false_2 by (intros [x Hx]; discriminate).
      cbn [negb fst fs workspaceFolder showMessage]. auto. }
  rewrite bool_decide_eq_true_2 by eauto. cbn [negb].
  destruct (as_string (filePath_of fileItem)) as [p|e] eqn:Hp;
    cbn [fst fs workspaceFolder]; auto.
  destruct (read_config w _) as [config|e] eqn:Hcfg;
    cbn [fst fs workspaceFolder showMessage]; auto.
  destruct (init_notes config) as [config1|e] eqn:Hinit;
    cbn [bind fst fs workspaceFolder]; auto.
  destruct (existing_note config1 _) as [existingNote|e];
    cbn [bind fst fs workspaceFolder]; auto.
  destruct (apply_note config1 _ note) as [config2|e] eqn:Happ;
    cbn [fst fs workspaceFolder showInputBox]; auto.
  unfold writeFileSync, showInputBox. cbn [fs]. rewrite Hfile.
  destruct entry as [old|old|]; cbn [fst fs workspaceFolder showMessage]; auto.
  left. exists (String a root), p, old, config, config2.
  split; [reflexivity|]. split; [discriminate|]. split; [exact Hfile|]. split.
  - destruct (filePath_of fileItem) as [[]|]; try discriminate.
    now injection Hp as ->.
  - split; [exact Hcfg|]. unfold updated_config. rewrite Hinit. exact Happ.
Qed.

(** C8.  Take a note that is not empty and a runtime that reads back the
    document the command writes as it was written.  Then, in whatever world
    and for whatever item, after the command has run twice with this note
    the file system is as it was after the first run, and the second run
    settles as the first did: the configuration file holds the same
    document.  When the first run writes the file, the second writes the
    same content again; when the first run stops before the write, so does
    the second. *)
Theorem same_note_twice (w : World) (fileItem : TreeItem) (note : string) :
  note <> "" ->
  (forall root p config config2,
      workspaceFolder w = Some root ->
      filePath_of fileItem = Some (JStr p) ->
      read_config w (contexts_json root) = Ok config ->
      updated_config config (path_relative root p) note = Ok config2 ->
      JSON_parse (JSON_stringify config2 2) = Ok config2) ->
  let first := addNoteToFileCommand w fileItem (Some note) in
  let second := addNoteToFileCommand (fst first) fileItem (Some note) in
  fs (fst second) = fs (fst first) /\ snd second = snd first.
Proof.
  intros Hnote Hback first second.
  destruct (addNote_cases w fileItem note)
    as [(root & p & old & config & config2 & Hws & Hroot & Hfile & Hp & Hcfg & Hup)
       | [Hfs Hfolder]].
  - destruct (repeated_note_runs w fileItem root p old note config config2
                Hws Hroot Hfile Hp Hcfg Hnote Hup
                (Hback root p config config2 Hws Hp Hcfg Hup))
      as (w1 & w2 & Hrun1 & Hrun2 & _ & Hsame & _).
    subst first second. rewrite Hrun1. cbn [fst snd]. rewrite Hrun2. now split.
  - fold first in Hfs, Hfolder.
    destruct (addNote_same_files (fst first) w fileItem (Some note) Hfs Hfolder)
      as [H1 H2].
    subst second. fold first in H1, H2. now split.
Qed.

(** C10, as the code has it.  An empty note for a file without a note, in a
    document whose [notes] member is falsy or absent ([others = []]) or is
    an object with the entries [others]: the command completes, replaces
    the content of the configuration file by the serialisation with
    indentation 2 of the document it holds in memory, reports
    [Note removed] and runs the refresh command.  The written document has
    no [notes] key when there are no other notes, and the [notes] it had
    when there are. *)
Theorem empty_note_rewrites (w : World) (fileItem : TreeItem) (root p old : string)
    (ps others : list (string * json)) :
  let rel := path_relative root p in
  workspaceFolder w = Some root ->
  root <> "" ->
  fs w !! contexts_json root = Some (Regular old) ->
  filePath_of fileItem = Some (JStr p) ->
  read_config w (contexts_json root) = Ok (JObj ps) ->
  (truthy (props_get "notes" ps) = false /\ others = [])
  \/ props_get "notes" ps = Some (JObj others) ->
  props_get rel others = None ->
  let config2 :=
    JObj (match others with [] => props_delete "notes" ps | _ :: _ => ps end) in
  addNoteToFileCommand w fileItem (Some "")
  = (after_note root (JStr "") rel "" config2 w, Resolved)
  /\ fs (after_note root (JStr "") rel "" config2 w) !! contexts_json root
     = Some (Regular (JSON_stringify config2 2))
  /\ In (Information, "Note removed")
        (notifications (after_note root (JStr "") rel "" config2 w))
  /\ get_prop config2 "notes"
     = match others with [] => None | _ :: _ => Some (JObj others) end.
Proof.
  intros rel Hws Hroot Hfile Hitem Hcfg Hnotes Hrel config2.
  assert (Hup : updated_config (JObj ps) rel "" = Ok config2
                /\ existing_note
                     (match props_get "notes" ps with
                      | Some (JObj _) => JObj ps
                      | _ => JObj (props_set "notes" (JObj []) ps)
                      end) rel = Ok (JStr "")
                /\ init_notes (JObj ps)
                   = Ok (match props_get "notes" ps with
                         | Some (JObj _) => JObj ps
                         | _ => JObj (props_set "notes" (JObj []) ps)
                         end)).
  { unfold updated_config, init_notes, existing_note, apply_note, config2.
    cbn [member bind get_prop].
    destruct Hnotes as [[Hfalsy ->] | Hobj].
    - rewrite Hfalsy. rewrite set_prop_plain by discriminate.
      cbn [bind member get_prop].
      destruct (props_get "notes" ps) as [[]|] eqn:G; try discriminate;
        cbn [get_prop bind member]; rewrite !get_set_same;
        cbn [get_prop props_get truthy bind member
          String.eqb delete_prop props_delete List.filter store_notes
          own_keys map length Nat.eqb];
        rewrite delete_replace, delete_set; auto.
    - rewrite Hobj. cbn [truthy bind member get_prop]. rewrite Hobj.
      cbn [get_prop bind member]. rewrite Hrel.
      cbn [String.eqb delete_prop bind store_notes own_keys].
      rewrite (delete_id _ _ Hrel), (replace_id _ _ _ Hobj).
      destruct others as [|o others]; cbn [map length Nat.eqb delete_prop]; auto. }
  destruct Hup as (Hup & Hex & Hinit).
  split; [|split; [|split]].
  - unfold addNoteToFileCommand. rewrite Hws.
    destruct root as [|a root]; [contradiction|].
    rewrite (existsSync_regular _ _ _ Hfile). cbn [negb].
    rewrite Hitem. cbn [as_string]. rewrite Hcfg, Hinit. cbn [bind].
    fold rel. rewrite Hex. cbn [bind].
    unfold updated_config in Hup. rewrite Hinit in Hup. cbn [bind] in Hup.
    rewrite Hup. unfold writeFileSync, showInputBox. cbn [fs]. rewrite Hfile.
    reflexivity.
  - unfold after_note. cbn [fs]. apply lookup_insert_eq.
  - unfold after_note. cbn [notifications]. apply in_or_app. right. now left.
  - unfold config2. destruct others as [|o others]; cbn [get_prop].
    + apply get_delete_same.
    + destruct Hnotes as [[_ H] | H]; [discriminate | exact H].
Qed.

End Repeat.

Lemma same_note_twice_witness :
  let w := workspace "/ws" noted_doc in
  let first := addNoteToFileCommand w (item_at "x/z.ts") (Some "later") in
  let second := addNoteToFileCommand (fst first) (item_at "x/z.ts") (Some "later") in
  read_config w (contexts_json "/ws") = Ok noted_doc
  /\ updated_config noted_doc (path_relative "/ws" "/ws/x/z.ts") "later"
     = Ok noted_doc_later
  /\ JSON_parse (JSON_stringify noted_doc_later 2) = Ok noted_doc_later
  /\ fs (fst first) !! contexts_json "/ws"
     = Some (Regular (JSON_stringify noted_doc_later 2))
  /\ fs (fst second) = fs (fst first)
  /\ snd second = snd first.
Proof.
  intros w first second.
  assert (H1 : read_config w (contexts_json "/ws") = Ok noted_doc)
    by (vm_compute; reflexivity).
  assert (H2 : updated_config noted_doc (path_relative "/ws" "/ws/x/z.ts") "later"
               = Ok noted_doc_later) by (vm_compute; reflexivity).
  assert (H3 : JSON_parse (JSON_stringify noted_doc_later 2) = Ok noted_doc_later)
    by (vm_compute; reflexivity).
  split; [exact H1|]. split; [exact H2|]. split; [exact H3|].
  split; [vm_compute; reflexivity|].
  apply (same_note_twice w (item_at "x/z.ts") "later").
  - discriminate.
  - intros root p config config2 Hws Hp Hcfg Hup.
    injection Hws as <-. injection Hp as <-.
    rewrite H1 in Hcfg. injection Hcfg as <-.
    change (updated_config noted_doc (path_relative "/ws" "/ws/x/z.ts") "later"
            = Ok config2) in Hup.
    rewrite H2 in Hup. injection Hup as <-. exact H3.
Defined.

Lemma empty_note_rewrites_witness :
  let w := workspace "/ws" makefile_doc in
  let config2 := JObj (props_delete "notes" (props_of makefile_doc)) in
  read_config w (contexts_json "/ws") = Ok (JObj (props_of makefile_doc))
  /\ truthy (props_get "notes" (props_of makefile_doc)) = false
  /\ addNoteToFileCommand w (item_at "src/a.ts") (Some "")
     = (after_note "/ws" (JStr "") (path_relative "/ws" "/ws/src/a.ts") "" config2 w,
        Resolved)
  /\ get_prop config2 "notes" = None.
Proof.
  intros w config2.
  assert (H1 : read_config w (contexts_json "/ws") = Ok (JObj (props_of makefile_doc)))
    by (vm_compute; reflexivity).
  split; [exact H1|]. split; [reflexivity|].
  assert (Hroot : "/ws" <> "") by discriminate.
  assert (Hfile : fs w !! contexts_json "/ws"
                  = Some (Regular (JSON_stringify makefile_doc 2)))
    by (vm_compute; reflexivity).
  pose proof (empty_note_rewrites w (item_at "src/a.ts") "/ws" "/ws/src/a.ts"
                (JSON_stringify makefile_doc 2) (props_of makefile_doc) []
                eq_refl Hroot Hfile eq_refl H1
                (or_introl (conj eq_refl eq_refl)) eq_refl) as H.
  split; [exact (proj1 H) | exact (proj2 (proj2 (proj2 H)))].
Defined.

(** C10 as stated fails in its last part: [x/z.ts] has no note, another
    file has one, and after the empty note the document written to the
    file, read back, is the document that was there, with its [notes]. *)
Lemma empty_note_keeps_other_notes :
  let w := workspace "/ws" noted_doc in
  let run := addNoteToFileCommand w (item_at "x/z.ts") (Some "") in
  note_entry noted_doc (path_relative "/ws" "/ws/x/z.ts") = None
  /\ snd run = Resolved
  /\ notifications (fst run) = [(Information, "Note removed")]
  /\ fs (fst run) !! contexts_json "/ws" = Some (Regular (JSON_stringify noted_doc 2))
  /\ read_config (fst run) (contexts_json "/ws") = Ok noted_doc
  /\ get_prop noted_doc "notes"
     = Some (JObj [("x/y.ts", JStr "todo"); ("b.ts", JStr "keep")]).
Proof.
  repeat split; vm_compute; reflexivity.
Qed.

(* ================================================================= *)
(** ** Invariants of the tree *)

Section Levels.
Context {platform : Platform}.

Lemma children_with_children (it : TreeItem) (c : list TreeItem) :
  children (with_children it c) = c.
Proof. now destruct it. Qed.

Lemma label_with_children (it : TreeItem) (c : list TreeItem) :
  label (with_children it c) = label it.
Proof. now destruct it. Qed.

Lemma is_Folder_with_children (it : TreeItem) (c : list TreeItem) :
  is_Folder (with_children it c) = is_Folder it.
Proof. now destruct it. Qed.

Lemma filePath_with_children (it : TreeItem) (c : list TreeItem) :
  filePath_of (with_children it c) = filePath_of it.
Proof. now destruct it. Qed.

Lemma description_with_children (it : TreeItem) (c : list TreeItem) :
  description_of (with_children it c) = description_of it.
Proof. now destruct it. Qed.

(** What a turn of the loop does to the level: it replaces the children of
    the first item labelled [part], or appends a folder when there is none. *)
Lemma enter_result (k : list TreeItem -> result (list TreeItem)) (part : string)
    (lv lv' : list TreeItem) :
  enter k part lv = Ok lv' ->
  (exists pre it post sub,
      lv = pre ++ it :: post /\ has_label part pre = false /\ label it = part
      /\ k (children it) = Ok sub /\ lv' = pre ++ with_children it sub :: post)
  \/ (has_label part lv = false
      /\ exists sub, k [] = Ok sub /\ lv' = lv ++ [Folder part sub]).
Proof.
  revert lv'. induction lv as [|it lv IH]; intros lv'; cbn [enter].
  - destruct (k []) as [sub|e] eqn:Hk; cbn [bind]; [|discriminate].
    intros H. injection H as <-. right. split; [reflexivity|]. now exists sub.
  - destruct (String.eqb_spec (label it) part) as [Hl|Hl].
    + destruct (k (children it)) as [sub|e] eqn:Hk; cbn [bind]; [|discriminate].
      intros H. injection H as <-. left. exists [], it, lv, sub. auto.
    + destruct (enter k part lv) as [tl|e] eqn:Hrec; cbn [bind]; [|discriminate].
      intros H. injection H as <-.
      apply String.eqb_neq in Hl.
      destruct (IH tl eq_refl)
        as [(pre & it' & post & sub & -> & Hpre & Hit & Hk & ->)
           | (Hnone & sub & Hk & ->)].
      * left. exists (it :: pre), it', post, sub. cbn [has_label existsb app].
        unfold has_label in Hpre. rewrite Hl, Hpre. auto.
      * right. cbn [has_label existsb]. unfold has_label in Hnone.
        rewrite Hl, Hnone. split; [reflexivity|]. now exists sub.
Qed.

Lemma place_last (file : result TreeItem) (part : string) (level : list TreeItem) :
  place file [part] level
  = if has_label part level then Ok level else do f <- file; Ok (level ++ [f]).
Proof. reflexivity. Qed.

Lemma place_inner (file : result TreeItem) (part next : string) (rest : list string)
    (level : list TreeItem) :
  place file (part :: next :: rest) level
  = enter (place file (next :: rest)) part level.
Proof. reflexivity. Qed.

Lemma new_File_shape (w : World) (fp contextName : string) (f : TreeItem) :
  new_File w fp contextName = Ok f ->
  exists config sf,
    read_config w (contexts_json (workspaceFolder_or_empty w)) = Ok config
    /\ showFolders_of config = Ok sf
    /\ f = File_fields config sf (workspaceFolder_or_empty w) fp contextName.
Proof.
  unfold new_File.
  destruct (read_config w _) as [config|e]; cbn [bind]; [|discriminate].
  destruct (showFolders_of config) as [sf|e] eqn:Hsf; cbn [bind]; [|discriminate].
  intros H. injection H as <-. now exists config, sf.
Qed.

(** *** A property of levels that the loops keep *)

Section Kept.
Variable w : World.
Variable Inv : list TreeItem -> Prop.
Hypothesis Inv_nil : Inv [].
Hypothesis Inv_place :
  forall fp contextName parts level level',
    Inv level -> place (new_File w fp contextName) parts level = Ok level' -> Inv level'.
Hypothesis Inv_push :
  forall fp contextName f level,
    Inv level -> new_File w fp contextName = Ok f -> Inv (level ++ [f]).

Lemma addToTree_kept (root : string) (parent parent' : list TreeItem)
    (fullPath : option json) (contextName : string) :
  Inv parent ->
  addToTree w root parent fullPath contextName = Ok parent' -> Inv parent'.
Proof.
  intros Hinv. unfold addToTree.
  destruct (as_string fullPath) as [p|e]; cbn [bind]; [|discriminate].
  destruct (read_config w _) as [config|e]; cbn [bind]; [|discriminate].
  destruct (showFolders_of config) as [sf|e]; cbn [bind]; [|discriminate].
  destruct (truthy sf).
  - now apply Inv_place.
  - destruct (new_File w _ contextName) as [f|e] eqn:Hf; cbn [bind]; [|discriminate].
    intros H. injection H as <-. now apply (Inv_push _ _ _ _ Hinv Hf).
Qed.

Lemma add_paths_kept (root : string) (sf : option json) (contextName : string)
    (paths : list json) (acc acc' : list TreeItem) :
  Inv acc ->
  add_paths w root sf contextName paths acc = Ok acc' -> Inv acc'.
Proof.
  revert acc. induction paths as [|p paths IH]; intros acc Hinv; cbn [add_paths].
  - intros H. now injection H as <-.
  - destruct (shown sf p) as [keep|e]; cbn [bind]; [|discriminate].
    destruct keep.
    + destruct (addToTree w root acc (Some p) contextName) as [acc1|e] eqn:Hadd;
        cbn [bind]; [|discriminate].
      apply IH. now apply (addToTree_kept _ _ _ _ _ Hinv Hadd).
    + cbn [bind]. now apply IH.
Qed.

Lemma add_sections_kept (root : string) (sf contexts : option json)
    (names : list string) (items items' : list TreeItem) (r : option js_error) :
  Forall (fun s => Inv (children s)) items ->
  add_sections w root sf contexts names items = (items', r) ->
  Forall (fun s => Inv (children s)) items'.
Proof.
  revert items. induction names as [|n names IH]; intros items Hinv; cbn [add_sections].
  - intros H. now injection H as <- <-.
  - destruct (do paths <- _; _) as [sectionItems|e] eqn:Hsec.
    + apply IH. apply Forall_app. split; [exact Hinv|].
      constructor; [|constructor]. cbn [children].
      destruct (bind (member contexts n) iterate) as [paths|e]; cbn [bind] in Hsec;
        [|discriminate].
      now apply (add_paths_kept _ _ _ _ _ _ Inv_nil Hsec).
    + intros H. now injection H as <- <-.
Qed.

Lemma loadConfig_kept (this : TreeDataProvider) :
  Forall (fun s => Inv (children s)) (_items (fst (loadConfig this w))).
Proof.
  unfold loadConfig. destruct (existsSync w _); [|constructor].
  destruct (handleLoadConfig w _ _ []) as [items r] eqn:Hh.
  assert (Forall (fun s => Inv (children s)) items).
  { unfold handleLoadConfig in Hh.
    destruct (read_config w _) as [config|e].
    - destruct (showFolders_of config) as [sf|e].
      + apply (add_sections_kept _ _ _ _ _ _ _ (Forall_nil_2 _) Hh).
      + injection Hh as <- <-. constructor.
    - injection Hh as <- <-. constructor. }
  now destruct r.
Qed.

End Kept.

End Levels.

Section Items.
Context {platform : Platform}.

Lemma every_item_app (Q : TreeItem -> Prop) (a b : list TreeItem) :
  every_item Q (a ++ b) <-> every_item Q a /\ every_item Q b.
Proof.
  induction a as [|it a IH]; cbn [app].
  - split; [intros H; split; [constructor | exact H] | intros [_ H]; exact H].
  - split.
    + intros H. inversion H as [|? ? Hq Hc Hl]; subst.
      apply IH in Hl as [Ha Hb]. split; [now constructor | exact Hb].
    + intros [H Hb]. inversion H as [|? ? Hq Hc Hl]; subst.
      constructor; auto. apply IH. now split.
Qed.

Lemma every_item_sections (Q : TreeItem -> Prop) (items : list TreeItem) :
  Forall Q items ->
  Forall (fun s => every_item Q (children s)) items ->
  every_item Q items.
Proof.
  induction items as [|s items IH]; intros HQ Hc; [constructor|].
  apply Forall_cons_1 in HQ as [Hs HQ]. apply Forall_cons_1 in Hc as [Hcs Hc].
  constructor; auto.
Qed.

Section Every.
Variable w : World.
Variable Q : TreeItem -> Prop.
Hypothesis Q_children : forall it c, Q it -> Q (with_children it c).
Hypothesis Q_folder : forall l c, Q (Folder l c).
Hypothesis Q_file : forall fp contextName f, new_File w fp contextName = Ok f -> Q f.

Lemma new_File_leaf (fp contextName : string) (f : TreeItem) :
  new_File w fp contextName = Ok f ->
  children f = [] /\ is_Folder f = false /\ filePath_of f = Some (JStr fp).
Proof.
  intros H. apply new_File_shape in H as (config & sf & _ & _ & ->).
  now unfold File_fields.
Qed.

Lemma push_every_item (fp contextName : string) (f : TreeItem) (level : list TreeItem) :
  every_item Q level -> new_File w fp contextName = Ok f -> every_item Q (level ++ [f]).
Proof.
  intros Hl Hf. apply every_item_app. split; [exact Hl|].
  constructor; [now apply (Q_file _ _ _ Hf) | | constructor].
  destruct (new_File_leaf _ _ _ Hf) as [-> _]. constructor.
Qed.

Lemma place_every_item (fp contextName : string) (parts : list string)
    (level level' : list TreeItem) :
  every_item Q level ->
  place (new_File w fp contextName) parts level = Ok level' ->
  every_item Q level'.
Proof.
  revert level level'. induction parts as [|part rest IH]; intros level level' Hl.
  - intros H. now injection H as <-.
  - destruct rest as [|next rest].
    + rewrite place_last. destruct (has_label part level).
      * intros H. now injection H as <-.
      * destruct (new_File w fp contextName) as [f|e] eqn:Hf; cbn [bind]; [|discriminate].
        intros H. injection H as <-. now apply (push_every_item _ _ _ _ Hl Hf).
    + rewrite place_inner. intros H.
      apply enter_result in H
        as [(pre & it & post & sub & -> & _ & _ & Hk & ->) | (_ & sub & Hk & ->)].
      * apply every_item_app in Hl as [Hpre Hit].
        inversion Hit as [|? ? Hq Hc Hpost]; subst.
        apply every_item_app. split; [exact Hpre|].
        constructor; [now apply Q_children | | exact Hpost].
        rewrite children_with_children. now apply (IH _ _ Hc Hk).
      * apply every_item_app. split; [exact Hl|].
        constructor; [apply Q_folder | | constructor].
        cbn [children]. apply (IH [] sub); [constructor | exact Hk].
Qed.

Lemma loadConfig_every_item (this : TreeDataProvider) :
  (forall l c, Q (Section l c)) ->
  every_item Q (_items (fst (loadConfig this w))).
Proof.
  intros Q_section.
  pose proof (loadConfig_kept w (every_item Q) (every_item_nil Q)
                place_every_item push_every_item this) as Hkept.
  apply every_item_sections; [|exact Hkept].
  clear Hkept. unfold loadConfig. destruct (existsSync w _); [|constructor].
  destruct (handleLoadConfig w _ _ []) as [items r] eqn:Hh.
  assert (Forall Q items).
  { unfold handleLoadConfig in Hh.
    destruct (read_config w _) as [config|e]; [|injection Hh as <- <-; constructor].
    destruct (showFolders_of config) as [sf|e]; [|injection Hh as <- <-; constructor].
    apply add_sections_grows in Hh as (done & -> & _ & Hsec).
    cbn [app]. eapply Forall_impl; [exact Hsec|].
    intros s Hs. cbn beta in Hs. rewrite Hs. apply Q_section. }
  now destruct r.
Qed.

End Every.

End Items.

(* ================================================================= *)
(** ** Descriptions of file items *)

Section Split.

Lemma split_nonempty (sep : ascii) (s : string) : split sep s <> [].
Proof.
  destruct s as [|c s]; cbn [split]; [discriminate|].
  destruct (Ascii.eqb c sep); [discriminate|].
  destruct (split sep s); discriminate.
Qed.

Lemma append_cons (c : ascii) (a b : string) :
  String c a +:+ b = String c (a +:+ b).
Proof. reflexivity. Qed.

Lemma split_app (sep : ascii) (a b : string) :
  split sep (a +:+ String sep b) = split sep a ++ split sep b.
Proof.
  induction a as [|c a IH].
  - change ("" +:+ String sep b) with (String sep b). cbn [split].
    now rewrite Ascii.eqb_refl.
  - rewrite append_cons. cbn [split]. destruct (Ascii.eqb c sep).
    + now rewrite IH.
    + rewrite IH. pose proof (split_nonempty sep a) as Hne.
      destruct (split sep a); [contradiction | reflexivity].
Qed.

Lemma split_plain (sep : ascii) (s : string) :
  contains sep s = false -> split sep s = [s].
Proof.
  induction s as [|c s IH]; cbn [contains split]; [reflexivity|].
  intros H. apply orb_false_elim in H as [Hc Hs].
  rewrite Hc, (IH Hs). reflexivity.
Qed.



End Split.

Section Descriptions.
Context {platform : Platform}.

Lemma every_item_impl (P Q : TreeItem -> Prop) (l : list TreeItem) :
  (forall it, P it -> Q it) -> every_item P l -> every_item Q l.
Proof.
  intros HPQ H. induction H; constructor; auto.
Qed.

Lemma loadConfig_described (this : TreeDataProvider) (w : World) (config : json)
    (sf : option json) :
  read_config w (contexts_json (workspaceFolder_or_empty w)) = Ok config ->
  showFolders_of config = Ok sf ->
  every_item (described config sf (workspaceFolder_or_empty w))
    (_items (fst (loadConfig this w))).
Proof.
  intros Hcfg Hsf. apply loadConfig_every_item.
  - intros it c H fp Hfp. rewrite filePath_with_children in Hfp.
    rewrite description_with_children. now apply H.
  - intros l c fp Hfp. discriminate.
  - intros fp0 contextName f Hf fp Hfp.
    apply new_File_shape in Hf as (config' & sf' & Hcfg' & Hsf' & ->).
    rewrite Hcfg in Hcfg'. injection Hcfg' as <-.
    rewrite Hsf in Hsf'. injection Hsf' as <-.
    cbn [File_fields filePath_of] in Hfp. injection Hfp as <-.
    reflexivity.
  - intros l c fp Hfp. discriminate.
Qed.



End Descriptions.



(* ================================================================= *)
(** ** Folders in folder mode *)

Section Folders.
Context {platform : Platform}.

Lemma folder_labels_app (a b : list TreeItem) :
  folder_labels (a ++ b) = folder_labels a ++ folder_labels b.
Proof. unfold folder_labels. now rewrite List.filter_app, map_app. Qed.

Lemma folder_labels_with_children (it : TreeItem) (c : list TreeItem) :
  folder_labels [with_children it c] = folder_labels [it].
Proof. now destruct it. Qed.

Lemma folder_labels_replace (pre post : list TreeItem) (it : TreeItem)
    (c : list TreeItem) :
  folder_labels (pre ++ with_children it c :: post) = folder_labels (pre ++ it :: post).
Proof.
  rewrite !folder_labels_app.
  change (with_children it c :: post) with ([with_children it c] ++ post).
  change (it :: post) with ([it] ++ post).
  now rewrite !folder_labels_app, folder_labels_with_children.
Qed.

Lemma has_label_false (part : string) (lv : list TreeItem) :
  has_label part lv = false -> forall it, In it lv -> label it <> part.
Proof.
  unfold has_label. intros H it Hin Heq.
  assert (existsb (fun it => String.eqb (label it) part) lv = true).
  { apply existsb_exists. exists it. split; [exact Hin|]. now apply String.eqb_eq. }
  congruence.
Qed.

Lemma not_folder_label (part : string) (lv : list TreeItem) :
  has_label part lv = false -> ~ In part (folder_labels lv).
Proof.
  intros H Hin. unfold folder_labels in Hin.
  apply in_map_iff in Hin as (it & Hl & Hit).
  apply filter_In in Hit as [Hit _].
  now apply (has_label_false _ _ H it Hit).
Qed.

Lemma distinct_folders_nil : distinct_folders [].
Proof. constructor; [constructor | intros it []]. Qed.

Lemma push_distinct (w : World) (fp contextName : string) (f : TreeItem)
    (level : list TreeItem) :
  distinct_folders level -> new_File w fp contextName = Ok f ->
  distinct_folders (level ++ [f]).
Proof.
  intros Hl Hf. destruct (new_File_leaf _ _ _ _ Hf) as (Hc & Hk & _).
  inversion Hl as [? Hnd Hch]; subst. constructor.
  - rewrite folder_labels_app. unfold folder_labels at 2.
    cbn [List.filter]. rewrite Hk. cbn [map]. now rewrite app_nil_r.
  - intros it Hin. apply in_app_or in Hin as [Hin | [<- | []]]; [auto|].
    rewrite Hc. apply distinct_folders_nil.
Qed.

Lemma place_distinct (w : World) (fp contextName : string) (parts : list string)
    (level level' : list TreeItem) :
  distinct_folders level ->
  place (new_File w fp contextName) parts level = Ok level' ->
  distinct_folders level'.
Proof.
  revert level level'. induction parts as [|part rest IH]; intros level level' Hl.
  - intros H. now injection H as <-.
  - destruct rest as [|next rest].
    + rewrite place_last. destruct (has_label part level).
      * intros H. now injection H as <-.
      * destruct (new_File w fp contextName) as [f|e] eqn:Hf; cbn [bind]; [|discriminate].
        intros H. injection H as <-. now apply (push_distinct _ _ _ _ _ Hl Hf).
    + rewrite place_inner. intros H.
      apply enter_result in H
        as [(pre & it & post & sub & -> & _ & _ & Hk & ->) | (Hnone & sub & Hk & ->)].
      * inversion Hl as [? Hnd Hch]; subst. constructor.
        -- now rewrite folder_labels_replace.
        -- intros it' Hin. apply in_app_or in Hin as [Hin | [<- | Hin]].
           ++ apply Hch. apply in_or_app. now left.
           ++ rewrite children_with_children. apply (IH (children it)); [|exact Hk].
              apply Hch. apply in_or_app. right. now left.
           ++ apply Hch. apply in_or_app. right. now right.
      * inversion Hl as [? Hnd Hch]; subst. constructor.
        -- rewrite folder_labels_app. cbn. apply NoDup_app. split; [exact Hnd|].
           split; [|apply NoDup_singleton].
           intros x Hx Hx'. apply list_elem_of_In in Hx.
           apply list_elem_of_singleton in Hx'. subst x.
           now apply (not_folder_label _ _ Hnone).
        -- intros it Hin. apply in_app_or in Hin as [Hin | [<- | []]]; [auto|].
           cbn [children]. apply (IH []); [apply distinct_folders_nil | exact Hk].
Qed.

(** The turn of the loop on an item that has the label, whatever its class. *)
Lemma enter_first (k : list TreeItem -> result (list TreeItem)) (it : TreeItem)
    (lv : list TreeItem) :
  enter k (label it) (it :: lv)
  = do sub <- k (children it); Ok (with_children it sub :: lv).
Proof. cbn [enter]. now rewrite String.eqb_refl. Qed.

End Folders.

(* ================================================================= *)
(** ** Every path has its place *)

Section Places.
Context {platform : Platform}.

Lemma locate_cons (d : string) (dirs : list string) (level : list TreeItem) :
  locate (d :: dirs) level
  = match List.find (by_label d) level with
    | Some it => locate dirs (children it)
    | None => None
    end.
Proof. reflexivity. Qed.

Lemma find_app_label (d : string) (a b : list TreeItem) :
  List.find (by_label d) (a ++ b)
  = match List.find (by_label d) a with
    | Some x => Some x
    | None => List.find (by_label d) b
    end.
Proof.
  induction a as [|x a IH]; cbn [app List.find]; [reflexivity|].
  destruct (by_label d x); auto.
Qed.

Lemma find_none (d : string) (lv : list TreeItem) :
  has_label d lv = false -> List.find (by_label d) lv = None.
Proof.
  unfold has_label. induction lv as [|x lv IH]; cbn [existsb List.find]; [reflexivity|].
  intros H. apply orb_false_elim in H as [Hx Hlv].
  unfold by_label at 1. rewrite Hx. auto.
Qed.

Lemma find_label (d : string) (lv : list TreeItem) (it : TreeItem) :
  List.find (by_label d) lv = Some it -> label it = d.
Proof.
  intros H. apply find_some in H as [_ H]. now apply String.eqb_eq.
Qed.

Section For_a_file.
Variable file : result TreeItem.

(** Where [place] leaves the first item labelled [d]: in place, with the
    same label and path, its children being what a run of the loop made of
    them. *)
Lemma place_find (parts : list string) (level level' : list TreeItem)
    (d : string) (it : TreeItem) :
  place file parts level = Ok level' ->
  List.find (by_label d) level = Some it ->
  exists it' parts',
    List.find (by_label d) level' = Some it'
    /\ place file parts' (children it) = Ok (children it').
Proof.
  intros Hplace Hfind.
  assert (Hsame : forall lv, List.find (by_label d) lv = Some it ->
            exists it' parts', List.find (by_label d) lv = Some it'
              /\ place file parts' (children it) = Ok (children it')).
  { intros lv H. exists it, []. now split. }
  destruct parts as [|part [|next rest]].
  - injection Hplace as <-. now apply Hsame.
  - rewrite place_last in Hplace. destruct (has_label part level).
    + injection Hplace as <-. now apply Hsame.
    + destruct file as [f|e]; cbn [bind] in Hplace; [|discriminate].
      injection Hplace as <-. apply Hsame.
      now rewrite find_app_label, Hfind.
  - rewrite place_inner in Hplace.
    apply enter_result in Hplace
      as [(pre & it0 & post & sub & -> & Hpre & Hit0 & Hk & ->) | (_ & sub & Hk & ->)].
    + rewrite find_app_label in Hfind |- *.
      destruct (List.find (by_label d) pre) as [x|] eqn:Hx.
      * injection Hfind as ->. exists it, []. now split.
      * cbn [List.find] in Hfind |- *.
        unfold by_label at 1. rewrite label_with_children.
        unfold by_label at 1 in Hfind.
        destruct (String.eqb (label it0) d).
        -- injection Hfind as <-. exists (with_children it0 sub), (next :: rest).
           split; [reflexivity|]. now rewrite children_with_children.
        -- exists it, []. now split.
    + apply Hsame. now rewrite find_app_label, Hfind.
Qed.

(** A level that the segments [dirs] lead to is still led to after a run of
    the loop, and has only been changed by runs of the loop. *)
Lemma locate_place (dirs : list string) (level : list TreeItem) (parts : list string)
    (level' lvl : list TreeItem) :
  locate dirs level = Some lvl ->
  place file parts level = Ok level' ->
  exists lvl' parts',
    locate dirs level' = Some lvl' /\ place file parts' lvl = Ok lvl'.
Proof.
  revert level parts level'. induction dirs as [|d dirs IH]; intros level parts level'.
  - cbn [locate]. intros H Hplace. injection H as <-. now exists level', parts.
  - rewrite !locate_cons.
    destruct (List.find (by_label d) level) as [it|] eqn:Hfind; [|discriminate].
    intros Hloc Hplace.
    destruct (place_find _ _ _ _ _ Hplace Hfind) as (it' & parts' & Hfind' & Hsub).
    rewrite Hfind'. now apply (IH (children it) parts').
Qed.

(** A run of the loop keeps the items of a level, up to their children. *)
Lemma place_keeps (leaf fp : string) (parts : list string) (lvl lvl' : list TreeItem) :
  place file parts lvl = Ok lvl' ->
  Exists (stands_for leaf fp) lvl -> Exists (stands_for leaf fp) lvl'.
Proof.
  intros Hplace Hex. destruct parts as [|part [|next rest]].
  - now injection Hplace as <-.
  - rewrite place_last in Hplace. destruct (has_label part lvl).
    + now injection Hplace as <-.
    + destruct file as [f|e]; cbn [bind] in Hplace; [|discriminate].
      injection Hplace as <-. apply Exists_app. now left.
  - rewrite place_inner in Hplace.
    apply enter_result in Hplace
      as [(pre & it0 & post & sub & -> & _ & _ & _ & ->) | (_ & sub & _ & ->)].
    + apply Exists_app in Hex as [Hex|Hex]; apply Exists_app; [now left | right].
      apply Exists_cons in Hex as [Hex|Hex]; apply Exists_cons; [left | now right].
      unfold stands_for in *.
      now rewrite label_with_children, filePath_with_children.
    + apply Exists_app. now left.
Qed.

End For_a_file.

(** After the loop has run for a path, the path has its place. *)
Lemma place_new (w : World) (fp contextName : string) (parts : list string)
    (level level' : list TreeItem) :
  parts <> [] ->
  place (new_File w fp contextName) parts level = Ok level' ->
  exists lvl,
    locate (removelast parts) level' = Some lvl
    /\ Exists (stands_for (List.last parts "") fp) lvl.
Proof.
  revert level level'. induction parts as [|part rest IH]; intros level level' Hne;
    [contradiction|].
  destruct rest as [|next rest].
  - rewrite place_last. cbn [removelast List.last locate].
    destruct (has_label part level) eqn:Hhas.
    + intros H. injection H as <-. exists level. split; [reflexivity|].
      apply existsb_exists in Hhas as (it & Hin & Hl).
      apply Exists_exists. exists it. split; [now apply list_elem_of_In|].
      left. now apply String.eqb_eq.
    + destruct (new_File w fp contextName) as [f|e] eqn:Hf; cbn [bind]; [|discriminate].
      intros H. injection H as <-. exists (level ++ [f]). split; [reflexivity|].
      apply Exists_app. right. constructor. right.
      now destruct (new_File_leaf _ _ _ _ Hf) as (_ & _ & ->).
  - rewrite place_inner.
    change (removelast (part :: next :: rest)) with (part :: removelast (next :: rest)).
    change (List.last (part :: next :: rest) "") with (List.last (next :: rest) "").
    rewrite locate_cons. intros H.
    apply enter_result in H
      as [(pre & it & post & sub & -> & Hpre & Hit & Hk & ->) | (Hnone & sub & Hk & ->)].
    + rewrite find_app_label, (find_none _ _ Hpre). cbn [List.find].
      unfold by_label. rewrite label_with_children, Hit, String.eqb_refl.
      rewrite children_with_children.
      apply (IH (children it)); [discriminate | exact Hk].
    + rewrite find_app_label, (find_none _ _ Hnone). cbn [List.find].
      unfold by_label. cbn [label]. rewrite String.eqb_refl. cbn [children].
      apply (IH []); [discriminate | exact Hk].
Qed.

Lemma place_total (f : TreeItem) (parts : list string) (level : list TreeItem) :
  exists level', place (Ok f) parts level = Ok level'.
Proof.
  revert level. induction parts as [|part rest IH]; intros level; [now exists level|].
  destruct rest as [|next rest].
  - rewrite place_last. destruct (has_label part level); cbn [bind]; eauto.
  - rewrite place_inner. induction level as [|it level IHl]; cbn [enter].
    + destruct (IH []) as [sub ->]. cbn [bind]. eauto.
    + destruct (String.eqb (label it) part).
      * destruct (IH (children it)) as [sub ->]. cbn [bind]. eauto.
      * destruct IHl as [tl ->]. cbn [bind]. eauto.
Qed.

End Places.

(* ================================================================= *)
(** ** Loading in folder mode *)

Section Grouped.
Context {platform : Platform}.

Lemma split_not_nil (p : string) : split path_sep p <> [].
Proof. apply split_nonempty. Qed.

Lemma addToTree_grouped (w : World) (root : string) (config : json) (sf : option json)
    (parent : list TreeItem) (p contextName : string) :
  read_config w (contexts_json root) = Ok config ->
  showFolders_of config = Ok sf ->
  truthy sf = true ->
  addToTree w root parent (Some (JStr p)) contextName
  = place (new_File w (absolute root p) contextName) (split path_sep p) parent.
Proof.
  intros Hcfg Hsf Hgrouped. unfold addToTree. cbn [as_string bind].
  rewrite Hcfg. cbn [bind]. rewrite Hsf. cbn [bind]. now rewrite Hgrouped.
Qed.

Lemma represented_kept (file : result TreeItem) (root q : string) (parts : list string)
    (level level' : list TreeItem) :
  place file parts level = Ok level' ->
  represented root q level -> represented root q level'.
Proof.
  intros Hplace (lvl & Hloc & Hex).
  destruct (locate_place file _ _ _ _ _ Hloc Hplace) as (lvl' & parts' & Hloc' & Hsub).
  exists lvl'. split; [exact Hloc'|]. now apply (place_keeps file _ _ _ _ _ Hsub).
Qed.

Lemma locate_app (a b : list string) (level : list TreeItem) :
  locate (a ++ b) level
  = match locate a level with
    | Some shared => locate b shared
    | None => None
    end.
Proof.
  revert level. induction a as [|d a IH]; intros level; [reflexivity|].
  cbn [app]. rewrite !locate_cons.
  destruct (List.find (by_label d) level); auto.
Qed.

Lemma represented_share (root p q : string) (level : list TreeItem) :
  represented root p level -> represented root q level ->
  share_folders root p q level.
Proof.
  intros (lp & Hp & Hexp) (lq & Hq & Hexq) pre restp restq Ep Eq.
  rewrite Ep, locate_app in Hp. rewrite Eq, locate_app in Hq.
  destruct (locate pre level) as [shared|]; [|discriminate].
  exists shared. split; [reflexivity|]. split; [now exists lp | now exists lq].
Qed.

Lemma every_item_In (Q : TreeItem -> Prop) (l : list TreeItem) (it : TreeItem) :
  every_item Q l -> In it l -> Q it /\ every_item Q (children it).
Proof.
  intros H. induction H as [|x l Hq Hc _ Hl IH]; intros Hin; [contradiction|].
  destruct Hin as [<- | Hin]; auto.
Qed.

(** Where files are leaves, a placed path goes through folders only. *)
Lemma placed_through_folders (root p : string) (rest : list string)
    (shared : list TreeItem) :
  placed_below root p rest shared ->
  leaf_files shared ->
  every_item (fun it => is_Section it = false) shared ->
  through_folders rest shared.
Proof.
  intros (lvl & Hloc & Hex). revert shared Hloc.
  induction rest as [|d rest IH]; intros shared Hloc Hleaf Hsec; [exact I|].
  rewrite locate_cons in Hloc. cbn [through_folders].
  destruct (List.find (by_label d) shared) as [it|] eqn:Hfind; [|discriminate].
  apply find_some in Hfind as [Hin _].
  destruct (every_item_In _ _ _ Hleaf Hin) as [Hfile Hleaf'].
  destruct (every_item_In _ _ _ Hsec Hin) as [Hnosec Hsec'].
  split; [|now apply IH].
  assert (Hne : children it <> []).
  { destruct rest as [|d' rest].
    - cbn [locate] in Hloc. injection Hloc as ->. intros E. rewrite E in Hex.
      now apply Exists_nil in Hex.
    - rewrite locate_cons in Hloc. intros E. rewrite E in Hloc. discriminate. }
  destruct it; cbn in *; [discriminate | reflexivity | now contradiction Hne; auto].
Qed.

Lemma add_paths_no_section (w : World) (root : string) (sf : option json)
    (contextName : string) (paths : list json) (acc : list TreeItem) :
  add_paths w root sf contextName paths [] = Ok acc ->
  every_item (fun it => is_Section it = false) acc.
Proof.
  apply (add_paths_kept w (every_item (fun it => is_Section it = false))).
  - intros fp name parts level level'. apply place_every_item.
    + intros it c H. now destruct it.
    + reflexivity.
    + intros fp' name' f Hf. apply new_File_shape in Hf as (? & ? & _ & _ & ->).
      reflexivity.
  - intros fp name f level. apply push_every_item.
    intros fp' name' f' Hf. apply new_File_shape in Hf as (? & ? & _ & _ & ->).
    reflexivity.
  - constructor.
Qed.

(** The inner loop in folder mode: it does not throw, and every path it
    has run for has its place afterwards. *)
Lemma add_paths_grouped (w : World) (root : string) (config : json) (sf : option json)
    (contextName : string) (ps : list string) (acc : list TreeItem) :
  workspaceFolder w = Some root ->
  read_config w (contexts_json root) = Ok config ->
  showFolders_of config = Ok sf ->
  truthy sf = true ->
  exists acc',
    add_paths w root sf contextName (map JStr ps) acc = Ok acc'
    /\ (forall q, represented root q acc -> represented root q acc')
    /\ (forall p, In p ps -> represented root p acc').
Proof.
  intros Hws Hcfg Hsf Hgrouped. revert acc.
  induction ps as [|p ps IH]; intros acc; cbn [map add_paths].
  - exists acc. split; [reflexivity|]. split; [auto | intros p []].
  - unfold shown. rewrite Hgrouped. cbn [bind].
    rewrite (addToTree_grouped _ _ _ _ _ _ _ Hcfg Hsf Hgrouped).
    pose proof (new_File_ok w root config sf (absolute root p) contextName
                  Hws Hcfg Hsf) as Hfile.
    destruct (place_total (File_fields config sf root (absolute root p) contextName)
                (split path_sep p) acc) as [acc1 Hplace].
    rewrite <- Hfile in Hplace. rewrite Hplace. cbn [bind].
    destruct (IH acc1) as (acc' & Hadd & Hkept & Hnew).
    exists acc'. split; [exact Hadd|]. split.
    + intros q Hq. apply Hkept. now apply (represented_kept _ _ _ _ _ _ Hplace).
    + intros q [<- | Hq]; [|now apply Hnew].
      apply Hkept. unfold represented.
      now apply (place_new w _ contextName _ acc acc1 (split_not_nil p)).
Qed.

Lemma loadConfig_distinct (this : TreeDataProvider) (w : World) :
  Forall (fun s => distinct_folders (children s)) (_items (fst (loadConfig this w))).
Proof.
  apply loadConfig_kept.
  - apply distinct_folders_nil.
  - intros fp contextName parts level level'. apply place_distinct.
  - intros fp contextName f level. apply push_distinct.
Qed.

Lemma grouped_tree (this : TreeDataProvider) (w : World) (config : json)
    (sf : option json) (ctxs : list (string * list string)) :
  workspaceFolder w = Some (workspaceRoot this) ->
  read_config w (contexts_json (workspaceRoot this)) = Ok config ->
  showFolders_of config = Ok sf ->
  truthy sf = true ->
  get_prop config "contexts" = Some (JObj (typed_contexts ctxs)) ->
  NoDup (map fst ctxs) ->
  snd (loadConfig this w) = w
  /\ Forall2
       (fun c s =>
          s = Section (fst c) (children s)
          /\ (forall p, In p (snd c) ->
                        represented (workspaceRoot this) p (children s))
          /\ (forall p q, In p (snd c) -> In q (snd c) ->
                          share_folders (workspaceRoot this) p q (children s))
          /\ (leaf_files (children s) ->
              forall p, In p (snd c) ->
                        through_folders (removelast (split path_sep p)) (children s)))
       ctxs (_items (fst (loadConfig this w))).
Proof.
  intros Hws Hcfg Hsf Hgrouped Hctx Hnd.
  set (build := fun c : string * list string =>
         match add_paths w (workspaceRoot this) sf (fst c) (map JStr (snd c)) [] with
         | Ok l => l
         | Throw _ => []
         end).
  assert (Hbuild : forall c,
            add_paths w (workspaceRoot this) sf (fst c) (map JStr (snd c)) []
            = Ok (build c)
            /\ forall p, In p (snd c) -> represented (workspaceRoot this) p (build c)).
  { intros c. unfold build.
    destruct (add_paths_grouped w (workspaceRoot this) config sf (fst c) (snd c) []
                Hws Hcfg Hsf Hgrouped) as (acc' & -> & _ & Hnew).
    now split. }
  rewrite (loadConfig_built this w config sf ctxs build Hcfg Hsf Hctx Hnd)
    by (intros c _; apply Hbuild).
  split; [reflexivity|]. cbn [fst _items].
  clear Hctx Hnd. induction ctxs as [|c ctxs IH]; cbn [map]; constructor; auto.
  split; [reflexivity|]. cbn [children]. split; [apply Hbuild|]. split.
  - intros p q Hp Hq. apply represented_share; now apply Hbuild.
  - intros Hleaf p Hp.
    apply (placed_through_folders (workspaceRoot this) p); [|exact Hleaf|].
    + now apply Hbuild.
    + apply (add_paths_no_section _ _ _ _ _ _ (proj1 (Hbuild c))).
Qed.

(** C2, as the code has it.  In folder mode two paths of a context that
    share leading segments share the items of those segments:
    - whatever the document, below every section no two folders under the
      same parent have the same label, at any depth;
    - for a document whose contexts are lists of paths, and with
      [showFolders] true (or truthy), loading does not fail, there is one
      section per context, and every path of a context has its place below
      its section: its segments before the last lead, through the first
      item of that label at each level, to a level that holds the item of
      the last segment.  Two paths of the context whose folders start with
      the same segments reach one level by these segments, and both are
      placed below it.  Where the file items below the section have no
      children, the item of each leading segment is a folder, the only one
      of that label under its parent;
    - the document [{"A": ["x/y.ts", "x/z.ts"]}] loads into section [A] with
      the single folder [x], which holds the files [y.ts] and [z.ts] in
      that order. *)
Theorem shared_folders :
  (forall (this : TreeDataProvider) (w : World),
      Forall (fun s => distinct_folders (children s))
        (_items (fst (loadConfig this w))))
  /\ (forall (this : TreeDataProvider) (w : World) (config : json) (sf : option json)
             (ctxs : list (string * list string)),
        workspaceFolder w = Some (workspaceRoot this) ->
        read_config w (contexts_json (workspaceRoot this)) = Ok config ->
        showFolders_of config = Ok sf ->
        truthy sf = true ->
        get_prop config "contexts" = Some (JObj (typed_contexts ctxs)) ->
        NoDup (map fst ctxs) ->
        snd (loadConfig this w) = w
        /\ Forall2
             (fun c s =>
                s = Section (fst c) (children s)
                /\ (forall p, In p (snd c) ->
                              represented (workspaceRoot this) p (children s))
                /\ (forall p q, In p (snd c) -> In q (snd c) ->
                                share_folders (workspaceRoot this) p q (children s))
                /\ (leaf_files (children s) ->
                    forall p, In p (snd c) ->
                              through_folders (removelast (split path_sep p))
                                (children s)))
             ctxs (_items (fst (loadConfig this w))))
  /\ _items (fst (@loadConfig NodePosix (provider_at "/ws")
                    (workspace "/ws" shared_folder_doc)))
     = [Section "A"
          [Folder "x"
             [File "/ws/x/y.ts" "y.ts" "/ws/x/y.tsA" None None [];
              File "/ws/x/z.ts" "z.ts" "/ws/x/z.tsA" None None []]]].
Proof.
  split; [exact loadConfig_distinct|]. split; [exact grouped_tree|].
  vm_compute. reflexivity.
Qed.

(** C9.  The loop of [addToTree] takes the first item whose label is the
    current part, whatever its class, and goes on in its children: a turn
    for a part that is the label of the first item [it] of the level, be it
    a [File], places the remaining parts among the children of [it].  With
    the stored paths [a] and [a/b.ts], in this order, the file item [a] gets
    the file item [b.ts] as a child: not every [File] of the tree is a
    leaf. *)
Theorem file_items_reused_as_folders :
  (forall (file : result TreeItem) (it : TreeItem) (lv : list TreeItem)
          (next : string) (rest : list string),
      place file (label it :: next :: rest) (it :: lv)
      = do sub <- place file (next :: rest) (children it);
        Ok (with_children it sub :: lv))
  /\ _items (fst (@loadConfig NodePosix (provider_at "/ws")
                    (workspace "/ws" prefix_doc)))
     = [Section "A"
          [File "/ws/a" "a" "/ws/aA" None None
             [File "/ws/a/b.ts" "b.ts" "/ws/a/b.tsA" None None []]]]
  /\ ~ every_item (fun it => is_File it = true -> children it = [])
         (_items (fst (@loadConfig NodePosix (provider_at "/ws")
                         (workspace "/ws" prefix_doc)))).
Proof.
  split; [|split].
  - intros file it lv next rest. rewrite place_inner. apply enter_first.
  - vm_compute. reflexivity.
  - assert (E : _items (fst (@loadConfig NodePosix (provider_at "/ws")
                               (workspace "/ws" prefix_doc)))
      = [Section "A"
          [File "/ws/a" "a" "/ws/aA" None None
             [File "/ws/a/b.ts" "b.ts" "/ws/a/b.tsA" None None []]]])
      by (vm_compute; reflexivity).
    rewrite E. intros H. inversion H as [|? ? _ Hc _]; subst.
    cbn [children] in Hc. inversion Hc as [|? ? Hleaf _ _]; subst.
    discriminate (Hleaf eq_refl).
Qed.

End Grouped.

Lemma shared_folders_witness :
  let w := workspace "/ws" shared_folder_doc in
  workspaceFolder w = Some "/ws"
  /\ read_config w (contexts_json "/ws") = Ok shared_folder_doc
  /\ showFolders_of shared_folder_doc = Ok (Some (JBool true))
  /\ get_prop shared_folder_doc "contexts"
     = Some (JObj (typed_contexts [("A", ["x/y.ts"; "x/z.ts"])]))
  /\ snd (loadConfig (provider_at "/ws") w) = w
  /\ Forall2
       (fun c s =>
          s = Section (fst c) (children s)
          /\ (forall p, In p (snd c) -> represented "/ws" p (children s))
          /\ (forall p q, In p (snd c) -> In q (snd c) ->
                          share_folders "/ws" p q (children s))
          /\ (leaf_files (children s) ->
              forall p, In p (snd c) ->
                        through_folders (removelast (split path_sep p)) (children s)))
       [("A", ["x/y.ts"; "x/z.ts"])]
       (_items (fst (loadConfig (provider_at "/ws") w))).
Proof.
  intros w.
  assert (H1 : read_config w (contexts_json "/ws") = Ok shared_folder_doc)
    by (vm_compute; reflexivity).
  assert (Hnd : NoDup (map fst [("A", ["x/y.ts"; "x/z.ts"])]))
    by (apply (bool_decide_unpack _); vm_compute; exact I).
  split; [reflexivity|]. split; [exact H1|]. split; [reflexivity|].
  split; [reflexivity|].
  exact (proj1 (proj2 (shared_folders (platform := NodePosix)))
           (provider_at "/ws") w shared_folder_doc (Some (JBool true))
           [("A", ["x/y.ts"; "x/z.ts"])] eq_refl H1 eq_refl eq_refl eq_refl Hnd).
Defined.

(** C2 as stated fails: [a/b.ts] and [a/c.ts] share the segment [a], the
    stored path [a] comes first, and the section holds no folder: both
    files are children of the file item [a]. *)
Lemma shared_segment_without_folder :
  let items :=
    _items (fst (loadConfig (provider_at "/ws") (workspace "/ws" prefix_of_two_doc))) in
  showFolders_of prefix_of_two_doc = Ok (Some (JBool true))
  /\ removelast (split path_sep "a/b.ts") = ["a"]
  /\ removelast (split path_sep "a/c.ts") = ["a"]
  /\ items
     = [Section "A"
          [File "/ws/a" "a" "/ws/aA" None None
             [File "/ws/a/b.ts" "b.ts" "/ws/a/b.tsA" None None [];
              File "/ws/a/c.ts" "c.ts" "/ws/a/c.tsA" None None []]]]
  /\ Forall (fun s => folder_labels (children s) = []
                      /\ ~ through_folders ["a"] (children s)) items.
Proof.
  assert (E : _items (fst (loadConfig (provider_at "/ws")
                             (workspace "/ws" prefix_of_two_doc)))
     = [Section "A"
          [File "/ws/a" "a" "/ws/aA" None None
             [File "/ws/a/b.ts" "b.ts" "/ws/a/b.tsA" None None [];
              File "/ws/a/c.ts" "c.ts" "/ws/a/c.tsA" None None []]]])
    by (vm_compute; reflexivity).
  cbv zeta. rewrite E.
  split; [reflexivity|]. split; [reflexivity|]. split; [reflexivity|].
  split; [reflexivity|].
  constructor; [|constructor]. split; [reflexivity|].
  cbn. intros [H _]. discriminate.
Qed.

(* ================================================================= *)
(** ** Reloading *)

Section Reload.
Context {platform : Platform}.








Lemma add_sections_complete (w : World) (root : string) (sf contexts : option json)
    (names : list string) (items items' : list TreeItem) :
  add_sections w root sf contexts names items = (items', None) ->
  map label items' = map label items ++ names.
Proof.
  revert items. induction names as [|n names IH]; intros items; cbn [add_sections].
  - intros H. injection H as <-. now rewrite app_nil_r.
  - destruct (do paths <- _; _) as [sectionItems|e]; [|discriminate].
    intros H. rewrite (IH _ H), map_app, <- app_assoc. reflexivity.
Qed.

Lemma not_longer {A} (l more : list A) : more <> [] -> l ++ more <> l.
Proof.
  intros Hne H. apply (f_equal (@length A)) in H. rewrite length_app in H.
  destruct more; [contradiction | cbn in H; lia].
Qed.

(** X2.  A load that shows no message is complete: the configuration file was
    read, and the root items are one section for every key of its [contexts]
    member, in the order of the keys, whatever the values are. *)
Theorem quiet_load_is_complete (this : TreeDataProvider) (w : World) :
  notifications (snd (loadConfig this w)) = notifications w ->
  exists config,
    read_config w (contexts_json (workspaceRoot this)) = Ok config
    /\ map label (_items (fst (loadConfig this w)))
       = own_keys (get_prop config "contexts")
    /\ snd (loadConfig this w) = w.
Proof.
  unfold loadConfig. destruct (existsSync w _).
  2:{ cbn [snd notifications showMessage]. intros H.
      now apply not_longer in H. }
  unfold handleLoadConfig.
  destruct (read_config w _) as [config|e].
  2:{ cbn [snd notifications showMessage]. rewrite <- app_assoc. intros H.
      now apply not_longer in H. }
  destruct (showFolders_of config) as [sf|e].
  2:{ cbn [snd notifications showMessage]. rewrite <- app_assoc. intros H.
      now apply not_longer in H. }
  destruct (add_sections w _ sf _ _ []) as [items [e|]] eqn:Hadd.
  { cbn [snd notifications showMessage]. rewrite <- app_assoc. intros H.
    now apply not_longer in H. }
  intros _. exists config. cbn [fst snd _items].
  split; [reflexivity|]. split; [|reflexivity].
  now apply add_sections_complete in Hadd.
Qed.

End Reload.

Lemma quiet_load_is_complete_witness :
  let w := workspace "/ws" noted_doc in
  notifications (snd (loadConfig (provider_at "/ws") w)) = notifications w
  /\ exists config,
       read_config w (contexts_json "/ws") = Ok config
       /\ map label (_items (fst (loadConfig (provider_at "/ws") w)))
          = own_keys (get_prop config "contexts")
       /\ snd (loadConfig (provider_at "/ws") w) = w.
Proof.
  intros w.
  assert (H : notifications (snd (loadConfig (provider_at "/ws") w)) = notifications w)
    by (vm_compute; reflexivity).
  split; [exact H|].
  exact (quiet_load_is_complete (provider_at "/ws") w H).
Defined.

(* ================================================================= *)
(** ** Classes and fields of the items *)

Section Classes.
Context {platform : Platform}.

Lemma tooltip_with_children (it : TreeItem) (c : list TreeItem) :
  tooltip_of (with_children it c) = tooltip_of it.
Proof. now destruct it. Qed.

Lemma id_with_children (it : TreeItem) (c : list TreeItem) :
  id_of (with_children it c) = id_of it.
Proof. now destruct it. Qed.

Lemma every_item_children (P : TreeItem -> Prop) (l : list TreeItem) :
  every_item P l ->
  Forall P l /\ every_item (fun it => Forall P (children it)) l.
Proof.
  intros H. induction H as [|it l Hq Hc [IHc1 IHc2] Hl [IHl1 IHl2]].
  - split; constructor.
  - split; constructor; assumption.
Qed.

(** The root items are the sections that the outer loop has pushed. *)
Lemma loadConfig_roots (this : TreeDataProvider) (w : World) :
  Forall (fun s => s = Section (label s) (children s))
    (_items (fst (loadConfig this w))).
Proof.
  unfold loadConfig. destruct (existsSync w _); [|constructor].
  destruct (handleLoadConfig w _ _ []) as [items r] eqn:Hh.
  assert (Forall (fun s => s = Section (label s) (children s)) items).
  { unfold handleLoadConfig in Hh.
    destruct (read_config w _) as [config|e]; [|injection Hh as <- <-; constructor].
    destruct (showFolders_of config) as [sf|e]; [|injection Hh as <- <-; constructor].
    now apply add_sections_grows in Hh as (done & -> & _ & Hsec). }
  now destruct r.
Qed.

Lemma loadConfig_below_roots (this : TreeDataProvider) (w : World) :
  Forall (fun s => every_item (fun it => is_Section it = false) (children s))
    (_items (fst (loadConfig this w))).
Proof.
  apply (loadConfig_kept w (every_item (fun it => is_Section it = false))).
  - constructor.
  - intros fp name parts level level'. apply place_every_item.
    + intros it c H. now destruct it.
    + reflexivity.
    + intros fp' name' f Hf. apply new_File_shape in Hf as (? & ? & _ & _ & ->).
      reflexivity.
  - intros fp name f level. apply push_every_item.
    intros fp' name' f' Hf. apply new_File_shape in Hf as (? & ? & _ & _ & ->).
    reflexivity.
Qed.

(** X3.  What the view gets from [getChildren] after a load, whatever the
    configuration file holds: the root items are sections, and no item of the
    tree, at any depth, has a section among its children. *)
Theorem sections_at_root_only (this : TreeDataProvider) (w : World) :
  let this' := fst (loadConfig this w) in
  Forall (fun s => is_Section s = true) (getChildren this' None)
  /\ every_item
       (fun it => Forall (fun c => is_Section c = false) (getChildren this' (Some it)))
       (getChildren this' None).
Proof.
  cbv zeta. cbn [getChildren]. split.
  - eapply Forall_impl; [apply loadConfig_roots|].
    intros s Hs. cbn beta in Hs. now rewrite Hs.
  - apply every_item_sections.
    + eapply Forall_impl; [apply loadConfig_below_roots|].
      intros s Hs. now apply every_item_children in Hs as [Hs _].
    + eapply Forall_impl; [apply loadConfig_below_roots|].
      intros s Hs. now apply every_item_children in Hs as [_ Hs].
Qed.

(** *** Properties of items that depend on the context *)

Lemma place_every (Q : TreeItem -> Prop) (file : result TreeItem)
    (parts : list string) (level level' : list TreeItem) :
  (forall it c, Q it -> Q (with_children it c)) ->
  (forall l c, Q (Folder l c)) ->
  (forall f, file = Ok f -> Q f /\ children f = []) ->
  every_item Q level ->
  place file parts level = Ok level' ->
  every_item Q level'.
Proof.
  intros Q_children Q_folder Q_file.
  revert level level'. induction parts as [|part rest IH]; intros level level' Hl.
  - intros H. now injection H as <-.
  - destruct rest as [|next rest].
    + rewrite place_last. destruct (has_label part level).
      * intros H. now injection H as <-.
      * destruct file as [f|e]; cbn [bind]; [|discriminate].
        intros H. injection H as <-.
        destruct (Q_file f eq_refl) as [Hq Hc].
        apply every_item_app. split; [exact Hl|].
        constructor; [exact Hq | rewrite Hc; constructor | constructor].
    + rewrite place_inner. intros H.
      apply enter_result in H
        as [(pre & it & post & sub & -> & _ & _ & Hk & ->) | (_ & sub & Hk & ->)].
      * apply every_item_app in Hl as [Hpre Hit].
        inversion Hit as [|? ? Hq Hc Hpost]; subst.
        apply every_item_app. split; [exact Hpre|].
        constructor; [now apply Q_children | | exact Hpost].
        rewrite children_with_children. now apply (IH _ _ Hc Hk).
      * apply every_item_app. split; [exact Hl|].
        constructor; [apply Q_folder | | constructor].
        cbn [children]. apply (IH [] sub); [constructor | exact Hk].
Qed.

Section In_context.
Variable w : World.
Variable Q : string -> TreeItem -> Prop.
Hypothesis Q_children : forall name it c, Q name it -> Q name (with_children it c).
Hypothesis Q_folder : forall name l c, Q name (Folder l c).
Hypothesis Q_file : forall name fp f, new_File w fp name = Ok f -> Q name f.

Lemma addToTree_in_context (root : string) (parent parent' : list TreeItem)
    (fullPath : option json) (contextName : string) :
  every_item (Q contextName) parent ->
  addToTree w root parent fullPath contextName = Ok parent' ->
  every_item (Q contextName) parent'.
Proof.
  intros Hinv. unfold addToTree.
  destruct (as_string fullPath) as [p|e]; cbn [bind]; [|discriminate].
  destruct (read_config w _) as [config|e]; cbn [bind]; [|discriminate].
  destruct (showFolders_of config) as [sf|e]; cbn [bind]; [|discriminate].
  assert (Hfile : forall f, new_File w (path_join (root :: split path_sep p)) contextName
                            = Ok f -> Q contextName f /\ children f = []).
  { intros f Hf. split; [now apply (Q_file _ _ _ Hf)|].
    apply new_File_shape in Hf as (? & ? & _ & _ & ->). reflexivity. }
  destruct (truthy sf).
  - apply place_every; auto.
  - destruct (new_File w _ contextName) as [f|e]; cbn [bind]; [|discriminate].
    intros H. injection H as <-. destruct (Hfile f eq_refl) as [Hq Hc].
    apply every_item_app. split; [exact Hinv|].
    constructor; [exact Hq | rewrite Hc; constructor | constructor].
Qed.

Lemma add_paths_in_context (root : string) (sf : option json) (contextName : string)
    (paths : list json) (acc acc' : list TreeItem) :
  every_item (Q contextName) acc ->
  add_paths w root sf contextName paths acc = Ok acc' ->
  every_item (Q contextName) acc'.
Proof.
  revert acc. induction paths as [|p paths IH]; intros acc Hinv; cbn [add_paths].
  - intros H. now injection H as <-.
  - destruct (shown sf p) as [keep|e]; cbn [bind]; [|discriminate].
    destruct keep.
    + destruct (addToTree w root acc (Some p) contextName) as [acc1|e] eqn:Hadd;
        cbn [bind]; [|discriminate].
      apply IH. now apply (addToTree_in_context _ _ _ _ _ Hinv Hadd).
    + cbn [bind]. now apply IH.
Qed.

Lemma add_sections_in_context (root : string) (sf contexts : option json)
    (names : list string) (items items' : list TreeItem) (r : option js_error) :
  Forall (fun s => every_item (Q (label s)) (children s)) items ->
  add_sections w root sf contexts names items = (items', r) ->
  Forall (fun s => every_item (Q (label s)) (children s)) items'.
Proof.
  revert items. induction names as [|n names IH]; intros items Hinv; cbn [add_sections].
  - intros H. now injection H as <- <-.
  - destruct (do paths <- _; _) as [sectionItems|e] eqn:Hsec.
    + apply IH. apply Forall_app. split; [exact Hinv|].
      constructor; [|constructor]. cbn [children label].
      destruct (bind (member contexts n) iterate) as [paths|e]; cbn [bind] in Hsec;
        [|discriminate].
      apply (add_paths_in_context _ _ _ _ _ _ (every_item_nil _) Hsec).
    + intros H. now injection H as <- <-.
Qed.

Lemma loadConfig_in_context (this : TreeDataProvider) :
  Forall (fun s => every_item (Q (label s)) (children s))
    (_items (fst (loadConfig this w))).
Proof.
  unfold loadConfig. destruct (existsSync w _); [|constructor].
  destruct (handleLoadConfig w _ _ []) as [items r] eqn:Hh.
  assert (Forall (fun s => every_item (Q (label s)) (children s)) items).
  { unfold handleLoadConfig in Hh.
    destruct (read_config w _) as [config|e].
    - destruct (showFolders_of config) as [sf|e].
      + apply (add_sections_in_context _ _ _ _ _ _ _ (Forall_nil_2 _) Hh).
      + injection Hh as <- <-. constructor.
    - injection Hh as <- <-. constructor. }
  now destruct r.
Qed.

End In_context.

(** X4.  Every file item below a section, at any depth, is labelled with the
    base name of its path, and its [id] is its path followed by the name of the
    section. *)
Theorem file_items_named (this : TreeDataProvider) (w : World) :
  Forall
    (fun s =>
       every_item
         (fun it => forall fp, filePath_of it = Some (JStr fp) ->
            label it = path_basename fp /\ id_of it = Some (fp +:+ label s))
         (children s))
    (_items (fst (loadConfig this w))).
Proof.
  apply (loadConfig_in_context w
           (fun name it => forall fp, filePath_of it = Some (JStr fp) ->
              label it = path_basename fp /\ id_of it = Some (fp +:+ name))).
  - intros name it c H fp Hfp. rewrite filePath_with_children in Hfp.
    rewrite label_with_children, id_with_children. now apply H.
  - intros name l c fp Hfp. discriminate.
  - intros name fp0 f Hf fp Hfp.
    apply new_File_shape in Hf as (config & sf & _ & _ & ->).
    cbn [File_fields filePath_of] in Hfp. injection Hfp as <-.
    split; reflexivity.
Qed.

Lemma loadConfig_hovered (this : TreeDataProvider) (w : World) (config : json) :
  read_config w (contexts_json (workspaceFolder_or_empty w)) = Ok config ->
  every_item (hovered config (workspaceFolder_or_empty w))
    (_items (fst (loadConfig this w))).
Proof.
  intros Hcfg. apply loadConfig_every_item.
  - intros it c H fp Hfp. rewrite filePath_with_children in Hfp.
    rewrite tooltip_with_children. now apply H.
  - intros l c fp Hfp. discriminate.
  - intros fp0 contextName f Hf fp Hfp.
    apply new_File_shape in Hf as (config' & sf & Hcfg' & _ & ->).
    rewrite Hcfg in Hcfg'. injection Hcfg' as <-.
    cbn [File_fields filePath_of] in Hfp. injection Hfp as <-.
    unfold File_fields. cbn [tooltip_of]. cbv zeta.
    destruct (note_of config _) as [n|]; [|reflexivity].
    now destruct (truthy_value (Some n)).
  - intros l c fp Hfp. discriminate.
Qed.


End Classes.


(* ================================================================= *)
(** ** A path that has its place already *)

Section Again.
Context {platform : Platform}.

Lemma with_children_same (it : TreeItem) : with_children it (children it) = it.
Proof. now destruct it. Qed.

Lemma enter_at (k : list TreeItem -> result (list TreeItem)) (part : string)
    (pre post : list TreeItem) (it : TreeItem) :
  has_label part pre = false -> label it = part ->
  enter k part (pre ++ it :: post)
  = do sub <- k (children it); Ok (pre ++ with_children it sub :: post).
Proof.
  intros Hpre Hit. induction pre as [|a pre IH]; cbn [app enter].
  - apply String.eqb_eq in Hit. now rewrite Hit.
  - cbn [has_label existsb] in Hpre. apply orb_false_elim in Hpre as [Ha Hpre].
    rewrite Ha, (IH Hpre). now destruct (k (children it)).
Qed.

Lemma find_split (d : string) (level : list TreeItem) (it : TreeItem) :
  List.find (by_label d) level = Some it ->
  exists pre post,
    level = pre ++ it :: post /\ has_label d pre = false /\ label it = d.
Proof.
  induction level as [|a level IH]; cbn [List.find]; [discriminate|].
  unfold by_label at 1. destruct (String.eqb_spec (label a) d) as [Ha|Ha].
  - intros H. injection H as <-. now exists [], level.
  - intros H. destruct (IH H) as (pre & post & -> & Hpre & Hit).
    exists (a :: pre), post. cbn [has_label existsb app].
    apply String.eqb_neq in Ha. unfold has_label in Hpre. now rewrite Ha, Hpre.
Qed.

Lemma find_at (d : string) (pre post : list TreeItem) (it : TreeItem) :
  has_label d pre = false -> label it = d ->
  List.find (by_label d) (pre ++ it :: post) = Some it.
Proof.
  intros Hpre Hit. rewrite find_app_label, (find_none _ _ Hpre).
  cbn [List.find]. unfold by_label. apply String.eqb_eq in Hit. now rewrite Hit.
Qed.

(** The loop of [addToTree] for a path that is present: the level stays as
    it is, and the file is not constructed. *)
Lemma place_present (file : result TreeItem) (parts : list string)
    (level : list TreeItem) :
  parts <> [] ->
  present (removelast parts) (List.last parts "") level ->
  place file parts level = Ok level.
Proof.
  revert level. induction parts as [|part rest IH]; intros level Hne; [contradiction|].
  destruct rest as [|next rest]; intros (lvl & Hloc & Hlabel).
  - cbn [removelast locate] in Hloc. injection Hloc as <-.
    cbn [List.last] in Hlabel. now rewrite place_last, Hlabel.
  - change (removelast (part :: next :: rest))
      with (part :: removelast (next :: rest)) in Hloc.
    change (List.last (part :: next :: rest) "")
      with (List.last (next :: rest) "") in Hlabel.
    rewrite locate_cons in Hloc.
    destruct (List.find (by_label part) level) as [it|] eqn:Hfind; [|discriminate].
    destruct (find_split _ _ _ Hfind) as (pre & post & -> & Hpre & Hit).
    rewrite place_inner, (enter_at _ _ _ _ _ Hpre Hit).
    rewrite (IH (children it)); [|discriminate | now exists lvl].
    cbn [bind]. now rewrite with_children_same.
Qed.

(** After the loop the path is present, when the file it pushes is labelled
    with the last segment. *)
Lemma place_makes_present (file : result TreeItem) (parts : list string)
    (level level' : list TreeItem) :
  parts <> [] ->
  (forall f, file = Ok f -> label f = List.last parts "") ->
  place file parts level = Ok level' ->
  present (removelast parts) (List.last parts "") level'.
Proof.
  revert level level'.
  induction parts as [|part rest IH]; intros level level' Hne Hfile; [contradiction|].
  destruct rest as [|next rest].
  - rewrite place_last. cbn [removelast List.last] in *.
    destruct (has_label part level) eqn:Hlabel.
    + intros H. injection H as <-. now exists level.
    + destruct file as [f|e]; cbn [bind]; [|discriminate].
      intros H. injection H as <-. exists (level ++ [f]). split; [reflexivity|].
      unfold has_label. rewrite existsb_app. cbn [existsb].
      rewrite (Hfile f eq_refl), String.eqb_refl. now rewrite orb_true_r.
  - change (removelast (part :: next :: rest))
      with (part :: removelast (next :: rest)).
    change (List.last (part :: next :: rest) "")
      with (List.last (next :: rest) "") in *.
    rewrite place_inner. intros H.
    apply enter_result in H
      as [(pre & it & post & sub & -> & Hpre & Hit & Hk & ->) | (Hnone & sub & Hk & ->)].
    + destruct (IH _ _ ltac:(discriminate) Hfile Hk) as (lvl & Hloc & Hlabel).
      exists lvl. split; [|exact Hlabel].
      rewrite locate_cons, (find_at _ _ _ (with_children it sub) Hpre)
        by now rewrite label_with_children.
      now rewrite children_with_children.
    + destruct (IH _ _ ltac:(discriminate) Hfile Hk) as (lvl & Hloc & Hlabel).
      exists lvl. split; [|exact Hlabel].
      now rewrite locate_cons, (find_at _ _ _ (Folder part sub) Hnone eq_refl).
Qed.

(** X6.  In folder mode [addToTree] leaves the array as it is for a path that is
    present in it: the segments before the last lead, through the first item of
    each label, to a level with an item labelled with the last segment. No
    [File] is constructed, so the call returns even where the constructor would
    throw. *)
Theorem addToTree_present (w : World) (root : string) (config : json)
    (sf : option json) (parent : list TreeItem) (p contextName : string) :
  read_config w (contexts_json root) = Ok config ->
  showFolders_of config = Ok sf ->
  truthy sf = true ->
  present (removelast (split path_sep p)) (List.last (split path_sep p) "") parent ->
  addToTree w root parent (Some (JStr p)) contextName = Ok parent.
Proof.
  intros Hcfg Hsf Htrue Hpresent.
  rewrite (addToTree_grouped _ _ _ _ _ _ _ Hcfg Hsf Htrue).
  apply place_present; [apply split_not_nil | exact Hpresent].
Qed.

(** X7.  In folder mode a second [addToTree] for the same path adds nothing,
    when the base name of the absolute path is the last segment of the stored
    path. *)
Theorem addToTree_twice (w : World) (root : string) (config : json)
    (sf : option json) (parent parent' : list TreeItem) (p contextName : string) :
  read_config w (contexts_json root) = Ok config ->
  showFolders_of config = Ok sf ->
  truthy sf = true ->
  path_basename (absolute root p) = List.last (split path_sep p) "" ->
  addToTree w root parent (Some (JStr p)) contextName = Ok parent' ->
  addToTree w root parent' (Some (JStr p)) contextName = Ok parent'.
Proof.
  intros Hcfg Hsf Htrue Hbase.
  rewrite !(addToTree_grouped _ _ _ _ _ _ _ Hcfg Hsf Htrue).
  intros Hplace. apply place_present; [apply split_not_nil|].
  apply (place_makes_present _ _ _ _ (split_not_nil p)) in Hplace; [exact Hplace|].
  intros f Hf. apply new_File_shape in Hf as (? & ? & _ & _ & ->).
  cbn [File_fields label]. exact Hbase.
Qed.

End Again.

Lemma addToTree_present_witness :
  let w := workspace "/ws" shared_folder_doc in
  let parent := [Folder "x" [Folder "y.ts" []]] in
  read_config w (contexts_json "/ws") = Ok shared_folder_doc
  /\ present (removelast (split path_sep "x/y.ts")) (List.last (split path_sep "x/y.ts") "")
       parent
  /\ addToTree w "/ws" parent (Some (JStr "x/y.ts")) "A" = Ok parent.
Proof.
  intros w parent.
  assert (H1 : read_config w (contexts_json "/ws") = Ok shared_folder_doc)
    by (vm_compute; reflexivity).
  assert (H2 : present (removelast (split path_sep "x/y.ts"))
                 (List.last (split path_sep "x/y.ts") "") parent)
    by (exists [Folder "y.ts" []]; split; reflexivity).
  split; [exact H1|]. split; [exact H2|].
  exact (addToTree_present w "/ws" shared_folder_doc (Some (JBool true)) parent
           "x/y.ts" "A" H1 eq_refl eq_refl H2).
Defined.

Lemma addToTree_twice_witness :
  let w := workspace "/ws" shared_folder_doc in
  let parent' := [Folder "x" [File "/ws/x/y.ts" "y.ts" "/ws/x/y.tsA" None None []]] in
  read_config w (contexts_json "/ws") = Ok shared_folder_doc
  /\ path_basename (absolute "/ws" "x/y.ts") = List.last (split path_sep "x/y.ts") ""
  /\ addToTree w "/ws" [] (Some (JStr "x/y.ts")) "A" = Ok parent'
  /\ addToTree w "/ws" parent' (Some (JStr "x/y.ts")) "A" = Ok parent'.
Proof.
  intros w parent'.
  assert (H1 : read_config w (contexts_json "/ws") = Ok shared_folder_doc)
    by (vm_compute; reflexivity).
  assert (H2 : path_basename (absolute "/ws" "x/y.ts")
               = List.last (split path_sep "x/y.ts") "")
    by (vm_compute; reflexivity).
  assert (H3 : addToTree w "/ws" [] (Some (JStr "x/y.ts")) "A" = Ok parent')
    by (vm_compute; reflexivity).
  split; [exact H1|]. split; [exact H2|]. split; [exact H3|].
  exact (addToTree_twice w "/ws" shared_folder_doc (Some (JBool true)) [] parent'
           "x/y.ts" "A" H1 eq_refl eq_refl H2 H3).
Defined.

(* ================================================================= *)
(** ** What the add-note command leaves alone *)

Section Frame.
Context {platform : Platform}.

Lemma keys_replace (k : string) (v : json) (ps : list (string * json)) :
  map fst (props_replace k v ps) = map fst ps.
Proof.
  induction ps as [|[k' v'] ps IH]; cbn [props_replace map fst]; [reflexivity|].
  destruct (String.eqb k' k); cbn [map fst]; [reflexivity | now rewrite IH].
Qed.

Lemma other_keys_insert_index (n : N) (k : string) (v : json)
    (ps : list (string * json)) :
  List.filter (fun k' => negb (String.eqb k' k)) (map fst (props_insert_index n k v ps))
  = List.filter (fun k' => negb (String.eqb k' k)) (map fst ps).
Proof.
  assert (Hhead : forall qs : list (string * json),
            List.filter (fun k' => negb (String.eqb k' k)) (map fst ((k, v) :: qs))
            = List.filter (fun k' => negb (String.eqb k' k)) (map fst qs)).
  { intros qs. cbn [map fst List.filter]. now rewrite String.eqb_refl. }
  induction ps as [|[k' v'] ps IH]; cbn [props_insert_index]; [apply Hhead|].
  destruct (array_index k') as [m|]; [|apply Hhead].
  destruct (m <? n)%N; [|apply Hhead].
  cbn [map fst List.filter]. now rewrite IH.
Qed.

Lemma other_keys_set (k : string) (v : json) (ps : list (string * json)) :
  List.filter (fun k' => negb (String.eqb k' k)) (map fst (props_set k v ps))
  = List.filter (fun k' => negb (String.eqb k' k)) (map fst ps).
Proof.
  unfold props_set. destruct (has_key k ps); [now rewrite keys_replace|].
  destruct (array_index k) as [n|]; [apply other_keys_insert_index|].
  rewrite map_app, List.filter_app. cbn [map fst List.filter].
  rewrite String.eqb_refl. cbn [negb]. apply app_nil_r.
Qed.

Lemma other_keys_delete (k : string) (ps : list (string * json)) :
  List.filter (fun k' => negb (String.eqb k' k)) (map fst (props_delete k ps))
  = List.filter (fun k' => negb (String.eqb k' k)) (map fst ps).
Proof.
  unfold props_delete.
  induction ps as [|[k' v'] ps IH]; cbn [List.filter map fst]; [reflexivity|].
  destruct (String.eqb k' k) eqn:E; cbn [negb map fst List.filter]; [exact IH|].
  rewrite E. cbn [negb]. now rewrite IH.
Qed.

Lemma no_keys_no_entry (nps : list (string * json)) (k : string) :
  length (map fst nps) = 0 -> props_get k nps = None.
Proof. destruct nps; [reflexivity | discriminate]. Qed.

(** X8.  The document the command writes differs from the one it read in the
    [notes] member only: every other member has its value and its place among
    the keys. Where [notes] was an object, or was missing or falsy, the notes of
    the other paths are kept as well. *)
Theorem note_update_frame (config config2 : json) (rel note : string) :
  updated_config config rel note = Ok config2 ->
  (forall k, k <> "notes" -> get_prop config2 k = get_prop config k)
  /\ List.filter (fun k => negb (String.eqb k "notes")) (own_keys (Some config2))
     = List.filter (fun k => negb (String.eqb k "notes")) (own_keys (Some config))
  /\ (forall nps,
        get_prop config "notes" = Some (JObj nps)
        \/ (truthy (get_prop config "notes") = false /\ nps = []) ->
        forall k, k <> rel -> note_entry config2 k = props_get k nps).
Proof.
  unfold updated_config. destruct (init_notes config) as [config1|e] eqn:Hinit;
    [cbn [bind]|discriminate].
  apply init_notes_object in Hinit
    as (ps & ps1 & notes1 & -> & -> & Hget1 & Htruthy & Hcase).
  assert (A1 : forall k, k <> "notes" -> props_get k ps1 = props_get k ps).
  { intros k Hk. destruct Hcase as [[_ ->] | (_ & -> & _)]; [reflexivity|].
    apply get_set_other. congruence. }
  assert (A2 : List.filter (fun k => negb (String.eqb k "notes")) (map fst ps1)
               = List.filter (fun k => negb (String.eqb k "notes")) (map fst ps)).
  { destruct Hcase as [[_ ->] | (_ & -> & _)]; [reflexivity|]. apply other_keys_set. }
  assert (A3 : forall nps,
             get_prop (JObj ps) "notes" = Some (JObj nps)
             \/ (truthy (get_prop (JObj ps) "notes") = false /\ nps = []) ->
             notes1 = JObj nps).
  { intros nps H. cbn [get_prop] in H.
    destruct Hcase as [[Ht ->] | (Hf & _ & ->)], H as [H | [H ->]]; try congruence.
    rewrite H in Hf. discriminate. }
  unfold apply_note. cbn [member bind get_prop]. rewrite Hget1.
  destruct (String.eqb_spec note "") as [->|Hnote].
  - destruct (delete_prop notes1 rel) as [notes'|e] eqn:Hdel;
      cbn [bind]; [|discriminate].
    destruct (length (own_keys (Some notes')) =? 0)%nat eqn:Hkeys.
    + cbn [store_notes delete_prop]. intros H. injection H as <-.
      split; [|split].
      * intros k Hk. cbn [get_prop].
        rewrite get_delete_other, get_replace_other by congruence. now apply A1.
      * cbn [own_keys]. now rewrite other_keys_delete, keys_replace.
      * intros nps H k Hk. rewrite (A3 nps H) in Hdel.
        cbn [delete_prop] in Hdel. injection Hdel as <-.
        unfold note_entry. cbn [get_prop]. rewrite get_delete_same.
        apply Nat.eqb_eq in Hkeys. cbn [own_keys] in Hkeys.
        rewrite <- (get_delete_other rel k nps) by exact (not_eq_sym Hk).
        symmetry. now apply no_keys_no_entry.
    + intros H. injection H as <-. cbn [store_notes]. split; [|split].
      * intros k Hk. cbn [get_prop]. rewrite get_replace_other by congruence.
        now apply A1.
      * cbn [own_keys]. now rewrite keys_replace.
      * intros nps H k Hk. rewrite (A3 nps H) in Hdel.
        cbn [delete_prop] in Hdel. injection Hdel as <-.
        unfold note_entry. cbn [get_prop]. rewrite (store_notes_get _ _ _ Hget1).
        cbn [get_prop]. apply get_delete_other. exact (not_eq_sym Hk).
  - destruct (set_prop notes1 rel (JStr note)) as [notes'|e] eqn:Hset;
      cbn [bind]; [|discriminate].
    intros H. injection H as <-. cbn [store_notes]. split; [|split].
    + intros k Hk. cbn [get_prop]. rewrite get_replace_other by congruence.
      now apply A1.
    + cbn [own_keys]. now rewrite keys_replace.
    + intros nps H k Hk. rewrite (A3 nps H) in Hset.
      apply set_prop_get in Hset as [_ Hother].
      unfold note_entry. cbn [get_prop]. rewrite (store_notes_get _ _ _ Hget1).
      now rewrite (Hother k (not_eq_sym Hk)).
Qed.

End Frame.

Lemma note_update_frame_witness :
  updated_config noted_doc "x/z.ts" "later" = Ok noted_doc_later
  /\ get_prop noted_doc_later "contexts" = get_prop noted_doc "contexts"
  /\ note_entry noted_doc_later "x/y.ts" = Some (JStr "todo").
Proof.
  assert (H : updated_config noted_doc "x/z.ts" "later" = Ok noted_doc_later)
    by (vm_compute; reflexivity).
  split; [exact H|].
  destruct (note_update_frame noted_doc noted_doc_later "x/z.ts" "later" H)
    as (Hmembers & _ & Hnotes).
  split.
  - apply Hmembers. discriminate.
  - apply (Hnotes [("x/y.ts", JStr "todo"); ("b.ts", JStr "keep")]).
    + left. reflexivity.
    + discriminate.
Defined.

(* ================================================================= *)
(** ** How a run of the add-note command can end *)

Section Outcomes.
Context {platform : Platform}.

Lemma as_string_throws (v : option json) (e : js_error) :
  as_string v = Throw e -> e = TypeError.
Proof. destruct v as [[]|]; cbn; congruence. Qed.

Lemma member_throws (v : option json) (k : string) (e : js_error) :
  member v k = Throw e -> e = TypeError.
Proof. destruct v as [[]|]; cbn; congruence. Qed.

Lemma set_prop_throws (target : json) (k : string) (v : json) (e : js_error) :
  set_prop target k v = Throw e -> e = TypeError \/ e = OutsideFragment.
Proof.
  unfold set_prop. destruct target as [| | | | |ps];
    try (intros H; injection H as <-; auto).
  destruct (String.eqb k "__proto__" && negb (has_key k ps)); [|discriminate].
  destruct v; intros H; try discriminate; injection H as <-; auto.
Qed.

Lemma delete_prop_throws (target : json) (k : string) (e : js_error) :
  delete_prop target k = Throw e -> e = TypeError \/ e = OutsideFragment.
Proof.
  destruct target; cbn [delete_prop]; try discriminate.
  - intros H. injection H as <-. auto.
  - destruct (get_prop _ k); [|discriminate]. intros H. injection H as <-. auto.
  - destruct (get_prop _ k); [|discriminate].
    destruct (String.eqb k "length"); intros H; injection H as <-; auto.
Qed.

Lemma init_notes_throws (config : json) (e : js_error) :
  init_notes config = Throw e -> e = TypeError \/ e = OutsideFragment.
Proof.
  unfold init_notes.
  destruct (member (Some config) "notes") as [notes|e'] eqn:Hm; cbn [bind].
  - destruct (truthy notes); [discriminate | apply set_prop_throws].
  - intros H. injection H as <-. left. now apply (member_throws _ _ _ Hm).
Qed.

Lemma existing_note_throws (config : json) (rel : string) (e : js_error) :
  existing_note config rel = Throw e -> e = TypeError.
Proof.
  unfold existing_note.
  destruct (member (Some config) "notes") as [notes|e'] eqn:Hm; cbn [bind].
  - destruct (member notes rel) as [n|e''] eqn:Hn; cbn [bind]; [discriminate|].
    intros H. injection H as <-. now apply (member_throws _ _ _ Hn).
  - intros H. injection H as <-. now apply (member_throws _ _ _ Hm).
Qed.

Lemma apply_note_throws (config : json) (rel note : string) (e : js_error) :
  apply_note config rel note = Throw e -> e = TypeError \/ e = OutsideFragment.
Proof.
  unfold apply_note.
  destruct (member (Some config) "notes") as [notes|e'] eqn:Hm; cbn [bind].
  2:{ intros H. injection H as <-. left. now apply (member_throws _ _ _ Hm). }
  destruct notes as [notes|]; [|intros H; injection H as <-; auto].
  destruct (String.eqb note "").
  - destruct (delete_prop notes rel) as [notes'|e'] eqn:Hd; cbn [bind].
    + destruct (_ =? 0)%nat; [apply delete_prop_throws | discriminate].
    + intros H. injection H as <-. now apply (delete_prop_throws _ _ _ Hd).
  - destruct (set_prop notes rel (JStr note)) as [notes'|e'] eqn:Hs; cbn [bind];
      [discriminate|].
    intros H. injection H as <-. now apply (set_prop_throws _ _ _ _ Hs).
Qed.

(** The ways a run can end: with an error message before the input box;
    rejected before the input box; after the input box, dismissed, rejected,
    stopped by a failed write, or complete. *)
Lemma addNote_outcomes (w : World) (fileItem : TreeItem) (answer : option string) :
  let run := addNoteToFileCommand w fileItem answer in
  (exists msg, run = (showMessage Error msg w, Resolved))
  \/ (exists e, run = (w, Rejected e) /\ (e = TypeError \/ e = OutsideFragment))
  \/ (exists rel existingNote,
        let w1 := showInputBox (note_box rel existingNote) w in
        (answer = None /\ run = (w1, Resolved))
        \/ (exists e, run = (w1, Rejected e) /\ (e = TypeError \/ e = OutsideFragment))
        \/ run = (showMessage Error "Error saving note to contexts.json" w1, Resolved)
        \/ (exists root note config2,
              workspaceFolder w = Some root /\ answer = Some note
              /\ existsSync w (contexts_json root) = true
              /\ run = (after_note root existingNote rel note config2 w, Resolved))).
Proof.
  cbv zeta. unfold addNoteToFileCommand.
  destruct (workspaceFolder w) as [[|a root]|] eqn:Hws; [left; eauto | | left; eauto].
  destruct (existsSync w _) eqn:Hexists; cbn [negb]; [|left; eauto].
  destruct (as_string (filePath_of fileItem)) as [p|e] eqn:Hp.
  2:{ right. left. exists e. split; [reflexivity|]. left.
      now apply (as_string_throws _ _ Hp). }
  destruct (read_config w _) as [config|e]; [|left; eauto].
  destruct (init_notes config) as [config1|e] eqn:Hinit; cbn [bind].
  2:{ right. left. exists e. split; [reflexivity|].
      now apply (init_notes_throws _ _ Hinit). }
  destruct (existing_note config1 _) as [existingNote|e] eqn:Hex; cbn [bind].
  2:{ right. left. exists e. split; [reflexivity|]. left.
      now apply (existing_note_throws _ _ _ Hex). }
  right. right. exists (path_relative (String a root) p), existingNote.
  fold (note_box (path_relative (String a root) p) existingNote).
  destruct answer as [note|]; [|left; auto].
  destruct (apply_note config1 _ note) as [config2|e] eqn:Happ.
  2:{ right. left. exists e. split; [reflexivity|].
      now apply (apply_note_throws _ _ _ _ Happ). }
  destruct (writeFileSync _ _ _) as [w2|e] eqn:Hwrite; [|right; right; left; reflexivity].
  right. right. right. exists (String a root), note, config2.
  split; [reflexivity|]. split; [reflexivity|]. split; [exact Hexists|].
  unfold writeFileSync, showInputBox in Hwrite. cbn [fs] in Hwrite.
  destruct (fs w !! _) as [[]|]; try discriminate; now injection Hwrite as <-.
Qed.

(** X9.  Whatever the world, the item and the answer, a run of the command
    leaves the workspace folder and every file other than the configuration file
    as they are, and creates no file; it changes the file system only in a run
    that also executes the refresh command; it executes no other command, shows
    at most one message and opens at most one input box. *)
Theorem command_touches_one_file (w : World) (fileItem : TreeItem)
    (answer : option string) :
  let w' := fst (addNoteToFileCommand w fileItem answer) in
  workspaceFolder w' = workspaceFolder w
  /\ (forall p, p <> contexts_json (workspaceFolder_or_empty w) ->
                fs w' !! p = fs w !! p)
  /\ (forall p, fs w !! p = None -> fs w' !! p = None)
  /\ (fs w' = fs w \/ commands w' = commands w ++ [refresh_command])
  /\ (commands w' = commands w \/ commands w' = commands w ++ [refresh_command])
  /\ length (notifications w') <= S (length (notifications w))
  /\ length (inputBoxes w') <= S (length (inputBoxes w)).
Proof.
  cbv zeta.
  destruct (addNote_outcomes w fileItem answer)
    as [[msg ->] | [(e & -> & _) | (rel & existingNote & H)]];
    cbn [fst fs workspaceFolder commands notifications inputBoxes showMessage];
    try rewrite length_app; cbn [length];
    try (repeat split; auto; lia).
  cbv zeta in H.
  destruct H
    as [[_ ->] | [(e & -> & _) | [-> | (root & note & config2 & Hws & _ & Hex & ->)]]];
    cbn [fst fs workspaceFolder commands notifications inputBoxes showMessage
         showInputBox after_note];
    rewrite ?length_app; cbn [length];
    try (repeat split; auto; lia).
  split; [reflexivity|]. split; [|split].
  - intros p Hp. unfold workspaceFolder_or_empty in Hp. rewrite Hws in Hp.
    now apply lookup_insert_ne.
  - intros p Hp. rewrite lookup_insert_ne; [exact Hp|].
    intros <-. rewrite (absent_not_exists _ _ Hp) in Hex. discriminate.
  - repeat split; auto; lia.
Qed.

(** X10.  A run of the command that ends in a rejected promise has written
    nothing, shown no message and executed no command; what is thrown is never
    an error of reading or parsing the file, those are caught. *)
Theorem rejected_run_is_silent (w w' : World) (fileItem : TreeItem)
    (answer : option string) (e : js_error) :
  addNoteToFileCommand w fileItem answer = (w', Rejected e) ->
  fs w' = fs w
  /\ workspaceFolder w' = workspaceFolder w
  /\ notifications w' = notifications w
  /\ commands w' = commands w
  /\ e <> FsError /\ (forall m, e <> SyntaxError m).
Proof.
  assert (Hsoft : forall e' : js_error,
            e' = TypeError \/ e' = OutsideFragment ->
            e' <> FsError /\ (forall m, e' <> SyntaxError m)).
  { intros e' [-> | ->]; split; try intros m; discriminate. }
  destruct (addNote_outcomes w fileItem answer)
    as [[msg ->] | [(e' & -> & He) | (rel & existingNote & H)]].
  - discriminate.
  - intros Heq. injection Heq as <- <-. repeat split; auto; now apply Hsoft.
  - cbv zeta in H.
    destruct H
      as [[_ ->] | [(e' & -> & He) | [-> | (root & note & config2 & _ & _ & _ & ->)]]];
      try discriminate.
    intros Heq. injection Heq as <- <-. repeat split; auto; now apply Hsoft.
Qed.

(** X11.  How the command stops before it has a document.  Without a
    workspace folder, or with an empty one, it shows [No workspace folder is
    open]; without a configuration file, [contexts.json file not found];
    for a file item, with a configuration file that cannot be read or
    parsed, [Error reading contexts.json]: in each case that one error
    message and nothing else, and the promise is resolved.  For an item
    without [filePath] and a configuration file that exists, read or not,
    the promise is rejected with a [TypeError] and nothing is shown. *)
Theorem command_without_document (w : World) (fileItem : TreeItem)
    (answer : option string) :
  let folder := workspaceFolder_or_empty w in
  let configPath := contexts_json folder in
  let run := addNoteToFileCommand w fileItem answer in
  (folder = "" -> run = (showMessage Error "No workspace folder is open" w, Resolved))
  /\ (folder <> "" -> existsSync w configPath = false ->
      run = (showMessage Error "contexts.json file not found" w, Resolved))
  /\ (folder <> "" -> existsSync w configPath = true ->
      is_File fileItem = true ->
      (forall config, read_config w configPath <> Ok config) ->
      run = (showMessage Error "Error reading contexts.json" w, Resolved))
  /\ (folder <> "" -> existsSync w configPath = true ->
      is_File fileItem = false ->
      run = (w, Rejected TypeError)).
Proof.
  cbv zeta. unfold workspaceFolder_or_empty, addNoteToFileCommand.
  destruct (workspaceFolder w) as [[|a root]|].
  - repeat split; try reflexivity; intros H; now contradiction H.
  - split; [discriminate|]. split; [|split]; intros _ Hex.
    + now rewrite Hex.
    + intros Hfile Hdoc. rewrite Hex. cbn [negb].
      destruct fileItem; try discriminate. cbn [filePath_of as_string].
      destruct (read_config w _) as [config|e]; [|reflexivity].
      now contradiction (Hdoc config).
    + intros Hfile. rewrite Hex. cbn [negb].
      now destruct fileItem; try discriminate.
  - repeat split; try reflexivity; intros H; now contradiction H.
Qed.

(** X12.  Where the configuration file can be read but not written, the command
    asks for the note, then shows one error message; the file is as it was and
    the refresh command is not executed. *)
Theorem unwritable_config_reported (w : World) (fileItem : TreeItem)
    (root p old note : string) (config config2 : json) :
  workspaceFolder w = Some root ->
  root <> "" ->
  fs w !! contexts_json root = Some (ReadOnly old) ->
  filePath_of fileItem = Some (JStr p) ->
  JSON_parse old = Ok config ->
  updated_config config (path_relative root p) note = Ok config2 ->
  exists existingNote,
    addNoteToFileCommand w fileItem (Some note)
    = (showMessage Error "Error saving note to contexts.json"
         (showInputBox (note_box (path_relative root p) existingNote) w),
       Resolved).
Proof.
  intros Hws Hroot Hfile Hitem Hparse Hup.
  unfold addNoteToFileCommand. rewrite Hws.
  destruct root as [|a root]; [contradiction|].
  assert (Hex : existsSync w (contexts_json (String a root)) = true).
  { unfold existsSync. apply bool_decide_eq_true. rewrite Hfile. eauto. }
  rewrite Hex. cbn [negb]. rewrite Hitem. cbn [as_string].
  unfold read_config at 1, readFileSync. rewrite Hfile. cbn [bind]. rewrite Hparse.
  unfold updated_config in Hup.
  destruct (init_notes config) as [config1|e] eqn:Hinit; [|discriminate].
  cbn [bind] in Hup |- *.
  destruct (init_notes_object _ _ Hinit)
    as (ps & ps1 & notes1 & -> & -> & Hget1 & Htruthy & _).
  destruct (existing_note_ok ps1 notes1 (path_relative (String a root) p) Hget1 Htruthy)
    as [existingNote Hen].
  rewrite Hen. cbn [bind]. rewrite Hup.
  exists existingNote. unfold writeFileSync, showInputBox at 1. cbn [fs].
  now rewrite Hfile.
Qed.

End Outcomes.

Lemma rejected_run_is_silent_witness :
  let w := workspace "/ws" noted_doc in
  addNoteToFileCommand w (Section "A" []) (Some "later") = (w, Rejected TypeError)
  /\ fs w = fs w
  /\ workspaceFolder w = workspaceFolder w
  /\ notifications w = notifications w
  /\ commands w = commands w
  /\ TypeError <> FsError /\ (forall m, TypeError <> SyntaxError m).
Proof.
  intros w.
  assert (H : addNoteToFileCommand w (Section "A" []) (Some "later")
              = (w, Rejected TypeError)) by (vm_compute; reflexivity).
  split; [exact H|].
  exact (rejected_run_is_silent w w (Section "A" []) (Some "later") TypeError H).
Defined.

Lemma command_without_document_witness :
  let w := workspace_text "/ws" "{ not json" in
  workspaceFolder_or_empty w <> ""
  /\ existsSync w (contexts_json "/ws") = true
  /\ (forall config, read_config w (contexts_json "/ws") <> Ok config)
  /\ addNoteToFileCommand w (item_at "a.ts") (Some "later")
     = (showMessage Error "Error reading contexts.json" w, Resolved)
  /\ addNoteToFileCommand w (Folder "src" []) (Some "later") = (w, Rejected TypeError).
Proof.
  intros w.
  assert (H1 : workspaceFolder_or_empty w <> "") by discriminate.
  assert (H2 : existsSync w (contexts_json "/ws") = true) by (vm_compute; reflexivity).
  assert (H3 : forall config, read_config w (contexts_json "/ws") <> Ok config).
  { intros config.
    assert (E : read_config w (contexts_json "/ws")
                = Throw (SyntaxError "Unexpected token in JSON"))
      by (vm_compute; reflexivity).
    rewrite E. discriminate. }
  split; [exact H1|]. split; [exact H2|]. split; [exact H3|]. split.
  - destruct (command_without_document w (item_at "a.ts") (Some "later"))
      as (_ & _ & Hread & _).
    exact (Hread H1 H2 eq_refl H3).
  - destruct (command_without_document w (Folder "src" []) (Some "later"))
      as (_ & _ & _ & Hreject).
    exact (Hreject H1 H2 eq_refl).
Defined.

Lemma unwritable_config_reported_witness :
  let w := readonly_workspace "/ws" noted_doc in
  fs w !! contexts_json "/ws" = Some (ReadOnly (JSON_stringify noted_doc 2))
  /\ JSON_parse (JSON_stringify noted_doc 2) = Ok noted_doc
  /\ updated_config noted_doc (path_relative "/ws" "/ws/x/z.ts") "later"
     = Ok noted_doc_later
  /\ exists existingNote,
       addNoteToFileCommand w (item_at "x/z.ts") (Some "later")
       = (showMessage Error "Error saving note to contexts.json"
            (showInputBox (note_box (path_relative "/ws" "/ws/x/z.ts") existingNote) w),
          Resolved).
Proof.
  intros w.
  assert (H1 : fs w !! contexts_json "/ws"
               = Some (ReadOnly (JSON_stringify noted_doc 2)))
    by (vm_compute; reflexivity).
  assert (H2 : JSON_parse (JSON_stringify noted_doc 2) = Ok noted_doc)
    by (vm_compute; reflexivity).
  assert (H3 : updated_config noted_doc (path_relative "/ws" "/ws/x/z.ts") "later"
               = Ok noted_doc_later) by (vm_compute; reflexivity).
  split; [exact H1|]. split; [exact H2|]. split; [exact H3|].
  refine (unwritable_config_reported w (item_at "x/z.ts") "/ws" "/ws/x/z.ts"
            (JSON_stringify noted_doc 2) "later" noted_doc noted_doc_later
            eq_refl _ H1 eq_refl H2 H3).
  discriminate.
Defined.

(* ================================================================= *)
(** ** A saved note, seen again *)

Section Saved.
Context {platform : Platform}.

Lemma every_item_both (P Q : TreeItem -> Prop) (l : list TreeItem) :
  every_item P l -> every_item Q l -> every_item (fun it => P it /\ Q it) l.
Proof.
  intros HP. induction HP as [|it l Hp Hc IHc Hl IHl]; intros HQ; [constructor|].
  inversion HQ; subst. constructor; auto.
Qed.

Lemma refresh_items (this : TreeDataProvider) (w : World) :
  fst (fst (refresh this w)) = fst (loadConfig this w).
Proof. unfold refresh. now destruct (loadConfig this w). Qed.

(** The world after a run that saved a note that is not empty, for a path
    other than [__proto__], on a runtime that reads the written document
    back as it is. *)
Lemma saved_world (w : World) (fileItem : TreeItem) (root p old note : string)
    (config config2 : json) :
  workspaceFolder w = Some root ->
  root <> "" ->
  fs w !! contexts_json root = Some (Regular old) ->
  filePath_of fileItem = Some (JStr p) ->
  read_config w (contexts_json root) = Ok config ->
  note <> "" ->
  path_relative root p <> "__proto__" ->
  updated_config config (path_relative root p) note = Ok config2 ->
  JSON_parse (JSON_stringify config2 2) = Ok config2 ->
  let w1 := fst (addNoteToFileCommand w fileItem (Some note)) in
  workspaceFolder w1 = Some root
  /\ fs w1 !! contexts_json root = Some (Regular (JSON_stringify config2 2))
  /\ read_config w1 (contexts_json root) = Ok config2
  /\ exists ps2 nps2,
       config2 = JObj ps2
       /\ props_get "notes" ps2 = Some (JObj nps2)
       /\ props_get (path_relative root p) nps2 = Some (JStr note).
Proof.
  intros Hws Hroot Hfile Hitem Hcfg Hnote Hproto Hup Hback.
  destruct (addNote_runs w fileItem root p old note config config2
              Hws Hroot Hfile Hitem Hcfg Hup) as [e1 Hrun].
  cbv zeta. rewrite Hrun. cbn [fst].
  assert (Hfile1 : fs (after_note root e1 (path_relative root p) note config2 w)
                   !! contexts_json root
                   = Some (Regular (JSON_stringify config2 2))).
  { unfold after_note. cbn [fs]. apply lookup_insert_eq. }
  split; [exact Hws|]. split; [exact Hfile1|]. split.
  - unfold read_config, readFileSync. rewrite Hfile1. cbn [bind]. exact Hback.
  - apply (updated_config_has_note _ _ _ _ Hnote Hproto Hup).
Qed.

(** X13.  After the command has saved a note that is not empty, for a file
    whose relative path is not [__proto__], the next run for the same item
    opens its input box with that note filled in, whatever the answer to it
    will be.  The runtime is one that reads the written document back as it
    is. *)
Theorem saved_note_prefills_box (w : World) (fileItem : TreeItem)
    (root p old note : string) (config config2 : json) (answer : option string) :
  workspaceFolder w = Some root ->
  root <> "" ->
  fs w !! contexts_json root = Some (Regular old) ->
  filePath_of fileItem = Some (JStr p) ->
  read_config w (contexts_json root) = Ok config ->
  note <> "" ->
  path_relative root p <> "__proto__" ->
  updated_config config (path_relative root p) note = Ok config2 ->
  JSON_parse (JSON_stringify config2 2) = Ok config2 ->
  let w1 := fst (addNoteToFileCommand w fileItem (Some note)) in
  inputBoxes (fst (addNoteToFileCommand w1 fileItem answer))
  = inputBoxes w1 ++ [note_box (path_relative root p) (JStr note)].
Proof.
  intros Hws Hroot Hfile Hitem Hcfg Hnote Hproto Hup Hback.
  destruct (saved_world w fileItem root p old note config config2
              Hws Hroot Hfile Hitem Hcfg Hnote Hproto Hup Hback)
    as (Hws1 & Hfile1 & Hcfg1 & ps2 & nps2 & -> & Hnotes & Hrel).
  cbv zeta. set (w1 := fst (addNoteToFileCommand w fileItem (Some note))) in *.
  unfold addNoteToFileCommand at 1. rewrite Hws1.
  destruct root as [|a root]; [contradiction|].
  rewrite (existsSync_regular _ _ _ Hfile1). cbn [negb].
  rewrite Hitem. cbn [as_string]. rewrite Hcfg1.
  unfold init_notes, existing_note. cbn [member bind get_prop].
  rewrite Hnotes. cbn [truthy member bind get_prop]. rewrite Hnotes.
  cbn [member bind get_prop]. rewrite Hrel. cbn [truthy].
  apply String.eqb_neq in Hnote. rewrite Hnote. cbn [negb].
  fold (note_box (path_relative (String a root) p) (JStr note)).
  destruct answer as [answer|]; [|reflexivity].
  destruct (apply_note _ _ answer) as [config3|e]; [|reflexivity].
  unfold writeFileSync, showInputBox at 1. cbn [fs]. rewrite Hfile1.
  reflexivity.
Qed.

(** X14.  After the command has saved a note that is not empty, for a file
    whose relative path is not [__proto__], a refresh builds a tree in which
    every item for that file, at any depth, has the note in its tooltip, and
    the note glyph as its description when folders are shown.  The runtime
    is one that reads the written document back as it is. *)
Theorem saved_note_shown (this : TreeDataProvider) (w : World) (fileItem : TreeItem)
    (root p old note : string) (config config2 : json) :
  workspaceFolder w = Some root ->
  root <> "" ->
  fs w !! contexts_json root = Some (Regular old) ->
  filePath_of fileItem = Some (JStr p) ->
  read_config w (contexts_json root) = Ok config ->
  note <> "" ->
  path_relative root p <> "__proto__" ->
  updated_config config (path_relative root p) note = Ok config2 ->
  JSON_parse (JSON_stringify config2 2) = Ok config2 ->
  let w1 := fst (addNoteToFileCommand w fileItem (Some note)) in
  every_item
    (fun it => filePath_of it = Some (JStr p) ->
       tooltip_of it = Some (hover_text p note)
       /\ (forall sf, showFolders_of config2 = Ok sf -> truthy sf = true ->
                      description_of it = Some note_glyph))
    (_items (fst (fst (refresh this w1)))).
Proof.
  intros Hws Hroot Hfile Hitem Hcfg Hnote Hproto Hup Hback.
  destruct (saved_world w fileItem root p old note config config2
              Hws Hroot Hfile Hitem Hcfg Hnote Hproto Hup Hback)
    as (Hws1 & Hfile1 & Hcfg1 & ps2 & nps2 & -> & Hnotes & Hrel).
  cbv zeta. set (w1 := fst (addNoteToFileCommand w fileItem (Some note))) in *.
  rewrite refresh_items.
  assert (Hfolder : workspaceFolder_or_empty w1 = root)
    by (unfold workspaceFolder_or_empty; now rewrite Hws1).
  assert (Hnote_of : note_of (JObj ps2) (path_relative root p)
                     = Some (Data (JStr note))).
  { unfold note_of, lookup. cbn [get_prop]. rewrite Hnotes.
    cbn [truthy get_prop]. now rewrite Hrel. }
  assert (Htruthy : truthy_value (Some (Data (JStr note))) = true).
  { cbn [truthy_value truthy]. apply String.eqb_neq in Hnote. now rewrite Hnote. }
  assert (Hhover : every_item (hovered (JObj ps2) root) (_items (fst (loadConfig this w1)))).
  { pose proof (loadConfig_hovered this w1 (JObj ps2)) as H.
    rewrite Hfolder in H. now apply H. }
  destruct (showFolders_of (JObj ps2)) as [sf|e] eqn:Hsf.
  - assert (Hdesc : every_item (described (JObj ps2) sf root)
                      (_items (fst (loadConfig this w1)))).
    { pose proof (loadConfig_described this w1 (JObj ps2) sf) as H.
      rewrite Hfolder in H. now apply H. }
    apply (every_item_impl (fun it => hovered (JObj ps2) root it
                                      /\ described (JObj ps2) sf root it));
      [|now apply every_item_both].
    intros it [Hh Hd] Hfp. specialize (Hh p Hfp). specialize (Hd p Hfp).
    cbv zeta in Hh. rewrite Hnote_of, Htruthy in Hh. split; [exact Hh|].
    intros sf' Hsf' Hshow. injection Hsf' as <-.
    now rewrite Hshow, Hnote_of, Htruthy in Hd.
  - apply (every_item_impl (hovered (JObj ps2) root)); [|exact Hhover].
    intros it Hh Hfp. specialize (Hh p Hfp).
    cbv zeta in Hh. rewrite Hnote_of, Htruthy in Hh. split; [exact Hh|].
    intros sf Hsf'. discriminate.
Qed.

End Saved.

Lemma saved_note_prefills_box_witness :
  let w := workspace "/ws" noted_doc in
  let w1 := fst (addNoteToFileCommand w (item_at "x/z.ts") (Some "later")) in
  read_config w (contexts_json "/ws") = Ok noted_doc
  /\ updated_config noted_doc (path_relative "/ws" "/ws/x/z.ts") "later"
     = Ok noted_doc_later
  /\ JSON_parse (JSON_stringify noted_doc_later 2) = Ok noted_doc_later
  /\ path_relative "/ws" "/ws/x/z.ts" <> "__proto__"
  /\ inputBoxes (fst (addNoteToFileCommand w1 (item_at "x/z.ts") None))
     = inputBoxes w1 ++ [note_box (path_relative "/ws" "/ws/x/z.ts") (JStr "later")].
Proof.
  intros w w1.
  assert (H1 : read_config w (contexts_json "/ws") = Ok noted_doc)
    by (vm_compute; reflexivity).
  assert (H2 : updated_config noted_doc (path_relative "/ws" "/ws/x/z.ts") "later"
               = Ok noted_doc_later) by (vm_compute; reflexivity).
  assert (H3 : JSON_parse (JSON_stringify noted_doc_later 2) = Ok noted_doc_later)
    by (vm_compute; reflexivity).
  assert (H4 : path_relative "/ws" "/ws/x/z.ts" <> "__proto__")
    by (vm_compute; discriminate).
  split; [exact H1|]. split; [exact H2|]. split; [exact H3|]. split; [exact H4|].
  refine (saved_note_prefills_box w (item_at "x/z.ts") "/ws" "/ws/x/z.ts"
            (JSON_stringify noted_doc 2) "later" noted_doc noted_doc_later None
            eq_refl _ _ eq_refl H1 _ H4 H2 H3).
  - discriminate.
  - vm_compute; reflexivity.
  - discriminate.
Defined.

Lemma saved_note_shown_witness :
  let w := workspace "/ws" noted_doc in
  let w1 := fst (addNoteToFileCommand w (item_at "x/z.ts") (Some "later")) in
  read_config w (contexts_json "/ws") = Ok noted_doc
  /\ updated_config noted_doc (path_relative "/ws" "/ws/x/z.ts") "later"
     = Ok noted_doc_later
  /\ JSON_parse (JSON_stringify noted_doc_later 2) = Ok noted_doc_later
  /\ path_relative "/ws" "/ws/x/z.ts" <> "__proto__"
  /\ every_item
       (fun it => filePath_of it = Some (JStr "/ws/x/z.ts") ->
          tooltip_of it = Some (hover_text "/ws/x/z.ts" "later")
          /\ (forall sf, showFolders_of noted_doc_later = Ok sf -> truthy sf = true ->
                         description_of it = Some note_glyph))
       (_items (fst (fst (refresh (provider_at "/ws") w1)))).
Proof.
  intros w w1.
  assert (H1 : read_config w (contexts_json "/ws") = Ok noted_doc)
    by (vm_compute; reflexivity).
  assert (H2 : updated_config noted_doc (path_relative "/ws" "/ws/x/z.ts") "later"
               = Ok noted_doc_later) by (vm_compute; reflexivity).
  assert (H3 : JSON_parse (JSON_stringify noted_doc_later 2) = Ok noted_doc_later)
    by (vm_compute; reflexivity).
  assert (H4 : path_relative "/ws" "/ws/x/z.ts" <> "__proto__")
    by (vm_compute; discriminate).
  split; [exact H1|]. split; [exact H2|]. split; [exact H3|]. split; [exact H4|].
  refine (saved_note_shown (provider_at "/ws") w (item_at "x/z.ts") "/ws" "/ws/x/z.ts"
            (JSON_stringify noted_doc 2) "later" noted_doc noted_doc_later
            eq_refl _ _ eq_refl H1 _ H4 H2 H3).
  - discriminate.
  - vm_compute; reflexivity.
  - discriminate.
Defined.

(* ================================================================= *)
(** ** The version script *)

Section Numerals.

Lemma to_uint_not_nil (n : N) : N.to_uint n <> Decimal.Nil.
Proof.
  destruct n as [|p]; [discriminate|]. apply DecimalPos.Unsigned.to_uint_nonnil.
Qed.

Lemma digits_number_text (n : N) : digits (number_text n) = Some n.
Proof.
  unfold digits, number_text.
  rewrite (NilZero.usu _ (to_uint_not_nil n)). cbn.
  now rewrite DecimalN.Unsigned.of_to.
Qed.

Lemma numeral_no_dot (u : Decimal.uint) :
  contains "."%char (NilEmpty.string_of_uint u) = false.
Proof. induction u; cbn; auto. Qed.

Lemma number_text_no_dot (n : N) : contains "."%char (number_text n) = false.
Proof.
  unfold number_text, NilZero.string_of_uint.
  destruct (N.to_uint n) eqn:E; try (rewrite <- E; apply numeral_no_dot).
  reflexivity.
Qed.

Lemma split_number (n : N) (rest : string) :
  split "."%char (number_text n +:+ "." +:+ rest)
  = number_text n :: split "."%char rest.
Proof.
  change ("." +:+ rest) with (String "."%char rest).
  now rewrite split_app, (split_plain _ _ (number_text_no_dot n)).
Qed.

Lemma prefix_includes (a b s : string) :
  String.prefix (a +:+ b) s = true -> includes b s = true.
Proof.
  revert s. induction a as [|c a IH]; intros s.
  - change ("" +:+ b) with b. intros H. destruct s; cbn [includes]; now rewrite H.
  - rewrite append_cons. destruct s as [|c' s]; cbn [String.prefix]; [discriminate|].
    destruct (ascii_dec c c'); [|discriminate].
    intros H. cbn [includes]. rewrite (IH s H). apply orb_true_r.
Qed.

End Numerals.

Section Script.
Context {platform : Platform}.

Lemma parseVersion_number_text (x y z : N) :
  (x <= max_safe_integer)%N -> (y <= max_safe_integer)%N -> (z <= max_safe_integer)%N ->
  parseVersion
    (Some (JStr (number_text x +:+ "." +:+ number_text y +:+ "." +:+ number_text z)))
  = Done {| major := x; minor := y; patch := z |}.
Proof.
  intros Hx Hy Hz. unfold parseVersion. cbn [as_string runtime and_then].
  rewrite !split_number, (split_plain _ _ (number_text_no_dot z)).
  rewrite !digits_number_text.
  apply N.leb_le in Hx, Hy, Hz. now rewrite Hx, Hy, Hz.
Qed.

Lemma parseVersion_safe (version : option json) (v : Version) :
  parseVersion version = Done v ->
  (major v <= max_safe_integer)%N /\ (minor v <= max_safe_integer)%N
  /\ (patch v <= max_safe_integer)%N.
Proof.
  unfold parseVersion. destruct (as_string version) as [s|e]; cbn [runtime and_then];
    [|discriminate].
  destruct (split "."%char s) as [|a [|b [|c [|d l]]]]; try discriminate.
  destruct (digits a) as [x|]; [|discriminate].
  destruct (digits b) as [y|]; [|discriminate].
  destruct (digits c) as [z|]; [|discriminate].
  destruct (x <=? max_safe_integer)%N eqn:Hx; [|discriminate].
  destruct (y <=? max_safe_integer)%N eqn:Hy; [|discriminate].
  destruct (z <=? max_safe_integer)%N eqn:Hz; [|discriminate].
  cbn [andb]. intros H. injection H as <-. cbn [major minor patch].
  now apply N.leb_le in Hx, Hy, Hz.
Qed.

(** X15.  For a version whose three numbers are at most
    [Number.MAX_SAFE_INTEGER], the one that is bumped below it: what
    [bumpVersion] returns is a version again, [parseVersion] accepts it, as
    the version with the bumped number one higher and the numbers after it
    zero, which comes after the old version in the order of versions.  (A
    version with a larger number is not represented: [parseVersion] marks
    it.) *)
Theorem bump_reparses (version : option json) (bumpType bumped : string)
    (v : Version) :
  parseVersion version = Done v ->
  (major v <= max_safe_integer)%N ->
  (minor v <= max_safe_integer)%N ->
  (patch v <= max_safe_integer)%N ->
  bumpVersion version bumpType = Done bumped ->
  ((if String.eqb bumpType "major" then major v
    else if String.eqb bumpType "minor" then minor v
    else patch v) < max_safe_integer)%N ->
  exists v',
    parseVersion (Some (JStr bumped)) = Done v'
    /\ version_lt v v'
    /\ ((bumpType = "major"
         /\ v' = {| major := major v + 1; minor := 0; patch := 0 |})
        \/ (bumpType = "minor"
            /\ v' = {| major := major v; minor := minor v + 1; patch := 0 |})
        \/ (bumpType = "patch"
            /\ v' = {| major := major v; minor := minor v; patch := patch v + 1 |})).
Proof.
  intros Hparse HM Hm Hp. unfold bumpVersion. rewrite Hparse. cbn [and_then].
  assert (H0 : (0 <= max_safe_integer)%N) by (apply N.le_0_l).
  destruct (String.eqb_spec bumpType "major") as [->|_].
  { intros H Hsafe. injection H as <-.
    eexists. split; [|split; [|left; split; reflexivity]].
    - change ".0.0" with ("." +:+ number_text 0 +:+ "." +:+ number_text 0).
      apply parseVersion_number_text; [lia | exact H0 | exact H0].
    - left. cbn [major]. lia. }
  destruct (String.eqb_spec bumpType "minor") as [->|_].
  { intros H Hsafe. injection H as <-.
    eexists. split; [|split; [|right; left; split; reflexivity]].
    - change ".0" with ("." +:+ number_text 0).
      apply parseVersion_number_text; [lia | lia | exact H0].
    - right. left. cbn [major minor]. split; [reflexivity | lia]. }
  destruct (String.eqb_spec bumpType "patch") as [->|_]; [|discriminate].
  intros H Hsafe. injection H as <-.
  eexists. split; [|split; [|right; right; split; reflexivity]].
  - apply parseVersion_number_text; lia.
  - right. right. cbn [major minor patch]. repeat split; lia.
Qed.

(** X16.  The bump type of a commit message comes from two tests: it is [major]
    when the message has [breaking change] in it or its first line has [!:] in
    it, in whatever case; otherwise [minor] when the first line starts with
    [feat:] or [feat(]; otherwise [patch]. The test of the first line against
    the list of commit types decides nothing, nor does the test for [fix]. *)
Theorem bump_type_of_message (commitMessage bumpType : string) :
  determineVersionBump commitMessage = Ok bumpType ->
  exists line,
    split (ascii_of_nat 10) commitMessage !! 0%nat = Some line
    /\ bumpType
       = (if includes "breaking change" (toLowerCase commitMessage)
             || includes "!:" (toLowerCase line)
          then "major"
          else if String.prefix "feat:" (toLowerCase line)
                  || String.prefix "feat(" (toLowerCase line)
          then "minor"
          else "patch").
Proof.
  unfold determineVersionBump.
  destruct (is_ascii commitMessage); cbn [negb]; [|discriminate].
  destruct (split (ascii_of_nat 10) commitMessage) as [|line rest]; [discriminate|].
  intros H. exists line. split; [reflexivity|]. cbv zeta in H.
  destruct (includes "breaking change" (toLowerCase commitMessage)
            || includes "!:" (toLowerCase line)) eqn:Hbreaking.
  - cbn [orb] in H. now injection H as <-.
  - apply orb_false_elim in Hbreaking as [_ Hbang].
    assert (Htypes : existsb (fun t => String.prefix (t +:+ "!:") (toLowerCase line))
                       commit_types = false).
    { destruct (existsb _ commit_types) eqn:E; [|reflexivity].
      apply existsb_exists in E as (t & _ & Ht).
      apply prefix_includes in Ht. congruence. }
    rewrite Htypes in H. cbn [orb] in H.
    destruct (String.prefix "feat:" (toLowerCase line)
              || String.prefix "feat(" (toLowerCase line)).
    + now injection H as <-.
    + destruct (String.prefix "fix:" (toLowerCase line)
                || String.prefix "fix(" (toLowerCase line)); now injection H as <-.
Qed.

Lemma determine_known (commitMessage bumpType : string) :
  determineVersionBump commitMessage = Ok bumpType -> In bumpType bump_types.
Proof.
  unfold determineVersionBump.
  destruct (is_ascii commitMessage); cbn [negb]; [|discriminate].
  destruct (split (ascii_of_nat 10) commitMessage) as [|line rest]; [discriminate|].
  cbv zeta. unfold bump_types.
  repeat match goal with
         | |- context [if ?b then _ else _] => destruct b
         end; intros H; injection H as <-; cbn; auto.
Qed.

(** The ways [main] goes: it stops before the new version is computed and
    leaves the world as it is, or it goes on with one of the three bump
    types. *)
Lemma main_cases (dirname : string) (args : list string) (git : Git) (w : World) :
  (after (main dirname args git w) = w
   /\ (forall message, ending (main dirname args git w) <> Crashed (PlainError message)))
  \/ exists currentVersion bumpType out,
       getCurrentVersion dirname w = Ok currentVersion
       /\ In bumpType bump_types
       /\ main dirname args git w
          = apply_bump dirname args w currentVersion bumpType out.
Proof.
  unfold main.
  destruct (getCurrentVersion dirname w) as [currentVersion|e]; cbn [after ending].
  2:{ left. split; [reflexivity | discriminate]. }
  destruct (match args !! 0%nat with
            | Some t => if negb (String.eqb t "") && existsb (String.eqb t) bump_types
                        then Some t else None
            | None => None
            end) as [bumpType|] eqn:Hforced.
  - right. exists currentVersion, bumpType. eexists. split; [reflexivity|].
    split; [|reflexivity].
    destruct (args !! 0%nat) as [t|]; [|discriminate].
    destruct (negb (String.eqb t "") && existsb (String.eqb t) bump_types) eqn:Hin;
      [|discriminate].
    injection Hforced as <-. apply andb_prop in Hin as [_ Hin].
    apply existsb_exists in Hin as (t' & Hin & Heq).
    apply String.eqb_eq in Heq. now subst.
  - destruct (getLastCommitMessage git) as [[commitMessage|e]|line]; cbn [after ending].
    + destruct (determineVersionBump commitMessage) as [bumpType|e] eqn:Hd;
        cbn [after ending].
      * right. exists currentVersion, bumpType. eexists. split; [reflexivity|].
        split; [now apply (determine_known _ _ Hd) | reflexivity].
      * left. split; [reflexivity | discriminate].
    + left. split; [reflexivity | discriminate].
    + left. split; [reflexivity | discriminate].
Qed.

Lemma first_character (a b : string) (c d : ascii) (x y : string) :
  a = String c x -> b = String d y -> c <> d -> a <> b.
Proof. intros -> -> Hcd H. injection H as H _. contradiction. Qed.

(** X17.  [main] never throws the error for an unknown bump type: the type it
    passes to [bumpVersion] is one of the three, whether forced on the command
    line or suggested by the commit message. *)
Theorem bump_type_always_known (dirname : string) (args : list string) (git : Git)
    (w : World) (bumpType : string) :
  ending (main dirname args git w)
  <> Crashed (PlainError ("Unknown bump type: " +:+ bumpType)).
Proof.
  destruct (main_cases dirname args git w)
    as [[_ H] | (currentVersion & t & out & _ & Hin & ->)]; [apply H|].
  unfold apply_bump, bumpVersion.
  destruct (parseVersion currentVersion) as [parsed|e] eqn:Hparse; cbn [and_then].
  - assert (Hdone : exists newVersion,
               (if String.eqb t "major"
                then Done (number_text (major parsed + 1) +:+ ".0.0")
                else if String.eqb t "minor"
                then Done (number_text (major parsed) +:+ "."
                           +:+ number_text (minor parsed + 1) +:+ ".0")
                else if String.eqb t "patch"
                then Done (number_text (major parsed) +:+ "."
                           +:+ number_text (minor parsed) +:+ "."
                           +:+ number_text (patch parsed + 1))
                else Failed (PlainError ("Unknown bump type: " +:+ t)))
               = Done newVersion).
    { destruct Hin as [<- | [<- | [<- | []]]]; cbn [String.eqb Ascii.eqb Bool.eqb];
        eauto. }
    destruct Hdone as [newVersion ->].
    destruct (negb (has_flag "--yes" args) && negb (has_flag "-y" args));
      cbn [ending]; [discriminate|].
    destruct (updatePackageJson dirname newVersion w); cbn [ending]; discriminate.
  - cbn [ending]. intros H. injection H as ->.
    unfold parseVersion in Hparse.
    destruct (as_string currentVersion) as [s|e']; cbn [runtime and_then] in Hparse;
      [|discriminate].
    assert (Hne : invalid_version s <> PlainError ("Unknown bump type: " +:+ bumpType)).
    { unfold invalid_version. intros H.
      assert (Hs : "Invalid version format: " +:+ s = "Unknown bump type: " +:+ bumpType)
        by congruence.
      revert Hs. eapply first_character; [reflexivity | reflexivity | discriminate]. }
    destruct (split "."%char s) as [|a [|b [|c [|d l]]]];
      try (injection Hparse as Hparse; now contradiction Hne).
    destruct (digits a), (digits b), (digits c);
      try (injection Hparse as Hparse; now contradiction Hne).
    destruct (_ && _); discriminate.
Qed.

(** X18.  Without [--yes] and [-y] among its arguments the script is a dry run:
    whatever the arguments, the commit message and the manifest, it leaves the
    world as it is. *)
Theorem dry_run_changes_nothing (dirname : string) (args : list string) (git : Git)
    (w : World) :
  has_flag "--yes" args = false ->
  has_flag "-y" args = false ->
  after (main dirname args git w) = w.
Proof.
  intros Hyes Hy.
  destruct (main_cases dirname args git w)
    as [[H _] | (currentVersion & t & out & _ & _ & ->)]; [exact H|].
  unfold apply_bump. destruct (bumpVersion currentVersion t); [|reflexivity].
  now rewrite Hyes, Hy.
Qed.

(** X19.  A confirmed run for a manifest that is an object with a version: the
    script returns, and has written the manifest with the new version and a
    final line feed; every other member has its value and all keys have their
    places. The bump type is the first argument when that is one of the three
    types, the suggestion for the commit message otherwise. *)
Theorem confirmed_bump_written (dirname : string) (args : list string) (git : Git)
    (w : World) (old bumpType newVersion : string) (ps : list (string * json)) :
  has_flag "--yes" args = true \/ has_flag "-y" args = true ->
  (args !! 0%nat = Some bumpType /\ In bumpType bump_types)
  \/ ((forall t, args !! 0%nat = Some t -> ~ In t bump_types)
      /\ exists out,
           git = GitOutput out /\ is_ascii out = true
           /\ determineVersionBump (trim out) = Ok bumpType) ->
  fs w !! package_json dirname = Some (Regular old) ->
  JSON_parse old = Ok (JObj ps) ->
  bumpVersion (props_get "version" ps) bumpType = Done newVersion ->
  let run := main dirname args git w in
  let ps' := props_set "version" (JStr newVersion) ps in
  ending run = Returned
  /\ fs (after run)
     = <[package_json dirname := Regular (JSON_stringify (JObj ps') 2 +:+ newline)]> (fs w)
  /\ props_get "version" ps' = Some (JStr newVersion)
  /\ (forall k, k <> "version" -> props_get k ps' = props_get k ps)
  /\ map fst ps' = map fst ps.
Proof.
  intros Hflag Htype Hfile Hparse Hbump. cbv zeta.
  assert (Hread : read_config w (package_json dirname) = Ok (JObj ps)).
  { unfold read_config, readFileSync. rewrite Hfile. cbn [bind]. exact Hparse. }
  assert (Hgo : exists out,
             main dirname args git w
             = apply_bump dirname args w (props_get "version" ps) bumpType out).
  { unfold main, getCurrentVersion. rewrite Hread. cbn [bind member get_prop].
    destruct Htype as [[H0 Hin] | (Hnot & out & -> & Hascii & Hd)].
    - rewrite H0.
      assert (E : negb (String.eqb bumpType "") && existsb (String.eqb bumpType) bump_types
                  = true).
      { destruct Hin as [<- | [<- | [<- | []]]]; reflexivity. }
      rewrite E. eauto.
    - assert (E : match args !! 0%nat with
                  | Some t => if negb (String.eqb t "")
                                 && existsb (String.eqb t) bump_types
                              then Some t else None
                  | None => None
                  end = None).
      { destruct (args !! 0%nat) as [t|] eqn:H0; [|reflexivity].
        destruct (negb (String.eqb t "") && existsb (String.eqb t) bump_types) eqn:Hin;
          [|reflexivity].
        apply andb_prop in Hin as [_ Hin].
        apply existsb_exists in Hin as (t' & Hin & Heq).
        apply String.eqb_eq in Heq. subst t'. now contradiction (Hnot t eq_refl). }
      rewrite E. cbn [getLastCommitMessage]. rewrite Hascii, Hd. eauto. }
  destruct Hgo as [out ->]. unfold apply_bump. rewrite Hbump.
  assert (Hdry : negb (has_flag "--yes" args) && negb (has_flag "-y" args) = false).
  { destruct Hflag as [-> | ->]; [reflexivity | apply andb_false_r]. }
  rewrite Hdry. unfold updatePackageJson. rewrite Hread.
  cbn [bind set_prop_sloppy]. unfold writeFileSync. rewrite Hfile.
  cbn [after ending fs].
  split; [reflexivity|]. split; [reflexivity|]. split; [apply get_set_same|].
  split; [intros k Hk; now apply get_set_other|].
  assert (Hkey : has_key "version" ps = true).
  { apply has_key_get. intros Hnone. unfold bumpVersion, parseVersion in Hbump.
    rewrite Hnone in Hbump. discriminate. }
  unfold props_set. rewrite Hkey. apply keys_replace.
Qed.

End Script.

Lemma bump_reparses_witness :
  parseVersion (Some (JStr "1.2.3")) = Done {| major := 1; minor := 2; patch := 3 |}
  /\ bumpVersion (Some (JStr "1.2.3")) "minor" = Done "1.3.0"
  /\ exists v',
       parseVersion (Some (JStr "1.3.0")) = Done v'
       /\ version_lt {| major := 1; minor := 2; patch := 3 |} v'
       /\ (("minor" = "major"
            /\ v' = {| major := 1 + 1; minor := 0; patch := 0 |})
           \/ ("minor" = "minor"
               /\ v' = {| major := 1; minor := 2 + 1; patch := 0 |})
           \/ ("minor" = "patch"
               /\ v' = {| major := 1; minor := 2; patch := 3 + 1 |})).
Proof.
  assert (H1 : parseVersion (Some (JStr "1.2.3"))
               = Done {| major := 1; minor := 2; patch := 3 |})
    by (vm_compute; reflexivity).
  assert (H2 : bumpVersion (Some (JStr "1.2.3")) "minor" = Done "1.3.0")
    by (vm_compute; reflexivity).
  split; [exact H1|]. split; [exact H2|].
  refine (bump_reparses (Some (JStr "1.2.3")) "minor" "1.3.0"
            {| major := 1; minor := 2; patch := 3 |} H1 _ _ _ H2 _);
    vm_compute; try reflexivity; discriminate.
Defined.

Lemma bump_type_of_message_witness :
  determineVersionBump "feat(tree): show notes" = Ok "minor"
  /\ exists line,
       split (ascii_of_nat 10) "feat(tree): show notes" !! 0%nat = Some line
       /\ "minor"
          = (if includes "breaking change" (toLowerCase "feat(tree): show notes")
                || includes "!:" (toLowerCase line)
             then "major"
             else if String.prefix "feat:" (toLowerCase line)
                     || String.prefix "feat(" (toLowerCase line)
             then "minor"
             else "patch").
Proof.
  assert (H : determineVersionBump "feat(tree): show notes" = Ok "minor")
    by (vm_compute; reflexivity).
  split; [exact H|].
  exact (bump_type_of_message "feat(tree): show notes" "minor" H).
Defined.

Lemma dry_run_changes_nothing_witness :
  has_flag "--yes" ["major"] = false
  /\ has_flag "-y" ["major"] = false
  /\ after (main "/repo/scripts" ["major"] (GitError "no repository")
              (checkout package_doc))
     = checkout package_doc.
Proof.
  split; [reflexivity|]. split; [reflexivity|].
  exact (dry_run_changes_nothing "/repo/scripts" ["major"] (GitError "no repository")
           (checkout package_doc) eq_refl eq_refl).
Defined.

Lemma confirmed_bump_written_witness :
  let w := checkout package_doc in
  let run := main "/repo/scripts" ["--yes"] (GitOutput "fix: keep the order") w in
  let ps' := props_set "version" (JStr "1.2.4") (props_of package_doc) in
  fs w !! package_json "/repo/scripts"
  = Some (Regular (JSON_stringify package_doc 2))
  /\ JSON_parse (JSON_stringify package_doc 2) = Ok (JObj (props_of package_doc))
  /\ determineVersionBump (trim "fix: keep the order") = Ok "patch"
  /\ bumpVersion (props_get "version" (props_of package_doc)) "patch" = Done "1.2.4"
  /\ ending run = Returned
  /\ fs (after run)
     = <[package_json "/repo/scripts"
         := Regular (JSON_stringify (JObj ps') 2 +:+ newline)]> (fs w)
  /\ props_get "version" ps' = Some (JStr "1.2.4")
  /\ (forall k, k <> "version" -> props_get k ps' = props_get k (props_of package_doc))
  /\ map fst ps' = map fst (props_of package_doc).
Proof.
  intros w run ps'.
  assert (H1 : fs w !! package_json "/repo/scripts"
               = Some (Regular (JSON_stringify package_doc 2)))
    by (vm_compute; reflexivity).
  assert (H2 : JSON_parse (JSON_stringify package_doc 2)
               = Ok (JObj (props_of package_doc))) by (vm_compute; reflexivity).
  assert (H3 : determineVersionBump (trim "fix: keep the order") = Ok "patch")
    by (vm_compute; reflexivity).
  assert (H4 : bumpVersion (props_get "version" (props_of package_doc)) "patch"
               = Done "1.2.4") by (vm_compute; reflexivity).
  split; [exact H1|]. split; [exact H2|]. split; [exact H3|]. split; [exact H4|].
  refine (confirmed_bump_written "/repo/scripts" ["--yes"]
            (GitOutput "fix: keep the order") w (JSON_stringify package_doc 2)
            "patch" "1.2.4" (props_of package_doc) (or_introl eq_refl) _ H1 H2 H4).
  right. split.
  - intros t Ht. injection Ht as <-. cbn. intuition discriminate.
  - exists "fix: keep the order". split; [reflexivity|]. split; [reflexivity | exact H3].
Defined.
